(** * esp32FOTAGSM: the firmware-over-the-air client of src/esp32fotagsm.cpp

    A shallow embedding of [execHTTPcheck], [execOTA] and [forceUpdate].
    The transport client, the firmware sink ([Update]), the clock, the link
    semaphore and the JSON parser are collaborators: they are the fields of a
    record [Collab] over an arbitrary world type, and every call the code makes
    on them is appended to a trace.  32-bit C integers are [Z] with the
    wrap-around written out. *)

From Stdlib Require Import ZArith List String Ascii DecimalString Lia Bool.
From Stdlib Require DecimalFacts DecimalN.
From Stdlib.Strings Require Import Byte.
Import ListNotations.
Open Scope Z_scope.

(** ** Machine integers *)

(** Conversion to [uint], [size_t] and [unsigned long] (all 32 bits wide on
    the ESP32). *)
Definition to_uint (z : Z) : Z := z mod 2 ^ 32.

(** Conversion to [uint16_t], the type of the port parameter of
    [Client::connect (const char *host, uint16_t port)]: the [int] the code
    passes is cut to 16 bits at the call. *)
Definition to_uint16 (z : Z) : Z := z mod 2 ^ 16.

Definition LONG_MAX : Z := 2 ^ 31 - 1.
Definition LONG_MIN : Z := - 2 ^ 31.

Definition CLIENT_TIMEOUT_MS : Z := 120000.
Definition DOWNLOAD_CHUNK_SIZE : Z := 16380.

(** ** The Arduino [String] operations the parser uses *)

Module WString.

Definition CR : ascii := ascii_of_nat 13.
Definition LF : ascii := ascii_of_nat 10.
Definition CRLF : string := String CR (String LF EmptyString).

Definition len (s : string) : Z := Z.of_nat (String.length s).

(** C's [isspace]: the blank and the control characters 9 to 13. *)
Definition isspace (c : ascii) : bool :=
  let n := nat_of_ascii c in
  Nat.eqb n 32 || (Nat.leb 9 n && Nat.leb n 13).

Fixpoint ltrim (s : string) : string :=
  match s with
  | EmptyString => EmptyString
  | String c r => if isspace c then ltrim r else s
  end.

Fixpoint rtrim (s : string) : string :=
  match s with
  | EmptyString => EmptyString
  | String c r =>
      match rtrim r with
      | EmptyString => if isspace c then EmptyString else String c EmptyString
      | r' => String c r'
      end
  end.

(** [String::trim] *)
Definition trim (s : string) : string := rtrim (ltrim s).

(** [String::startsWith] *)
Definition startsWith (s pre : string) : bool := String.prefix pre s.

Fixpoint find_from (pat s : string) (i : Z) : Z :=
  if String.prefix pat s then i
  else match s with
       | EmptyString => -1
       | String _ r => find_from pat r (i + 1)
       end.

(** [String::indexOf(const String &)]: the position of the first occurrence,
    -1 when there is none or the receiver is empty. *)
Definition indexOf (s pat : string) : Z :=
  if len s =? 0 then -1 else find_from pat s 0.

(** [String::indexOf(char)] *)
Definition indexOf_char (s : string) (c : ascii) : Z :=
  indexOf s (String c EmptyString).

(** [String::substring(unsigned left, unsigned right)]: the arguments are
    converted to unsigned, swapped when out of order, and [right] is clipped to
    the length. *)
Definition substring (s : string) (left right : Z) : string :=
  let l := to_uint left in
  let r := to_uint right in
  let lo := Z.min l r in
  let hi := Z.max l r in
  if len s <=? lo then EmptyString
  else
    let hi' := Z.min hi (len s) in
    String.substring (Z.to_nat lo) (Z.to_nat (hi' - lo)) s.

Definition tolower (c : ascii) : ascii :=
  let n := nat_of_ascii c in
  if Nat.leb 65 n && Nat.leb n 90 then ascii_of_nat (n + 32) else c.

Fixpoint map_string (f : ascii -> ascii) (s : string) : string :=
  match s with
  | EmptyString => EmptyString
  | String c r => String (f c) (map_string f r)
  end.

(** [String::equalsIgnoreCase] *)
Definition equalsIgnoreCase (a b : string) : bool :=
  String.eqb (map_string tolower a) (map_string tolower b).

Definition is_digit (c : ascii) : bool :=
  let n := nat_of_ascii c in Nat.leb 48 n && Nat.leb n 57.

Fixpoint digits_value (s : string) (acc : Z) : Z :=
  match s with
  | EmptyString => acc
  | String c r =>
      if is_digit c
      then digits_value r (acc * 10 + (Z.of_nat (nat_of_ascii c) - 48))
      else acc
  end.

Definition clamp_long (z : Z) : Z := Z.max LONG_MIN (Z.min LONG_MAX z).

(** [String::toInt] is [atol]: leading blanks, an optional sign, then the
    longest run of decimal digits; the value saturates at the bounds of a
    32-bit [long] (newlib's [strtol]). *)
Definition toInt (s : string) : Z :=
  match ltrim s with
  | String "-"%char r => clamp_long (- digits_value r 0)
  | String "+"%char r => clamp_long (digits_value r 0)
  | t => clamp_long (digits_value t 0)
  end.

(** [String(unsigned)]: the decimal digits. *)
Definition of_uint (z : Z) : string :=
  NilZero.string_of_uint (N.to_uint (Z.to_N z)).

(** [String] built from a C string: a null pointer gives the empty string. *)
Definition of_cstr (p : option string) : string :=
  match p with Some s => s | None => EmptyString end.

End WString.

(** [splitHeader]: cut a header line at its first colon. *)
Definition splitHeader (src : string) : string * string :=
  let idx := WString.indexOf_char src ":"%char in
  let header := WString.substring src 0 idx in
  let headerValue := WString.substring src (idx + 1) (WString.len src) in
  (header, WString.trim headerValue).

(** ** Requests, manifest documents and buffers *)

(** The text the code prints on the transport is always of one shape; the
    record keeps its variable parts. *)
Record Request := {
  req_method : string;
  req_path : string;
  req_host : string;
  req_range : option (Z * Z);
  req_connection : string
}.

Definition render (r : Request) : string :=
  (req_method r ++ " " ++ req_path r ++ " HTTP/1.1" ++ WString.CRLF ++
   "Host: " ++ req_host r ++ WString.CRLF ++
   "Cache-Control: no-cache" ++ WString.CRLF ++
   match req_range r with
   | Some (a, b) =>
       "Range: bytes=" ++ WString.of_uint a ++ "-" ++ WString.of_uint b ++
       WString.CRLF
   | None => EmptyString
   end ++
   "Connection: " ++ req_connection r ++ WString.CRLF ++ WString.CRLF)%string.

(** What the code reads out of the parsed [JSONDocument]: a missing string
    member is a null pointer, a missing number is 0. *)
Record JsonDoc := {
  j_type : option string;
  j_version : Z;
  j_host : option string;
  j_bin : option string;
  j_checksum : option string;
  j_port : Z
}.

(** A [char] array that was never initialised: a cell is [None] until a byte
    is stored in it. *)
Definition Buffer := list (option byte).

Definition JSON_BUFFER_SIZE : nat := 256.

(** The cells of a fresh array of [cap] bytes after [data] was stored from its
    first cell on (bytes stored beyond the array are not part of it). *)
Definition store_bytes (cap : nat) (data : list byte) : Buffer :=
  (map Some (firstn cap data) ++ repeat None (cap - List.length data))%list.

(** ** Collaborators and events *)

Inductive Event :=
| EvSemTake
| EvSemGive
| EvSetTimeout (ms : Z)
| EvConnect (host : string) (port : Z) (ok : bool)
| EvPrint (r : Request)
| EvAvailable (n : Z)
| EvReadLine (line : string)
| EvReadBytes (requested : Z) (data : list byte)
| EvFlush
| EvStop
| EvConnected (b : bool)
| EvMillis (now : Z)
| EvDelay (ms : Z)
| EvCheckConnection (up : bool)
| EvUpdateBegin (size : Z) (ok : bool)
| EvUpdateSetMD5 (md5 : string)
| EvUpdateOnProgress
| EvUpdateWrite (data : list byte) (written : Z)
| EvUpdateWriteStream (written : Z)
| EvUpdateEnd (ok : bool)
| EvUpdateIsFinished (b : bool)
| EvRestart
| EvDeserializeJson (buf : Buffer) (doc : option JsonDoc).

Record Collab (W : Type) := {
  (* Client *)
  client_setTimeout : Z -> W -> W;
  client_connect : string -> Z -> W -> bool * W;  (* port: the uint16_t *)
  client_print : string -> W -> W;
  client_available : W -> Z * W;
  client_readStringUntil : ascii -> W -> string * W;
  client_readBytes : Z -> W -> list byte * W;
  client_flush : W -> W;
  client_stop : W -> W;
  client_connected : W -> bool * W;
  (* Update *)
  Update_begin : Z -> W -> bool * W;
  Update_setMD5 : string -> W -> W;
  Update_onProgress : W -> W;
  Update_write : list byte -> W -> Z * W;
  Update_writeStream : W -> Z * W;
  Update_end : W -> bool * W;
  Update_isFinished : W -> bool * W;
  (* Arduino core, FreeRTOS, ArduinoJson *)
  millis : W -> Z * W;
  delay : Z -> W -> W;
  ESP_restart : W -> W;
  xSemaphoreTake : W -> W;
  xSemaphoreGive : W -> W;
  connectionCheckFunction : W -> bool * W;
  deserializeJson : Buffer -> option JsonDoc
}.

Arguments client_setTimeout {W}.
Arguments client_connect {W}.
Arguments client_print {W}.
Arguments client_available {W}.
Arguments client_readStringUntil {W}.
Arguments client_readBytes {W}.
Arguments client_flush {W}.
Arguments client_stop {W}.
Arguments client_connected {W}.
Arguments Update_begin {W}.
Arguments Update_setMD5 {W}.
Arguments Update_onProgress {W}.
Arguments Update_write {W}.
Arguments Update_writeStream {W}.
Arguments Update_end {W}.
Arguments Update_isFinished {W}.
Arguments millis {W}.
Arguments delay {W}.
Arguments ESP_restart {W}.
Arguments xSemaphoreTake {W}.
Arguments xSemaphoreGive {W}.
Arguments connectionCheckFunction {W}.
Arguments deserializeJson {W}.

(** The members of the object the three functions read or write. *)
Record esp32FOTAGSM := {
  _host : string;
  _bin : string;
  _port : Z;
  _checksum : string;
  _firwmareType : string;
  _firwmareVersion : Z;
  checkHOST : string;
  checkPORT : Z;
  checkRESOURCE : string;
  useDeviceID : bool;
  (* whether the two optional members are non-NULL *)
  _networkSemaphore : bool;
  _connectionCheckFunction : bool
}.

Definition set_target (h : string) (p : Z) (b c : string) (o : esp32FOTAGSM)
  : esp32FOTAGSM :=
  {| _host := h; _bin := b; _port := p; _checksum := c;
     _firwmareType := _firwmareType o; _firwmareVersion := _firwmareVersion o;
     checkHOST := checkHOST o; checkPORT := checkPORT o;
     checkRESOURCE := checkRESOURCE o; useDeviceID := useDeviceID o;
     _networkSemaphore := _networkSemaphore o;
     _connectionCheckFunction := _connectionCheckFunction o |}.

Definition set_port (p : Z) (o : esp32FOTAGSM) : esp32FOTAGSM :=
  set_target (_host o) p (_bin o) (_checksum o) o.

Definition set_host (h : string) (o : esp32FOTAGSM) : esp32FOTAGSM :=
  set_target h (_port o) (_bin o) (_checksum o) o.

Definition set_bin (b : string) (o : esp32FOTAGSM) : esp32FOTAGSM :=
  set_target (_host o) (_port o) b (_checksum o) o.

Definition set_checksum (c : string) (o : esp32FOTAGSM) : esp32FOTAGSM :=
  set_target (_host o) (_port o) (_bin o) c o.

(** ** Header lines *)

(** What the body of a header loop does with one trimmed, non-empty line:
    [RejectStatus] is [_client->stop(); break;], [Next h] goes on to the next
    line with the loop's variables [h]. *)
Inductive LineResult (H : Type) :=
| RejectStatus
| Next (h : H).
Arguments RejectStatus {H}.
Arguments Next {H}.

(** The variables the two response-header loops of lines 123-189 and 568-625
    assign. *)
Record Headers := {
  contentLength : Z;
  isValidContentType : bool;
  Accept_Ranges_bytes : bool;
  gotHTTPStatus : bool
}.

Definition no_headers : Headers :=
  {| contentLength := 0; isValidContentType := false;
     Accept_Ranges_bytes := false; gotHTTPStatus := false |}.

Definition with_status (h : Headers) : Headers :=
  {| contentLength := contentLength h;
     isValidContentType := isValidContentType h;
     Accept_Ranges_bytes := Accept_Ranges_bytes h;
     gotHTTPStatus := true |}.

Definition with_contentLength (n : Z) (h : Headers) : Headers :=
  {| contentLength := n;
     isValidContentType := isValidContentType h;
     Accept_Ranges_bytes := Accept_Ranges_bytes h;
     gotHTTPStatus := gotHTTPStatus h |}.

Definition with_validContentType (h : Headers) : Headers :=
  {| contentLength := contentLength h;
     isValidContentType := true;
     Accept_Ranges_bytes := Accept_Ranges_bytes h;
     gotHTTPStatus := gotHTTPStatus h |}.

Definition with_Accept_Ranges (h : Headers) : Headers :=
  {| contentLength := contentLength h;
     isValidContentType := isValidContentType h;
     Accept_Ranges_bytes := true;
     gotHTTPStatus := gotHTTPStatus h |}.

(** The body of the header loop of the HEAD probe, lines 140-188. *)
Definition probe_line (line : string) (h : Headers) : LineResult Headers :=
  if WString.startsWith line "HTTP/1.1" && (WString.indexOf line "200" <? 0)
  then RejectStatus
  else
    let h := if WString.startsWith line "HTTP/1.1" then with_status h else h in
    if negb (gotHTTPStatus h) then Next h
    else
      let '(header, headerValue) := splitHeader line in
      if WString.equalsIgnoreCase header "Content-Length"
      then Next (with_contentLength (WString.toInt headerValue) h)
      else if WString.equalsIgnoreCase header "Content-type"
      then Next (if String.eqb headerValue "application/octet-stream"
                 then with_validContentType h else h)
      else if WString.equalsIgnoreCase header "Accept-Ranges"
      then Next (if String.eqb headerValue "bytes"
                 then with_Accept_Ranges h else h)
      else Next h.

(** The body of the header loop of the manifest check, lines 585-624. *)
Definition manifest_line (line : string) (h : Headers) : LineResult Headers :=
  if WString.startsWith line "HTTP/1.1" && (WString.indexOf line "200" <? 0)
  then RejectStatus
  else
    let h := if WString.startsWith line "HTTP/1.1" then with_status h else h in
    if negb (gotHTTPStatus h) then Next h
    else
      let '(header, headerValue) := splitHeader line in
      if WString.equalsIgnoreCase header "Content-Length"
      then Next (with_contentLength (WString.toInt headerValue) h)
      else if WString.equalsIgnoreCase header "Content-type"
      then Next (if String.eqb headerValue "application/json"
                 then with_validContentType h else h)
      else Next h.

(** The body of the header loop of a ranged GET, lines 334-369; its variable
    is [should_close_connection]. *)
Definition chunk_line (line : string) (should_close_connection : bool)
  : LineResult bool :=
  if WString.startsWith line "HTTP/1.1" && (WString.indexOf line "206" <? 0)
  then RejectStatus
  else
    let '(header, headerValue) := splitHeader line in
    if WString.equalsIgnoreCase header "Connection"
    then Next (negb (String.eqb headerValue "keep-alive"))
    else Next should_close_connection.

(** The header loop of the whole-file GET, lines 442-458, only skips lines. *)
Definition skip_line (line : string) (u : unit) : LineResult unit := Next u.

(** ** The chunk loop's variables *)

Record ChunkState := {
  chunk_first_byte : Z;
  chunk_last_byte : Z;
  remainig_bytes : Z;
  total_written_bytes : Z;
  last_written_bytes : Z;
  should_close_connection : bool
}.

Definition with_last_byte (l : Z) (c : ChunkState) : ChunkState :=
  {| chunk_first_byte := chunk_first_byte c;
     chunk_last_byte := l;
     remainig_bytes := remainig_bytes c;
     total_written_bytes := total_written_bytes c;
     last_written_bytes := last_written_bytes c;
     should_close_connection := should_close_connection c |}.

Definition with_should_close (b : bool) (c : ChunkState) : ChunkState :=
  {| chunk_first_byte := chunk_first_byte c;
     chunk_last_byte := chunk_last_byte c;
     remainig_bytes := remainig_bytes c;
     total_written_bytes := total_written_bytes c;
     last_written_bytes := last_written_bytes c;
     should_close_connection := b |}.

(** Lines 276-286: the span of the next request. *)
Definition clip_chunk (c : ChunkState) : ChunkState :=
  let c1 :=
    if remainig_bytes c <? DOWNLOAD_CHUNK_SIZE
    then with_last_byte
           (to_uint (chunk_first_byte c + remainig_bytes c - 1)) c
    else c in
  if to_uint (chunk_last_byte c1 - chunk_first_byte c1) >? DOWNLOAD_CHUNK_SIZE
  then with_last_byte
         (to_uint (chunk_first_byte c1 + DOWNLOAD_CHUNK_SIZE - 1)) c1
  else c1.

(** Lines 372 and 379-385: the number of bytes to read, and the span shrunk to
    what was read. *)
Definition bytes_to_read (c : ChunkState) : Z :=
  to_uint (chunk_last_byte c - chunk_first_byte c + 1).

Definition shrink_to_read (readed_bytes : Z) (c : ChunkState) : ChunkState :=
  if readed_bytes =? bytes_to_read c then c
  else with_last_byte (to_uint (chunk_first_byte c + readed_bytes - 1)) c.

(** Lines 388-401: the counters after the sink acknowledged [written] bytes. *)
Definition advance (written : Z) (c : ChunkState) : ChunkState :=
  {| chunk_first_byte := to_uint (chunk_first_byte c + written);
     chunk_last_byte := to_uint (chunk_last_byte c + written);
     remainig_bytes := to_uint (remainig_bytes c - written);
     total_written_bytes := to_uint (total_written_bytes c + written);
     last_written_bytes := written;
     should_close_connection := should_close_connection c |}.

(** Lines 237-241 *)
Definition first_chunk (contentLength : Z) : ChunkState :=
  {| chunk_first_byte := 0;
     chunk_last_byte := DOWNLOAD_CHUNK_SIZE - 1;
     remainig_bytes := to_uint contentLength;
     total_written_bytes := 0;
     last_written_bytes := 0;
     should_close_connection := false |}.

(** How a call of [execOTA] ends: by a [return] statement, in [ESP.restart()],
    or by reaching the closing brace of the function, which returns no
    value. *)
Inductive Outcome :=
| Returned (b : bool)
| Restarted
| NoReturnValue.

(** ** The engine over arbitrary collaborators *)

Section Engine.

Context {W : Type} (C : Collab W).

(** The object, the collaborators' world and the calls made so far, newest
    first. *)
Record St := {
  self : esp32FOTAGSM;
  world : W;
  trace : list Event
}.

(** A computation either completes or is cut off inside a loop that was given
    too few iterations. *)
Inductive Res (A : Type) :=
| Ok (a : A) (s : St)
| OutOfFuel (s : St).
Arguments Ok {A}.
Arguments OutOfFuel {A}.

Definition M (A : Type) : Type := St -> Res A.

Definition ret {A} (a : A) : M A := fun s => Ok a s.

Definition bind {A B} (m : M A) (k : A -> M B) : M B :=
  fun s => match m s with
           | Ok a s' => k a s'
           | OutOfFuel s' => OutOfFuel s'
           end.

Definition out_of_fuel {A} : M A := fun s => OutOfFuel s.

Notation "x <- m ;; k" := (bind m (fun x => k))
  (at level 61, m at next level, right associativity).
Notation "m ;; k" := (bind m (fun _ => k))
  (at level 61, right associativity).

(** A collaborator call that answers, one that does not, and the pure parser;
    each is recorded. *)
Definition call {A} (f : W -> A * W) (ev : A -> Event) : M A :=
  fun s => let (a, w) := f (world s) in
           Ok a {| self := self s; world := w; trace := ev a :: trace s |}.

Definition exec (f : W -> W) (ev : Event) : M unit :=
  fun s => Ok tt {| self := self s; world := f (world s);
                    trace := ev :: trace s |}.

Definition pure_call {A} (a : A) (ev : A -> Event) : M A :=
  fun s => Ok a {| self := self s; world := world s;
                   trace := ev a :: trace s |}.

Definition this : M esp32FOTAGSM := fun s => Ok (self s) s.

Definition assign (f : esp32FOTAGSM -> esp32FOTAGSM) : M unit :=
  fun s => Ok tt {| self := f (self s); world := world s; trace := trace s |}.

(** Lines 34-43 *)
Definition _checkConnection : M bool :=
  o <- this ;;
  if _connectionCheckFunction o
  then call (connectionCheckFunction C) EvCheckConnection
  else ret true.

(** Lines 45-54 *)
Definition _blockingNetworkSemaphoreTake : M unit :=
  o <- this ;;
  if _networkSemaphore o then exec (xSemaphoreTake C) EvSemTake else ret tt.

(** Lines 56-65 *)
Definition _blockingNetworkSemaphoreGive : M unit :=
  o <- this ;;
  if _networkSemaphore o then exec (xSemaphoreGive C) EvSemGive else ret tt.

Definition client_print_request (r : Request) : M unit :=
  exec (client_print C (render r)) (EvPrint r).

(** [while (_client->available() == 0) { if (millis() - timeout >
    CLIENT_TIMEOUT_MS) ... }]: [true] when the loop ends because data is
    available, [false] when its timeout branch is taken (which returns at lines
    114-120, 434-440 and 559-565, and breaks at lines 301-305). *)
Fixpoint wait_available (fuel : nat) (timeout : Z) : M bool :=
  match fuel with
  | O => out_of_fuel
  | S fuel' =>
      n <- call (client_available C) EvAvailable ;;
      if n =? 0 then
        now <- call (millis C) EvMillis ;;
        if to_uint (now - timeout) >? CLIENT_TIMEOUT_MS then ret false
        else wait_available fuel' timeout
      else ret true
  end.

(** [while (_client->available()) { line = readStringUntil('\n'); line.trim();
    if (!line.length()) break; ... }] with the rest of the body given by
    [on_line]. *)
Fixpoint read_headers {H} (on_line : string -> H -> LineResult H)
  (fuel : nat) (h : H) : M H :=
  match fuel with
  | O => out_of_fuel
  | S fuel' =>
      n <- call (client_available C) EvAvailable ;;
      if n =? 0 then ret h
      else
        raw <- call (client_readStringUntil C WString.LF) EvReadLine ;;
        let line := WString.trim raw in
        if WString.len line =? 0 then ret h
        else
          match on_line line h with
          | RejectStatus => exec (client_stop C) EvStop ;; ret h
          | Next h' => read_headers on_line fuel' h'
          end
  end.

(** *** execHTTPcheck *)

(** Lines 522-625: up to the end of the header loop.  [None] when the function
    has returned [false] by then. *)
Definition manifest_exchange (fuel : nat) : M (option Headers) :=
  (* useURL, lines 526-535, is only logged *)
  assign (set_port 80) ;;
  exec (client_setTimeout C CLIENT_TIMEOUT_MS)
       (EvSetTimeout CLIENT_TIMEOUT_MS) ;;
  _blockingNetworkSemaphoreTake ;;
  o <- this ;;
  connected <- call (client_connect C (checkHOST o) (to_uint16 (checkPORT o)))
                    (EvConnect (checkHOST o) (to_uint16 (checkPORT o))) ;;
  if connected then
    client_print_request
      {| req_method := "GET"; req_path := checkRESOURCE o;
         req_host := checkHOST o; req_range := None;
         req_connection := "close" |} ;;
    timeout <- call (millis C) EvMillis ;;
    arrived <- wait_available fuel timeout ;;
    if arrived then
      h <- read_headers manifest_line fuel no_headers ;;
      ret (Some h)
    else
      exec (client_stop C) EvStop ;;
      _blockingNetworkSemaphoreGive ;;
      ret None
  else
    _blockingNetworkSemaphoreGive ;;
    ret None.

(** Lines 627-699: the length guard, the payload, the parse and the
    comparison. *)
Definition manifest_payload (h : Headers) : M bool :=
  if contentLength h >? 256 then
    exec (client_stop C) EvStop ;;
    _blockingNetworkSemaphoreGive ;;
    ret false
  else if negb (contentLength h =? 0) && isValidContentType h then
    (* char JSONMessage[256]; *)
    let requested := to_uint (contentLength h) in
    data <- call (client_readBytes C requested) (EvReadBytes requested) ;;
    let JSONMessage := store_bytes JSON_BUFFER_SIZE data in
    exec (client_stop C) EvStop ;;
    _blockingNetworkSemaphoreGive ;;
    err <- pure_call (deserializeJson C JSONMessage)
                     (EvDeserializeJson JSONMessage) ;;
    match err with
    | None =>
        exec (delay C 5000) (EvDelay 5000) ;;
        ret false
    | Some JSONDocument =>
        let pltype := j_type JSONDocument in
        let plversion := j_version JSONDocument in
        let plhost := j_host JSONDocument in
        let plbin := j_bin JSONDocument in
        let plckecksum := j_checksum JSONDocument in
        assign (set_port (j_port JSONDocument)) ;;
        assign (set_host (WString.of_cstr plhost)) ;;
        assign (set_bin (WString.of_cstr plbin)) ;;
        assign (set_checksum (WString.of_cstr plckecksum)) ;;
        o <- this ;;
        if String.eqb (WString.of_cstr pltype) (_firwmareType o) then
          if plversion >? _firwmareVersion o then ret true else ret false
        else ret false
    end
  else
    exec (client_flush C) EvFlush ;;
    exec (client_stop C) EvStop ;;
    _blockingNetworkSemaphoreGive ;;
    ret false.

Definition execHTTPcheck (fuel : nat) : M bool :=
  r <- manifest_exchange fuel ;;
  match r with
  | Some h => manifest_payload h
  | None => ret false
  end.

(** *** execOTA *)

(** Lines 82-200: the HEAD probe.  [None] when the function has returned
    [false] by then. *)
Definition probe (fuel : nat) : M (option Headers) :=
  exec (client_setTimeout C CLIENT_TIMEOUT_MS)
       (EvSetTimeout CLIENT_TIMEOUT_MS) ;;
  _blockingNetworkSemaphoreTake ;;
  o <- this ;;
  connected <- call (client_connect C (_host o) (to_uint16 (_port o)))
                    (EvConnect (_host o) (to_uint16 (_port o))) ;;
  if connected then
    client_print_request
      {| req_method := "HEAD"; req_path := _bin o; req_host := _host o;
         req_range := None; req_connection := "close" |} ;;
    timeout <- call (millis C) EvMillis ;;
    arrived <- wait_available fuel timeout ;;
    if arrived then
      h <- read_headers probe_line fuel no_headers ;;
      (* We will open a new connection to the server later *)
      exec (client_stop C) EvStop ;;
      _blockingNetworkSemaphoreGive ;;
      ret (Some h)
    else
      exec (client_stop C) EvStop ;;
      _blockingNetworkSemaphoreGive ;;
      ret None
  else
    _blockingNetworkSemaphoreGive ;;
    ret None.

(** Lines 245-413: one pass through the body of the chunk loop. *)
Definition chunk_iteration (fuel : nat) (c : ChunkState) : M ChunkState :=
  up <- _checkConnection ;;
  if negb up then
    exec (delay C 5000) (EvDelay 5000) ;;
    ret c
  else
    _blockingNetworkSemaphoreTake ;;
    alive <- call (client_connected C) EvConnected ;;
    if negb alive then
      o <- this ;;
      connected <- call (client_connect C (_host o) (to_uint16 (_port o)))
                        (EvConnect (_host o) (to_uint16 (_port o))) ;;
      if connected then
        _blockingNetworkSemaphoreGive ;;
        ret c
      else
        _blockingNetworkSemaphoreGive ;;
        exec (delay C 5000) (EvDelay 5000) ;;
        ret c
    else
      let c := clip_chunk c in
      exec (client_flush C) EvFlush ;;
      o <- this ;;
      client_print_request
        {| req_method := "GET"; req_path := _bin o; req_host := _host o;
           req_range := Some (chunk_first_byte c, chunk_last_byte c);
           req_connection := "keep-alive" |} ;;
      timeout <- call (millis C) EvMillis ;;
      _ <- wait_available fuel timeout ;;
      (* At this point we should have data to read, if not, we will retry *)
      n <- call (client_available C) EvAvailable ;;
      if n =? 0 then
        exec (client_stop C) EvStop ;;
        _blockingNetworkSemaphoreGive ;;
        exec (delay C 5000) (EvDelay 5000) ;;
        ret c
      else
        close <- read_headers chunk_line fuel (should_close_connection c) ;;
        let c := with_should_close close c in
        let requested := bytes_to_read c in
        chunk_buffer <- call (client_readBytes C requested)
                             (EvReadBytes requested) ;;
        let readed_bytes := Z.of_nat (List.length chunk_buffer) in
        let c := shrink_to_read readed_bytes c in
        (* Write chunk to flash *)
        written <- call (Update_write C chunk_buffer)
                        (EvUpdateWrite chunk_buffer) ;;
        let c := advance written c in
        (if should_close_connection c then
           exec (client_stop C) EvStop ;;
           exec (delay C 1000) (EvDelay 1000)
         else ret tt) ;;
        _blockingNetworkSemaphoreGive ;;
        exec (delay C 250) (EvDelay 250) ;;
        ret c.

(** Lines 243-414: [while (remainig_bytes > 0)]; [inner] is the budget of the
    loops inside one pass. *)
Fixpoint chunk_loop (inner fuel : nat) (c : ChunkState) : M ChunkState :=
  match fuel with
  | O => out_of_fuel
  | S fuel' =>
      if remainig_bytes c >? 0 then
        c' <- chunk_iteration inner c ;;
        chunk_loop inner fuel' c'
      else ret c
  end.

(** Lines 418-468: the download in one go.  [None] when the function has
    returned [false]; otherwise [total_written_bytes]. *)
Definition whole_file (fuel : nat) : M (option Z) :=
  _blockingNetworkSemaphoreTake ;;
  exec (client_flush C) EvFlush ;;
  o <- this ;;
  connected <- call (client_connect C (_host o) (to_uint16 (_port o)))
                    (EvConnect (_host o) (to_uint16 (_port o))) ;;
  if connected then
    client_print_request
      {| req_method := "GET"; req_path := _bin o; req_host := _host o;
         req_range := None; req_connection := "close" |} ;;
    timeout <- call (millis C) EvMillis ;;
    arrived <- wait_available fuel timeout ;;
    if arrived then
      read_headers skip_line fuel tt ;;
      total <- call (Update_writeStream C) EvUpdateWriteStream ;;
      ret (Some total)
    else
      exec (client_stop C) EvStop ;;
      _blockingNetworkSemaphoreGive ;;
      ret None
  else
    _blockingNetworkSemaphoreGive ;;
    ret None.

(** Lines 470-499.  The comparison of [total_written_bytes] with
    [contentLength] at lines 472-479 only chooses a log line, and
    [Update.md5String], [getError] and [errorString] only feed log lines; no
    [return] follows the [if (Update.end())] statement. *)
Definition finish : M Outcome :=
  _blockingNetworkSemaphoreGive ;;
  ended <- call (Update_end C) EvUpdateEnd ;;
  if ended then
    finished <- call (Update_isFinished C) EvUpdateIsFinished ;;
    if finished then
      exec (ESP_restart C) EvRestart ;;
      ret Restarted
    else ret NoReturnValue
  else ret NoReturnValue.

(** Lines 202-517 *)
Definition install (fuel : nat) (h : Headers) : M Outcome :=
  if negb (contentLength h =? 0) && isValidContentType h then
    let size := to_uint (contentLength h) in
    canBegin <- call (Update_begin C size) (EvUpdateBegin size) ;;
    if canBegin then
      o <- this ;;
      (if 0 <? WString.len (_checksum o)
       then exec (Update_setMD5 C (_checksum o)) (EvUpdateSetMD5 (_checksum o))
       else ret tt) ;;
      (* the callback registered only logs the progress *)
      exec (Update_onProgress C) EvUpdateOnProgress ;;
      if Accept_Ranges_bytes h then
        (* numChunks, lines 231-235, is computed and never used *)
        chunk_loop fuel fuel (first_chunk (contentLength h)) ;;
        finish
      else
        r <- whole_file fuel ;;
        match r with
        | Some _ => finish
        | None => ret (Returned false)
        end
    else
      exec (client_flush C) EvFlush ;;
      ret (Returned false)
  else
    exec (client_flush C) EvFlush ;;
    ret (Returned false).

Definition execOTA (fuel : nat) : M Outcome :=
  r <- probe fuel ;;
  match r with
  | Some h => install fuel h
  | None => ret (Returned false)
  end.

(** Lines 722-729: [void forceUpdate(...)]. *)
Definition forceUpdate (firmwareHost : string) (firmwarePort : Z)
  (firmwarePath checksum : string) (fuel : nat) : M unit :=
  assign (set_host firmwareHost) ;;
  assign (set_bin firmwarePath) ;;
  assign (set_port firmwarePort) ;;
  assign (set_checksum checksum) ;;
  execOTA fuel ;;
  ret tt.

End Engine.

Arguments Ok {W A}.
Arguments OutOfFuel {W A}.

(** ** A deterministic fake of the collaborators

    A byte-generating HTTP server behind a transport, a sink that appends what
    it is given, a clock that ticks at every reading and a parser that knows
    one payload.  It is used to run the engine on concrete sessions. *)

Module Fake.

Record Config := {
  image : list byte;             (* the firmware served *)
  accept_ranges : bool;          (* HEAD advertises Accept-Ranges: bytes *)
  keep_alive : bool;             (* ranged responses keep the connection *)
  rejected_ranged : nat;         (* the first ranged GETs answered with 404 *)
  sink_space : Z;                (* Update.begin accepts up to this size *)
  sink_finalizes : bool;         (* what Update.end answers when complete *)
  manifest_length : Z;           (* the Content-Length the manifest declares *)
  manifest_body : list byte;     (* the manifest payload *)
  manifest_doc : option JsonDoc  (* what the parser makes of that payload *)
}.

Record World := {
  cfg : Config;
  connected : bool;
  lines : list string;           (* response lines not yet read *)
  body : list byte;              (* payload bytes not yet read *)
  clock : Z;
  ranged_seen : nat;
  sink_size : Z;
  sink : list byte
}.

Definition boot (c : Config) : World :=
  {| cfg := c; connected := false; lines := []; body := []; clock := 0;
     ranged_seen := 0; sink_size := 0; sink := [] |}.

Definition with_response (ls : list string) (b : list byte) (k : nat)
  (w : World) : World :=
  {| cfg := cfg w; connected := connected w; lines := ls; body := b;
     clock := clock w; ranged_seen := k; sink_size := sink_size w;
     sink := sink w |}.

Definition with_connected (b : bool) (w : World) : World :=
  {| cfg := cfg w; connected := b;
     lines := if b then lines w else [];
     body := if b then body w else [];
     clock := clock w; ranged_seen := ranged_seen w;
     sink_size := sink_size w; sink := sink w |}.

Definition with_clock (t : Z) (w : World) : World :=
  {| cfg := cfg w; connected := connected w; lines := lines w;
     body := body w; clock := t; ranged_seen := ranged_seen w;
     sink_size := sink_size w; sink := sink w |}.

Definition with_sink (n : Z) (l : list byte) (w : World) : World :=
  {| cfg := cfg w; connected := connected w; lines := lines w;
     body := body w; clock := clock w; ranged_seen := ranged_seen w;
     sink_size := n; sink := l |}.

Definition cr (s : string) : string :=
  (s ++ String WString.CR EmptyString)%string.

Fixpoint drop (n : nat) (s : string) : string :=
  match n, s with
  | S n', String _ r => drop n' r
  | _, _ => s
  end.

Fixpoint after_dash (s : string) : string :=
  match s with
  | EmptyString => EmptyString
  | String c r => if Ascii.eqb c "-" then r else after_dash r
  end.

(** The byte range a request text asks for. *)
Definition range_of (text : string) : option (Z * Z) :=
  let i := WString.indexOf text "Range: bytes=" in
  if i <? 0 then None
  else
    let spec := drop (Z.to_nat i + 13) text in
    Some (WString.digits_value spec 0,
          WString.digits_value (after_dash spec) 0).

Definition slice {A} (a b : Z) (l : list A) : list A :=
  firstn (Z.to_nat (b - a + 1)) (skipn (Z.to_nat a) l).

Definition total (w : World) : string :=
  WString.of_uint (Z.of_nat (List.length (image (cfg w)))).

Definition serve (text : string) (w : World) : World :=
  if String.prefix "HEAD " text then
    with_response
      ([cr "HTTP/1.1 200 OK";
        cr ("Content-Length: " ++ total w);
        cr "Content-Type: application/octet-stream"] ++
       (if accept_ranges (cfg w) then [cr "Accept-Ranges: bytes"] else []) ++
       [cr ""])%list%string
      [] (ranged_seen w) w
  else
    match range_of text with
    | Some (a, b) =>
        if Nat.ltb (ranged_seen w) (rejected_ranged (cfg w)) then
          with_response [cr "HTTP/1.1 404 Not Found"; cr ""] []
                        (S (ranged_seen w)) w
        else
          with_response
            [cr "HTTP/1.1 206 Partial Content";
             cr ("Content-Range: bytes " ++ WString.of_uint a ++ "-" ++
                 WString.of_uint b ++ "/" ++ total w);
             cr (if keep_alive (cfg w) then "Connection: keep-alive"
                 else "Connection: close");
             cr ""]%string
            (slice a b (image (cfg w))) (S (ranged_seen w)) w
    | None =>
        if String.prefix "GET /manifest" text then
          with_response
            [cr "HTTP/1.1 200 OK";
             cr ("Content-Length: " ++
                 WString.of_uint (manifest_length (cfg w)));
             cr "Content-Type: application/json";
             cr ""]%string
            (manifest_body (cfg w)) (ranged_seen w) w
        else
          with_response
            [cr "HTTP/1.1 200 OK";
             cr ("Content-Length: " ++ total w);
             cr "Content-Type: application/octet-stream";
             cr ""]%string
            (image (cfg w)) (ranged_seen w) w
    end.

Definition pending (w : World) : Z :=
  fold_right (fun l n => WString.len l + 1 + n) 0 (lines w)
  + Z.of_nat (List.length (body w)).

Definition read_line (w : World) : string * World :=
  match lines w with
  | [] => (EmptyString, w)
  | l :: rest => (l, with_response rest (body w) (ranged_seen w) w)
  end.

Definition read_bytes (n : Z) (w : World) : list byte * World :=
  (firstn (Z.to_nat n) (body w),
   with_response (lines w) (skipn (Z.to_nat n) (body w)) (ranged_seen w) w).

Definition begin (size : Z) (w : World) : bool * World :=
  if size <=? sink_space (cfg w) then (true, with_sink size [] w)
  else (false, w).

Definition write (data : list byte) (w : World) : Z * World :=
  (Z.of_nat (List.length data), with_sink (sink_size w) (sink w ++ data) w).

Definition write_stream (w : World) : Z * World :=
  (Z.of_nat (List.length (body w)),
   with_response (lines w) [] (ranged_seen w)
     (with_sink (sink_size w) (sink w ++ body w) w)).

Definition complete (w : World) : bool :=
  Z.of_nat (List.length (sink w)) =? sink_size w.

Fixpoint starts_with (payload : list byte) (buf : Buffer) : bool :=
  match payload, buf with
  | [], _ => true
  | b :: p, Some b' :: r => Byte.eqb b b' && starts_with p r
  | _, _ => false
  end.

Definition collab (c : Config) : Collab World :=
  {| client_setTimeout := fun _ w => w;
     client_connect := fun _ _ w => (true, with_connected true w);
     client_print := serve;
     client_available := fun w => (pending w, w);
     client_readStringUntil := fun _ w => read_line w;
     client_readBytes := read_bytes;
     client_flush := fun w => w;
     client_stop := with_connected false;
     client_connected := fun w => (connected w, w);
     Update_begin := begin;
     Update_setMD5 := fun _ w => w;
     Update_onProgress := fun w => w;
     Update_write := write;
     Update_writeStream := write_stream;
     Update_end := fun w => (complete w && sink_finalizes (cfg w), w);
     Update_isFinished := fun w => (complete w, w);
     millis := fun w => (clock w, with_clock (clock w + 1) w);
     delay := fun ms w => with_clock (clock w + ms) w;
     ESP_restart := fun w => w;
     xSemaphoreTake := fun w => w;
     xSemaphoreGive := fun w => w;
     connectionCheckFunction := fun w => (true, w);
     deserializeJson := fun buf =>
       if starts_with (manifest_body c) buf then manifest_doc c else None |}.

(** The generated firmware: byte [k] is [k mod 251]. *)
Fixpoint generate (n : nat) (k : N) : list byte :=
  match n with
  | O => []
  | S n' =>
      match Byte.of_N (k mod 251) with
      | Some b => b
      | None => x00
      end :: generate n' (k + 1)%N
  end.

Definition generated (n : Z) : list byte := generate (Z.to_nat n) 0%N.

Fixpoint same_bytes (a b : list byte) : bool :=
  match a, b with
  | [], [] => true
  | x :: a', y :: b' => Byte.eqb x y && same_bytes a' b'
  | _, _ => false
  end.

Definition bytes_of_string (s : string) : list byte :=
  map byte_of_ascii (list_ascii_of_string s).

Definition device : esp32FOTAGSM :=
  {| _host := "fw.example.org"; _bin := "/fw.bin"; _port := 80;
     _checksum := ""; _firwmareType := "esp32-fota"; _firwmareVersion := 3;
     checkHOST := "fw.example.org"; checkPORT := 80;
     checkRESOURCE := "/manifest.json"; useDeviceID := false;
     _networkSemaphore := true; _connectionCheckFunction := true |}.

Definition start (c : Config) : St :=
  {| self := device; world := boot c; trace := [] |}.

End Fake.

(** ** Concrete sessions against the fake *)

Module Sessions.

(** A 40,000-byte image behind a server that supports ranges. *)
Definition chunked (keep : bool) : Fake.Config :=
  {| Fake.image := Fake.generated 40000;
     Fake.accept_ranges := true;
     Fake.keep_alive := keep;
     Fake.rejected_ranged := 0;
     Fake.sink_space := 1048576;
     Fake.sink_finalizes := true;
     Fake.manifest_length := 0;
     Fake.manifest_body := [];
     Fake.manifest_doc := None |}.

(** The same server answering the first ranged GET with 404. *)
Definition rejecting : Fake.Config :=
  {| Fake.image := Fake.generated 40000;
     Fake.accept_ranges := true;
     Fake.keep_alive := true;
     Fake.rejected_ranged := 1;
     Fake.sink_space := 1048576;
     Fake.sink_finalizes := true;
     Fake.manifest_length := 0;
     Fake.manifest_body := [];
     Fake.manifest_doc := None |}.

(** The same server with a sink whose [Update.end] fails. *)
Definition corrupt : Fake.Config :=
  {| Fake.image := Fake.generated 40000;
     Fake.accept_ranges := true;
     Fake.keep_alive := true;
     Fake.rejected_ranged := 0;
     Fake.sink_space := 1048576;
     Fake.sink_finalizes := false;
     Fake.manifest_length := 0;
     Fake.manifest_body := [];
     Fake.manifest_doc := None |}.

(** A 64-byte image and a sink with room for 16 bytes. *)
Definition no_space : Fake.Config :=
  {| Fake.image := Fake.generated 64;
     Fake.accept_ranges := true;
     Fake.keep_alive := true;
     Fake.rejected_ranged := 0;
     Fake.sink_space := 16;
     Fake.sink_finalizes := true;
     Fake.manifest_length := 0;
     Fake.manifest_body := [];
     Fake.manifest_doc := None |}.

(** A 10-byte image, small enough to follow a whole chunk loop by hand. *)
Definition tiny : Fake.Config :=
  {| Fake.image := Fake.generated 10;
     Fake.accept_ranges := true;
     Fake.keep_alive := true;
     Fake.rejected_ranged := 0;
     Fake.sink_space := 1048576;
     Fake.sink_finalizes := true;
     Fake.manifest_length := 0;
     Fake.manifest_body := [];
     Fake.manifest_doc := None |}.

Definition head_request : Request :=
  {| req_method := "HEAD"; req_path := "/fw.bin";
     req_host := "fw.example.org"; req_range := None;
     req_connection := "close" |}.

Definition ranged_request (a b : Z) : Request :=
  {| req_method := "GET"; req_path := "/fw.bin";
     req_host := "fw.example.org"; req_range := Some (a, b);
     req_connection := "keep-alive" |}.

(** A manifest for an older version of the running firmware type, published
    on another host. *)
Definition older_doc : JsonDoc :=
  {| j_type := Some "esp32-fota"%string; j_version := 2;
     j_host := Some "mirror.example.net"%string;
     j_bin := Some "/old.bin"%string;
     j_checksum := Some "d41d8cd98f00b204e9800998ecf8427e"%string;
     j_port := 8080 |}.

Definition older_text : list byte :=
  Fake.bytes_of_string
    "{type:esp32-fota,version:2,host:mirror.example.net,port:8080}".

Definition older_manifest : Fake.Config :=
  {| Fake.image := [];
     Fake.accept_ranges := false;
     Fake.keep_alive := false;
     Fake.rejected_ranged := 0;
     Fake.sink_space := 0;
     Fake.sink_finalizes := false;
     Fake.manifest_length := Z.of_nat (List.length older_text);
     Fake.manifest_body := older_text;
     Fake.manifest_doc := Some older_doc |}.

(** A manifest response that declares 300 bytes. *)
Definition oversized_manifest : Fake.Config :=
  {| Fake.image := [];
     Fake.accept_ranges := false;
     Fake.keep_alive := false;
     Fake.rejected_ranged := 0;
     Fake.sink_space := 0;
     Fake.sink_finalizes := false;
     Fake.manifest_length := 300;
     Fake.manifest_body := older_text ++ repeat x20 239;
     Fake.manifest_doc := Some older_doc |}.

(** A manifest of exactly 256 bytes. *)
Definition full_text : list byte := older_text ++ repeat x20 195.

Definition full_manifest : Fake.Config :=
  {| Fake.image := [];
     Fake.accept_ranges := false;
     Fake.keep_alive := false;
     Fake.rejected_ranged := 0;
     Fake.sink_space := 0;
     Fake.sink_finalizes := false;
     Fake.manifest_length := 256;
     Fake.manifest_body := full_text;
     Fake.manifest_doc := Some older_doc |}.

(** The runs of the three entry points against a configuration. *)
Definition installed (c : Fake.Config) : Res Outcome :=
  execOTA (Fake.collab c) 16 (Fake.start c).

Definition checked (c : Fake.Config) : Res bool :=
  execHTTPcheck (Fake.collab c) 16 (Fake.start c).

Definition exchanged (c : Fake.Config) : Res (option Headers) :=
  manifest_exchange (Fake.collab c) 16 (Fake.start c).

Definition headers_of (r : Res (W:=Fake.World) (option Headers)) : Headers :=
  match r with
  | Ok (Some h) _ => h
  | _ => no_headers
  end.

End Sessions.

(** ** Observations on runs and traces *)

Definition final {W A} (r : Res (W:=W) A) : St :=
  match r with Ok _ s => s | OutOfFuel s => s end.

Definition result {W A} (r : Res (W:=W) A) : option A :=
  match r with Ok a _ => Some a | OutOfFuel _ => None end.

(** The requests printed, oldest first. *)
Fixpoint requests_rev (tr : list Event) : list Request :=
  match tr with
  | [] => []
  | EvPrint r :: older => r :: requests_rev older
  | _ :: older => requests_rev older
  end.

Definition requests (tr : list Event) : list Request := rev (requests_rev tr).

(** The hosts and ports connected to, oldest first. *)
Fixpoint connections_rev (tr : list Event) : list (string * Z) :=
  match tr with
  | [] => []
  | EvConnect h p _ :: older => (h, p) :: connections_rev older
  | _ :: older => connections_rev older
  end.

Definition connections (tr : list Event) : list (string * Z) :=
  rev (connections_rev tr).

(** The status lines read, oldest first. *)
Fixpoint status_lines_rev (tr : list Event) : list string :=
  match tr with
  | [] => []
  | EvReadLine l :: older =>
      if WString.startsWith l "HTTP/1.1"
      then WString.trim l :: status_lines_rev older
      else status_lines_rev older
  | _ :: older => status_lines_rev older
  end.

Definition status_lines (tr : list Event) : list string :=
  rev (status_lines_rev tr).

(** The bytes handed to [Update.write], and the bytes it acknowledged. *)
Fixpoint handed (tr : list Event) : Z :=
  match tr with
  | [] => 0
  | EvUpdateWrite data _ :: older => Z.of_nat (List.length data) + handed older
  | _ :: older => handed older
  end.

Fixpoint acknowledged (tr : list Event) : Z :=
  match tr with
  | [] => 0
  | EvUpdateWrite _ written :: older => written + acknowledged older
  | _ :: older => acknowledged older
  end.

(** Every ranged request starts at the byte offset that the sink had
    acknowledged when it was printed. *)
Fixpoint aligned (tr : list Event) : Prop :=
  match tr with
  | [] => True
  | EvPrint r :: older =>
      match req_range r with
      | Some (a, _) => a = acknowledged older
      | None => True
      end /\ aligned older
  | _ :: older => aligned older
  end.

(** The link guard along a trace: [Some held], or [None] once the semaphore
    was taken while it was already held. *)
Fixpoint guard (tr : list Event) : option bool :=
  match tr with
  | [] => Some false
  | e :: older =>
      match guard older with
      | None => None
      | Some held =>
          match e with
          | EvSemTake => if held then None else Some true
          | EvSemGive => Some false
          | _ => Some held
          end
      end
  end.

(** The calls made by the two inner loops. *)
Definition polling (e : Event) : bool :=
  match e with
  | EvAvailable _ | EvMillis _ | EvReadLine _ | EvStop => true
  | _ => false
  end.

(** The calls made inside the chunk loop. *)
Definition chunking (e : Event) : bool :=
  match e with
  | EvSetTimeout _ | EvUpdateBegin _ _ | EvUpdateSetMD5 _
  | EvUpdateOnProgress | EvUpdateWriteStream _ | EvUpdateEnd _
  | EvUpdateIsFinished _
  | EvRestart | EvDeserializeJson _ _ => false
  | _ => true
  end.

(** The calls made by [manifest_exchange]. *)
Definition exchanging (e : Event) : bool :=
  match e with
  | EvSetTimeout _ | EvSemTake | EvSemGive | EvConnect _ _ _ | EvPrint _ => true
  | _ => polling e
  end.

(** The trace of [s'] is the trace of [s] followed by more calls, all of them
    allowed by [p]. *)
Definition extends {W} (p : Event -> bool) (s s' : St (W:=W)) : Prop :=
  exists new,
    trace s' = (new ++ trace s)%list /\ Forall (fun e => p e = true) new.

(** [s'] is [s] after more calls, all allowed by [p], with the object
    untouched. *)
Definition grown {W} (p : Event -> bool) (s s' : St (W:=W)) : Prop :=
  self s' = self s /\ extends p s s'.

(** The read requests made on the transport, newest first. *)
Definition reads (tr : list Event) : list (Z * list byte) :=
  flat_map (fun e => match e with
                     | EvReadBytes n d => [(n, d)]
                     | _ => []
                     end) tr.

(** The manifest document the newest call parsed, if that call is a
    successful parse. *)
Definition parsed {W} (s : St (W:=W)) : option JsonDoc :=
  match hd_error (trace s) with
  | Some (EvDeserializeJson _ doc) => doc
  | _ => None
  end.

(** A caller that drops the value a computation returns. *)
Definition discard {W A} (r : Res (W:=W) A) : Res unit :=
  match r with
  | Ok _ s => Ok tt s
  | OutOfFuel s => OutOfFuel s
  end.

Definition retarget {W} (h : string) (p : Z) (b c : string) (s : St (W:=W))
  : St :=
  {| self := set_target h p b c (self s); world := world s;
     trace := trace s |}.

(** What the chunk loop relies on from its collaborators: [readBytes] stores
    at most the bytes asked for, and [Update.write] acknowledges at most the
    bytes handed to it. *)
Definition transport_contract {W} (C : Collab W) : Prop :=
  forall n w, 0 <= n ->
    Z.of_nat (List.length (fst (client_readBytes C n w))) <= n.

Definition sink_contract {W} (C : Collab W) : Prop :=
  forall data w,
    0 <= fst (Update_write C data w) <= Z.of_nat (List.length data).

(** The counters of the chunk loop in a session of [size] bytes. *)
Definition counters_ok (size : Z) (c : ChunkState) : Prop :=
  total_written_bytes c + remainig_bytes c = size /\
  chunk_first_byte c = total_written_bytes c /\
  0 <= total_written_bytes c /\
  0 <= remainig_bytes c /\
  bytes_to_read c <= DOWNLOAD_CHUNK_SIZE.

(** The iteration boundaries of the chunk loop started with the variables
    [c0] in the state [s0]: the start, and whatever one more pass through the
    body gives while bytes remain. *)
Inductive boundary {W} (C : Collab W) (inner : nat) (c0 : ChunkState)
  (s0 : St (W:=W)) : ChunkState -> St (W:=W) -> Prop :=
| boundary_first : boundary C inner c0 s0 c0 s0
| boundary_next c s c' s' :
    boundary C inner c0 s0 c s ->
    0 < remainig_bytes c ->
    chunk_iteration C inner c s = Ok c' s' ->
    boundary C inner c0 s0 c' s'.

(** A computation indexed by its loop budget that, once it completes, gives
    the same result with any larger budget. *)
Definition fuel_monotone {W A} (f : nat -> M (W:=W) A) : Prop :=
  forall n m s a s', (n <= m)%nat -> f n s = Ok a s' -> f m s = Ok a s'.

(** The weakest precondition of a computation, with a separate postcondition
    for the runs that are cut off. *)
Definition wp {W A} (m : M (W:=W) A) (Q : A -> St -> Prop) (F : St -> Prop)
  (s : St) : Prop :=
  match m s with
  | Ok a s' => Q a s'
  | OutOfFuel s' => F s'
  end.

(** ** Further observations on traces *)

(** The lines read from the transport, oldest first. *)
Fixpoint lines_rev (tr : list Event) : list string :=
  match tr with
  | [] => []
  | EvReadLine l :: older => l :: lines_rev older
  | _ :: older => lines_rev older
  end.

Definition lines_read (tr : list Event) : list string := rev (lines_rev tr).

(** What a header loop with body [on_line] makes of the lines [ls], and the
    lines it leaves unread: it ends at the first line that is blank after
    trimming or whose status is rejected. *)
Fixpoint scan {H} (on_line : string -> H -> LineResult H) (h : H)
  (ls : list string) : H * list string :=
  match ls with
  | [] => (h, [])
  | raw :: rest =>
      let line := WString.trim raw in
      if WString.len line =? 0 then (h, rest)
      else match on_line line h with
           | RejectStatus => (h, rest)
           | Next h' => scan on_line h' rest
           end
  end.

(** A status line the probe and the manifest check accept. *)
Definition accepted_status (line : string) : bool :=
  WString.startsWith line "HTTP/1.1" && (0 <=? WString.indexOf line "200").

(** The value of the line [line] when it is a header called [name], whatever
    the case of the name. *)
Definition header_named (name line : string) : option string :=
  let '(header, headerValue) := splitHeader line in
  if WString.equalsIgnoreCase header name then Some headerValue else None.

(** Among the lines [ls] there are an accepted status line, a
    [Content-Length] header whose value converts to [length] and a
    [Content-type] header whose value is [ctype]. *)
Definition declares (ctype : string) (length : Z) (ls : list string) : Prop :=
  (exists l, In l ls /\ accepted_status (WString.trim l) = true) /\
  (exists l v, In l ls /\
     header_named "Content-Length" (WString.trim l) = Some v /\
     WString.toInt v = length) /\
  (exists l, In l ls /\
     header_named "Content-type" (WString.trim l) = Some ctype).

(** Among the lines [ls] there is an accepted status line and, after it, an
    [Accept-Ranges] header with the value [bytes]. *)
Definition advertises_ranges (ls : list string) : Prop :=
  exists before status after l,
    ls = (before ++ status :: after)%list /\
    accepted_status (WString.trim status) = true /\
    In l after /\
    header_named "Accept-Ranges" (WString.trim l) = Some "bytes"%string.

(** Where the status and the range flag of the probe come from, in the order
    of the lines. *)
Definition ordered (seen : list string) (h : Headers) : Prop :=
  (gotHTTPStatus h = true ->
     exists before status after,
       seen = (before ++ status :: after)%list /\
       accepted_status (WString.trim status) = true) /\
  (Accept_Ranges_bytes h = true -> advertises_ranges seen).

(** What one header line can change, for a loop body that accepts the
    content type [ctype]. *)
Definition line_effect (ctype : string)
  (on_line : string -> Headers -> LineResult Headers) : Prop :=
  forall line h h', on_line line h = Next h' ->
    (gotHTTPStatus h' = true ->
       gotHTTPStatus h = true \/ accepted_status line = true) /\
    (gotHTTPStatus h' = false -> h' = h) /\
    (contentLength h' = contentLength h \/
     exists v, header_named "Content-Length" line = Some v /\
               WString.toInt v = contentLength h') /\
    (isValidContentType h' = true ->
       isValidContentType h = true \/
       header_named "Content-type" line = Some ctype) /\
    (Accept_Ranges_bytes h' = true ->
       Accept_Ranges_bytes h = true \/
       header_named "Accept-Ranges" line = Some "bytes"%string).

(** Where the fields of the scanned headers come from. *)
Definition provenance (ctype : string) (seen : list string) (h : Headers)
  : Prop :=
  (gotHTTPStatus h = false ->
     contentLength h = 0 /\ isValidContentType h = false) /\
  (gotHTTPStatus h = true ->
     exists l, In l seen /\ accepted_status (WString.trim l) = true) /\
  (contentLength h <> 0 ->
     exists l v, In l seen /\
       header_named "Content-Length" (WString.trim l) = Some v /\
       WString.toInt v = contentLength h) /\
  (isValidContentType h = true ->
     exists l, In l seen /\
       header_named "Content-type" (WString.trim l) = Some ctype) /\
  (Accept_Ranges_bytes h = true ->
     exists l, In l seen /\
       header_named "Accept-Ranges" (WString.trim l) = Some "bytes"%string).

(** ** The calls made on the firmware sink *)

Definition is_begin (e : Event) : bool :=
  match e with
  | EvUpdateBegin _ _ => true
  | _ => false
  end.

Definition is_sink (e : Event) : bool :=
  match e with
  | EvUpdateBegin _ _ | EvUpdateSetMD5 _ | EvUpdateOnProgress
  | EvUpdateWrite _ _ | EvUpdateWriteStream _ | EvUpdateEnd _
  | EvUpdateIsFinished _ => true
  | _ => false
  end.

(** The calls made on the sink, newest first. *)
Definition sink_calls (tr : list Event) : list Event := filter is_sink tr.

Definition is_write (e : Event) : bool :=
  match e with
  | EvUpdateWrite _ _ => true
  | _ => false
  end.

(** The order the sink is driven in by the object [o], read from the newest
    call back to the oldest: an accepted [begin], then [setMD5] exactly when
    the stored checksum is not empty, and with that checksum, then
    [onProgress] ... *)
Definition configured (o : esp32FOTAGSM) (calls : list Event) : bool :=
  match calls with
  | [EvUpdateOnProgress; EvUpdateBegin _ true] =>
      negb (0 <? WString.len (_checksum o))
  | [EvUpdateOnProgress; EvUpdateSetMD5 c; EvUpdateBegin _ true] =>
      (0 <? WString.len (_checksum o)) && String.eqb c (_checksum o)
  | _ => false
  end.

(** ... then any number of [write]s ... *)
Fixpoint written_in_chunks (o : esp32FOTAGSM) (calls : list Event) : bool :=
  match calls with
  | EvUpdateWrite _ _ :: older => written_in_chunks o older
  | _ => configured o calls
  end.

(** ... or one [writeStream] ... *)
Definition downloading (o : esp32FOTAGSM) (calls : list Event) : bool :=
  match calls with
  | EvUpdateWriteStream _ :: older => configured o older
  | _ => written_in_chunks o calls
  end.

(** ... then at most one [end], followed by [isFinished] when it answered
    [true].  A refused [begin] is the only call of its session. *)
Definition sink_protocol (o : esp32FOTAGSM) (calls : list Event) : bool :=
  match calls with
  | [] => true
  | [EvUpdateBegin _ false] => true
  | EvUpdateIsFinished _ :: EvUpdateEnd true :: older => downloading o older
  | EvUpdateEnd false :: older => downloading o older
  | _ => downloading o calls
  end.

(** ** Where the calls are aimed *)

(** The connections, requests and checksums that belong to the firmware the
    object [o] points at. *)
Definition targets (o : esp32FOTAGSM) (e : Event) : bool :=
  match e with
  | EvConnect h p _ => String.eqb h (_host o) && (p =? to_uint16 (_port o))
  | EvPrint r =>
      String.eqb (req_path r) (_bin o) && String.eqb (req_host r) (_host o)
  | EvUpdateSetMD5 c => String.eqb c (_checksum o)
  | _ => true
  end.

(** The members of the object that identify the running firmware and the
    manifest endpoint, and its two hooks. *)
Definition same_identity (o o' : esp32FOTAGSM) : Prop :=
  _firwmareType o' = _firwmareType o /\
  _firwmareVersion o' = _firwmareVersion o /\
  checkHOST o' = checkHOST o /\
  checkPORT o' = checkPORT o /\
  checkRESOURCE o' = checkRESOURCE o /\
  useDeviceID o' = useDeviceID o /\
  _networkSemaphore o' = _networkSemaphore o /\
  _connectionCheckFunction o' = _connectionCheckFunction o.

(** The request of the HEAD probe. *)
Definition probe_request (o : esp32FOTAGSM) : Request :=
  {| req_method := "HEAD"; req_path := _bin o; req_host := _host o;
     req_range := None; req_connection := "close" |}.

(** The one request of the manifest check. *)
Definition manifest_request (o : esp32FOTAGSM) : Request :=
  {| req_method := "GET"; req_path := checkRESOURCE o;
     req_host := checkHOST o; req_range := None;
     req_connection := "close" |}.

(** ** The link guard around the transport *)

(** The calls that talk over the shared link. *)
Definition is_io (e : Event) : bool :=
  match e with
  | EvConnect _ _ _ | EvPrint _ | EvAvailable _ | EvReadLine _
  | EvReadBytes _ _ | EvStop | EvConnected _ | EvUpdateWriteStream _ => true
  | _ => false
  end.

(** Every call that talks over the link was made while the guard was held. *)
Fixpoint guarded (tr : list Event) : bool :=
  match tr with
  | [] => true
  | e :: older =>
      (negb (is_io e) ||
       match guard older with Some true => true | _ => false end)
      && guarded older
  end.

(** ** The spans the chunk loop asks for *)

(** [chunk_last_byte] holds an unsigned 32-bit value. *)
Definition last_ok (c : ChunkState) : Prop :=
  0 <= chunk_last_byte c < 2 ^ 32.

(** Every ranged request asks for a non-empty span of at most
    [DOWNLOAD_CHUNK_SIZE] bytes inside an image of [size] bytes, and every
    [readBytes] asks for between one and [DOWNLOAD_CHUNK_SIZE] bytes. *)
Fixpoint within (size : Z) (tr : list Event) : Prop :=
  match tr with
  | [] => True
  | EvPrint r :: older =>
      match req_range r with
      | Some (a, b) =>
          0 <= a <= b /\ b < size /\ b - a < DOWNLOAD_CHUNK_SIZE
      | None => True
      end /\ within size older
  | EvReadBytes n _ :: older =>
      0 < n <= DOWNLOAD_CHUNK_SIZE /\ within size older
  | _ :: older => within size older
  end.

(** ** The chunk plan *)

(** Lines 276-401 on the counters: a pass in which the response set the
    close flag to [close], [readBytes] stored [readed_bytes] bytes and
    [Update.write] acknowledged [written]. *)
Definition pass (close : bool) (readed_bytes written : Z) (c : ChunkState)
  : ChunkState :=
  advance written
    (shrink_to_read readed_bytes (with_should_close close (clip_chunk c))).

(** A pass in which every byte asked for is stored and acknowledged. *)
Definition delivered (c : ChunkState) (close : bool) : ChunkState :=
  let n := bytes_to_read (clip_chunk c) in
  pass close n n c.


(** The variables at the start of pass [k] when every earlier pass was
    delivered in full. *)
Definition planned (size k : Z) (c : ChunkState) : Prop :=
  chunk_first_byte c = k * DOWNLOAD_CHUNK_SIZE /\
  chunk_last_byte c
  = to_uint (k * DOWNLOAD_CHUNK_SIZE + DOWNLOAD_CHUNK_SIZE - 1) /\
  remainig_bytes c = size - k * DOWNLOAD_CHUNK_SIZE /\
  total_written_bytes c = k * DOWNLOAD_CHUNK_SIZE.

(** ** The device identifier *)

(** Lines 711-719: [sprintf(deviceid, "%" PRIu64, chipid)] into
    [char deviceid[21]], where [chipid] is the 64-bit value that
    [ESP.getEfuseMac()] returns. *)
Definition _getDeviceID (chipid : Z) : string := WString.of_uint chipid.

(** ** A scripted server *)

Module Script.

(** What is left to read of the answer: header lines and payload. *)
Record World := {
  unread_lines : list string;
  unread_body : list byte
}.

Definition idle : World := {| unread_lines := []; unread_body := [] |}.

Definition take_line (w : World) : string * World :=
  match unread_lines w with
  | [] => (EmptyString, w)
  | l :: rest =>
      (l, {| unread_lines := rest; unread_body := unread_body w |})
  end.

(** [readBytes] stores what there is, at most what was asked for. *)
Definition take_bytes (n : Z) (w : World) : list byte * World :=
  let k := Z.to_nat (Z.min n (Z.of_nat (List.length (unread_body w)))) in
  (firstn k (unread_body w),
   {| unread_lines := unread_lines w;
      unread_body := skipn k (unread_body w) |}).

(** A server that gives the same [answer] to every request, in front of a
    sink that accepts nothing and a parser that rejects everything. *)
Definition server (answer : World) : Collab World :=
  {| client_setTimeout := fun _ w => w;
     client_connect := fun _ _ w => (true, w);
     client_print := fun _ _ => answer;
     client_available := fun w =>
       (Z.of_nat (List.length (unread_lines w)
                  + List.length (unread_body w)), w);
     client_readStringUntil := fun _ w => take_line w;
     client_readBytes := take_bytes;
     client_flush := fun w => w;
     client_stop := fun _ => idle;
     client_connected := fun w => (true, w);
     Update_begin := fun _ w => (false, w);
     Update_setMD5 := fun _ w => w;
     Update_onProgress := fun w => w;
     Update_write := fun _ w => (0, w);
     Update_writeStream := fun w => (0, w);
     Update_end := fun w => (false, w);
     Update_isFinished := fun w => (false, w);
     millis := fun w => (0, w);
     delay := fun _ w => w;
     ESP_restart := fun w => w;
     xSemaphoreTake := fun w => w;
     xSemaphoreGive := fun w => w;
     connectionCheckFunction := fun w => (true, w);
     deserializeJson := fun _ => None |}.

Definition fresh : St :=
  {| self := Fake.device; world := idle; trace := [] |}.

(** A manifest answer that declares a length of -1. *)
Definition negative_manifest : World :=
  {| unread_lines := [Fake.cr "HTTP/1.1 200 OK";
                      Fake.cr "Content-Length: -1";
                      Fake.cr "Content-Type: application/json";
                      Fake.cr ""]%string;
     unread_body := Sessions.older_text |}.

End Script.

(** A 10-byte image behind a server that does not advertise ranges. *)
Definition unranged : Fake.Config :=
  {| Fake.image := Fake.generated 10;
     Fake.accept_ranges := false;
     Fake.keep_alive := false;
     Fake.rejected_ranged := 0;
     Fake.sink_space := 1048576;
     Fake.sink_finalizes := true;
     Fake.manifest_length := 0;
     Fake.manifest_body := [];
     Fake.manifest_doc := None |}.

(** ** The body is fetched only for an accepted image *)

(** [Update.begin] has answered [true]. *)
Definition begun (tr : list Event) : bool :=
  existsb (fun e => match e with
                    | EvUpdateBegin _ true => true
                    | _ => false
                    end) tr.

(** Every GET request and every [readBytes] was made after [Update.begin]
    had answered [true]. *)
Fixpoint body_after_begin (tr : list Event) : bool :=
  match tr with
  | [] => true
  | e :: older =>
      (match e with
       | EvPrint q => negb (String.eqb (req_method q) "GET")
       | EvReadBytes _ _ => false
       | _ => true
       end || begun older) && body_after_begin older
  end.

(** * Proofs *)

(** ** The parser and the planner on small inputs *)

Example splitHeader_content_length :
  splitHeader "Content-Length: 40000" = ("Content-Length", "40000")%string.
Proof. reflexivity. Qed.

Example splitHeader_without_colon :
  splitHeader "no colon here" = ("no colon here", "no colon here")%string.
Proof. reflexivity. Qed.

Example trim_drops_carriage_return :
  WString.trim (Fake.cr "  HTTP/1.1 200 OK ") = "HTTP/1.1 200 OK"%string.
Proof. reflexivity. Qed.

Example toInt_stops_at_garbage : WString.toInt "256 bytes" = 256.
Proof. reflexivity. Qed.

Example toInt_negative : WString.toInt "-5" = -5.
Proof. reflexivity. Qed.

Example toInt_saturates : WString.toInt "4294967297" = LONG_MAX.
Proof. reflexivity. Qed.

Example probe_line_accepts_length :
  probe_line "content-length: 40000" (with_status no_headers)
  = Next (with_contentLength 40000 (with_status no_headers)).
Proof. reflexivity. Qed.

Example probe_line_rejects_404 :
  probe_line "HTTP/1.1 404 Not Found" no_headers = RejectStatus.
Proof. reflexivity. Qed.

Example chunk_line_rejects_200 :
  chunk_line "HTTP/1.1 200 OK" false = RejectStatus.
Proof. reflexivity. Qed.

Example chunk_line_notes_close :
  chunk_line "Connection: close" false = Next true.
Proof. reflexivity. Qed.

Example render_ranged_request :
  render (Sessions.ranged_request 16380 32759)
  = ("GET /fw.bin HTTP/1.1" ++ WString.CRLF ++
     "Host: fw.example.org" ++ WString.CRLF ++
     "Cache-Control: no-cache" ++ WString.CRLF ++
     "Range: bytes=16380-32759" ++ WString.CRLF ++
     "Connection: keep-alive" ++ WString.CRLF ++ WString.CRLF)%string.
Proof. reflexivity. Qed.

Example clip_chunk_last :
  chunk_last_byte
    (clip_chunk {| chunk_first_byte := 32760; chunk_last_byte := 49139;
                   remainig_bytes := 7240; total_written_bytes := 32760;
                   last_written_bytes := 16380;
                   should_close_connection := false |})
  = 39999.
Proof. reflexivity. Qed.

(** After a read of no bytes at offset 0 the span wraps around, and the next
    pass restores it to a full chunk. *)
Example clip_chunk_after_empty_read :
  let c := shrink_to_read 0 (first_chunk 40000) in
  chunk_last_byte c = 2 ^ 32 - 1 /\
  chunk_last_byte (clip_chunk c) = 16379.
Proof. split; reflexivity. Qed.

Section Logic.

Context {W : Type} (C : Collab W).

(** ** Rules for [wp] *)

Lemma wp_ret {A} (a : A) Q F (s : St (W:=W)) : Q a s -> wp (ret a) Q F s.
Proof. exact (fun H => H). Qed.

Lemma wp_bind {A B} (m : M A) (k : A -> M B) Q F (s : St (W:=W)) :
  wp m (fun a s' => wp (k a) Q F s') F s -> wp (bind m k) Q F s.
Proof. unfold wp, bind. destruct (m s); auto. Qed.

Lemma wp_mono {A} (m : M A) (Q Q' : A -> St -> Prop) (F F' : St -> Prop)
  (s : St (W:=W)) :
  wp m Q F s ->
  (forall a s', Q a s' -> Q' a s') -> (forall s', F s' -> F' s') ->
  wp m Q' F' s.
Proof. unfold wp. destruct (m s); auto. Qed.

Lemma wp_call {A} (f : W -> A * W) ev Q F (s : St) :
  (forall a w, f (world s) = (a, w) ->
     Q a {| self := self s; world := w; trace := ev a :: trace s |}) ->
  wp (call f ev) Q F s.
Proof. unfold wp, call. destruct (f (world s)); auto. Qed.

Lemma wp_exec (f : W -> W) ev Q F (s : St) :
  Q tt {| self := self s; world := f (world s); trace := ev :: trace s |} ->
  wp (exec f ev) Q F s.
Proof. exact (fun H => H). Qed.

Lemma wp_pure_call {A} (a : A) ev Q F (s : St (W:=W)) :
  Q a {| self := self s; world := world s; trace := ev a :: trace s |} ->
  wp (pure_call a ev) Q F s.
Proof. exact (fun H => H). Qed.

Lemma wp_this Q F (s : St (W:=W)) : Q (self s) s -> wp this Q F s.
Proof. exact (fun H => H). Qed.

Lemma wp_assign f Q F (s : St (W:=W)) :
  Q tt {| self := f (self s); world := world s; trace := trace s |} ->
  wp (assign f) Q F s.
Proof. exact (fun H => H). Qed.

Lemma wp_out_of_fuel {A} Q F (s : St (W:=W)) :
  F s -> wp (@out_of_fuel W A) Q F s.
Proof. exact (fun H => H). Qed.

Lemma wp_ok {A} (m : M A) Q F (s : St (W:=W)) a s' :
  wp m Q F s -> m s = Ok a s' -> Q a s'.
Proof. unfold wp. intros H E. now rewrite E in H. Qed.

(** ** Growing traces *)

Lemma extends_refl p (s : St (W:=W)) : extends p s s.
Proof. exists []; split; [reflexivity | constructor]. Qed.

Lemma extends_base p (s : St (W:=W)) o w :
  extends p s {| self := o; world := w; trace := trace s |}.
Proof. exists []; split; [reflexivity | constructor]. Qed.

Lemma extends_cons p (s : St (W:=W)) o w e tr :
  p e = true ->
  extends p s {| self := o; world := w; trace := tr |} ->
  extends p s {| self := o; world := w; trace := e :: tr |}.
Proof.
  intros He (new & Ht & Hn). cbn in Ht. subst tr.
  exists (e :: new). split; [reflexivity | now constructor].
Qed.

Lemma extends_app p q (s : St (W:=W)) o w new tr :
  Forall (fun e => q e = true) new ->
  (forall e, q e = true -> p e = true) ->
  extends p s {| self := o; world := w; trace := tr |} ->
  extends p s {| self := o; world := w; trace := new ++ tr |}.
Proof.
  intros Hq Hqp (old & Ht & Hn). cbn in Ht. subst tr.
  exists (new ++ old)%list. split; [apply app_assoc |].
  apply Forall_app. split; [| assumption].
  eapply Forall_impl; [| eassumption]. auto.
Qed.

Lemma extends_trans p (s s' s'' : St (W:=W)) :
  extends p s s' -> extends p s' s'' -> extends p s s''.
Proof.
  intros (n1 & H1 & F1) (n2 & H2 & F2).
  exists (n2 ++ n1)%list. split.
  - now rewrite H2, H1, app_assoc.
  - now apply Forall_app.
Qed.

Lemma grown_refl p (s : St (W:=W)) : grown p s s.
Proof. split; [reflexivity | apply extends_refl]. Qed.

Lemma grown_trans p (s s' s'' : St (W:=W)) :
  grown p s s' -> grown p s' s'' -> grown p s s''.
Proof.
  intros [E1 X1] [E2 X2]. split; [congruence | eapply extends_trans; eauto].
Qed.

Lemma allowed_in p (new : list Event) e :
  Forall (fun e => p e = true) new -> In e new -> p e = true.
Proof. intros Hn Hin. rewrite Forall_forall in Hn. auto. Qed.

Ltac incl :=
  let e := fresh "e" in
  intros e; destruct e; cbn; intros; first [reflexivity | discriminate].

Ltac extends_now :=
  repeat first [ apply extends_refl
               | apply extends_base
               | apply extends_cons; [reflexivity |]
               | eapply extends_app; [eassumption | incl |] ].

Ltac grown_now := split; [reflexivity | extends_now].

(** Replace the state a loop ended in by the state it started from, extended
    with the calls the loop made. *)
Ltac absorb :=
  cbv beta in *;
  match goal with
  | H : grown _ _ ?s' |- _ =>
      let o := fresh "o" in
      let w := fresh "w" in
      let tr := fresh "tr" in
      destruct s' as [o w tr]; destruct H as (? & ? & ? & ?);
      cbn [self world trace] in *; subst
  end.

(** ** The inner loops *)

Lemma wait_available_polling fuel timeout s :
  wp (wait_available C fuel timeout)
     (fun _ s' => grown polling s s') (grown polling s) s.
Proof.
  revert s. induction fuel as [| fuel IH]; intros s; cbn [wait_available].
  - apply wp_out_of_fuel, grown_refl.
  - apply wp_bind, wp_call. intros n w _.
    destruct (n =? 0).
    + apply wp_bind, wp_call. intros now w' _. cbn [self world trace].
      destruct (_ >? _).
      * apply wp_ret. grown_now.
      * eapply wp_mono; [apply IH | |]; cbv beta; intros;
          (eapply grown_trans; [| eassumption]); grown_now.
    + apply wp_ret. grown_now.
Qed.

Lemma read_headers_polling {H} (on_line : string -> H -> LineResult H)
  fuel h s :
  wp (read_headers C on_line fuel h)
     (fun _ s' => grown polling s s') (grown polling s) s.
Proof.
  revert h s. induction fuel as [| fuel IH]; intros h s; cbn [read_headers].
  - apply wp_out_of_fuel, grown_refl.
  - apply wp_bind, wp_call. intros n w _.
    destruct (n =? 0).
    + apply wp_ret. grown_now.
    + apply wp_bind, wp_call. intros raw w' _. cbn [self world trace].
      destruct (_ =? 0).
      * apply wp_ret. grown_now.
      * destruct (on_line _ h) as [| h'].
        -- apply wp_bind, wp_exec, wp_ret. grown_now.
        -- eapply wp_mono; [apply IH | |]; cbv beta; intros;
             (eapply grown_trans; [| eassumption]); grown_now.
Qed.

(** One step of symbolic execution. *)
Ltac wp_step_with on_call :=
  cbn [self world trace];
  lazymatch goal with
  | |- wp (bind _ _) _ _ _ => apply wp_bind
  | |- wp (ret _) _ _ _ => apply wp_ret; cbn [self world trace]
  | |- wp (call _ _) _ _ _ => apply wp_call; on_call
  | |- wp (exec _ _) _ _ _ => apply wp_exec
  | |- wp (pure_call _ _) _ _ _ => apply wp_pure_call
  | |- wp this _ _ _ => apply wp_this
  | |- wp (assign _) _ _ _ => apply wp_assign
  | |- wp out_of_fuel _ _ _ => apply wp_out_of_fuel; cbn [self world trace]
  | |- wp (_blockingNetworkSemaphoreTake _) _ _ _ =>
      unfold _blockingNetworkSemaphoreTake
  | |- wp (_blockingNetworkSemaphoreGive _) _ _ _ =>
      unfold _blockingNetworkSemaphoreGive
  | |- wp (_checkConnection _) _ _ _ => unfold _checkConnection
  | |- wp (client_print_request _ _) _ _ _ => unfold client_print_request
  | |- wp (wait_available _ _ _) _ _ _ =>
      eapply wp_mono;
      [apply wait_available_polling | intros ? ? ? | intros ? ?]; absorb
  | |- wp (read_headers _ _ _ _) _ _ _ =>
      eapply wp_mono;
      [apply read_headers_polling | intros ? ? ? | intros ? ?]; absorb
  | |- wp (if ?b then _ else _) _ _ _ =>
      let b' := eval cbn [self world trace set_port set_host set_bin
                          set_checksum set_target _networkSemaphore
                          _connectionCheckFunction _firwmareType
                          _firwmareVersion] in b in
      change b with b'; destruct b' eqn:?; try congruence
  | |- wp (match ?x with _ => _ end) _ _ _ => destruct x eqn:?
  end.

Ltac wp_step := wp_step_with ltac:(intros ? ? _).

(** The same, keeping the equation of every collaborator call. *)
Ltac wp_step_eq := wp_step_with ltac:(intros ? ? ?).

(** Split a membership in an explicit trace into its cases. *)
Ltac in_cases H :=
  lazymatch type of H with
  | In _ (_ :: _) => destruct H as [H | H]; [| in_cases H]
  | In _ (_ ++ _) => apply in_app_or in H; destruct H as [H | H]; [| in_cases H]
  | In _ [] => destruct H
  | _ => idtac
  end.

(** Close a case in which an event would have been made by a loop that does
    not make it. *)
Ltac not_made H :=
  lazymatch type of H with
  | In ?e ?x =>
      match goal with
      | F : Forall _ x |- _ =>
          let X := fresh in
          pose proof (allowed_in _ _ _ F H) as X; cbn in X; discriminate X
      end
  | _ = _ => discriminate H
  end.

(** ** The manifest check *)

Lemma manifest_exchange_events fuel s :
  wp (manifest_exchange C fuel)
     (fun _ s' => self s' = set_port 80 (self s) /\ extends exchanging s s')
     (fun s' => self s' = set_port 80 (self s) /\ extends exchanging s s') s.
Proof.
  unfold manifest_exchange.
  repeat wp_step; (split; [reflexivity | extends_now]).
Qed.

Lemma reads_exchanging new :
  Forall (fun e => exchanging e = true) new -> reads new = [].
Proof.
  unfold reads. induction 1 as [| e l He _ IH]; [reflexivity |].
  cbn [flat_map]. rewrite IH. destruct e; try discriminate; reflexivity.
Qed.

Lemma store_bytes_full cap data :
  List.length data = cap -> store_bytes cap data = map Some data.
Proof.
  intros H. unfold store_bytes. subst cap.
  rewrite firstn_all, Nat.sub_diag. apply app_nil_r.
Qed.

(** Every way [execHTTPcheck] can end: with a parsed manifest as its newest
    call, the target overwritten and the comparison as result; or without,
    the port reset and [false]. *)
Lemma execHTTPcheck_paths fuel s :
  wp (execHTTPcheck C fuel)
     (fun r s' =>
        match parsed s' with
        | Some doc =>
            self s' = set_target (WString.of_cstr (j_host doc)) (j_port doc)
                        (WString.of_cstr (j_bin doc))
                        (WString.of_cstr (j_checksum doc)) (self s) /\
            r = String.eqb (WString.of_cstr (j_type doc))
                           (_firwmareType (self s)) &&
                (j_version doc >? _firwmareVersion (self s))
        | None => self s' = set_port 80 (self s) /\ r = false
        end)
     (fun _ => True) s.
Proof.
  unfold execHTTPcheck, manifest_exchange, manifest_payload.
  repeat wp_step; unfold parsed; cbn [hd_error trace self]; auto;
    (split; [reflexivity |]);
    repeat match goal with
           | H : _ = true |- _ => rewrite H
           | H : _ = false |- _ => rewrite H
           end; reflexivity.
Qed.

Lemma forceUpdate_runs_execOTA h p b c fuel s :
  forceUpdate C h p b c fuel s = discard (execOTA C fuel (retarget h p b c s)).
Proof.
  unfold forceUpdate, bind, assign, ret, discard, retarget.
  cbn [self world trace].
  change (set_checksum c (set_port p (set_bin b (set_host h (self s)))))
    with (set_target h p b c (self s)).
  destruct (execOTA C fuel _); reflexivity.
Qed.

(** C6: when the manifest was parsed, [execHTTPcheck] returns [true] exactly
    if its type equals the running firmware type and its version is strictly
    greater than the running version; when none was parsed it returns
    [false].  [forceUpdate] makes no comparison: it stores its arguments as
    the target and runs [execOTA], whatever the running type and version. *)
Theorem check_compares_type_and_version fuel s r s' :
  execHTTPcheck C fuel s = Ok r s' ->
  (forall doc, parsed s' = Some doc ->
     (r = true <->
      WString.of_cstr (j_type doc) = _firwmareType (self s) /\
      _firwmareVersion (self s) < j_version doc)) /\
  (parsed s' = None -> r = false) /\
  (forall h p b c fuel',
     forceUpdate C h p b c fuel' s
     = discard (execOTA C fuel' (retarget h p b c s))).
Proof.
  intros Hrun.
  pose proof (wp_ok _ _ _ _ _ _ (execHTTPcheck_paths fuel s) Hrun) as H.
  cbv beta in H. split; [| split].
  - intros doc Hdoc. rewrite Hdoc in H. destruct H as [_ ->].
    rewrite andb_true_iff, String.eqb_eq, Z.gtb_lt. reflexivity.
  - intros Hp. rewrite Hp in H. tauto.
  - intros. apply forceUpdate_runs_execOTA.
Qed.

Lemma execHTTPcheck_parses fuel s :
  trace s = [] ->
  wp (execHTTPcheck C fuel)
     (fun r s' =>
        (forall buf doc,
           In (EvDeserializeJson buf (Some doc)) (trace s') ->
           self s' = set_target (WString.of_cstr (j_host doc)) (j_port doc)
                       (WString.of_cstr (j_bin doc))
                       (WString.of_cstr (j_checksum doc)) (self s)) /\
        ((forall buf doc,
            ~ In (EvDeserializeJson buf (Some doc)) (trace s')) ->
         self s' = set_port 80 (self s) /\ r = false))
     (fun _ => True) s.
Proof.
  intros Hs. unfold execHTTPcheck, manifest_exchange, manifest_payload.
  repeat wp_step; try exact I; rewrite Hs.
  all: split;
    [ intros buf doc Hin; in_cases Hin; try not_made Hin;
      injection Hin as _ <-; reflexivity
    | intros Hno;
      first [ split; reflexivity
            | exfalso; eapply Hno; left; reflexivity ] ].
Qed.

(** C9: [execHTTPcheck] has set the port to 80 by the time the response
    headers are read, before any comparison.  In a call that starts a
    session, every manifest the parser accepts is stored: when the call
    ends, the host, path, port and checksum of the object are those of the
    parsed document, whatever the call returns, also [false]; a call in
    which the parser accepted nothing returns [false] and leaves the port
    at 80 and the host, path and checksum as they were.  The same holds of
    the newest call of any completed run. *)
Theorem check_overwrites_target fuel s r s' :
  execHTTPcheck C fuel s = Ok r s' ->
  (forall h s1, manifest_exchange C fuel s = Ok h s1 ->
                _port (self s1) = 80) /\
  (trace s = [] ->
   (forall buf doc,
      In (EvDeserializeJson buf (Some doc)) (trace s') ->
      _host (self s') = WString.of_cstr (j_host doc) /\
      _bin (self s') = WString.of_cstr (j_bin doc) /\
      _port (self s') = j_port doc /\
      _checksum (self s') = WString.of_cstr (j_checksum doc)) /\
   ((forall buf doc,
       ~ In (EvDeserializeJson buf (Some doc)) (trace s')) ->
    r = false /\
    _port (self s') = 80 /\
    _host (self s') = _host (self s) /\
    _bin (self s') = _bin (self s) /\
    _checksum (self s') = _checksum (self s))) /\
  match parsed s' with
  | Some doc =>
      _host (self s') = WString.of_cstr (j_host doc) /\
      _bin (self s') = WString.of_cstr (j_bin doc) /\
      _port (self s') = j_port doc /\
      _checksum (self s') = WString.of_cstr (j_checksum doc)
  | None =>
      r = false /\
      _port (self s') = 80 /\
      _host (self s') = _host (self s) /\
      _bin (self s') = _bin (self s) /\
      _checksum (self s') = _checksum (self s)
  end.
Proof.
  intros Hrun. split; [| split].
  - intros h s1 Hx.
    pose proof (wp_ok _ _ _ _ _ _ (manifest_exchange_events fuel s) Hx)
      as [-> _].
    reflexivity.
  - intros Hs.
    destruct (wp_ok _ _ _ _ _ _ (execHTTPcheck_parses fuel s Hs) Hrun)
      as [Hsome Hnone].
    split.
    + intros buf doc Hin. rewrite (Hsome buf doc Hin). cbn. auto.
    + intros Hno. destruct (Hnone Hno) as [-> ->]. cbn. auto.
  - pose proof (wp_ok _ _ _ _ _ _ (execHTTPcheck_paths fuel s) Hrun) as H.
    cbv beta in H. destruct (parsed s'); destruct H as [-> H]; cbn; auto.
Qed.

(** C8: when the headers of the manifest response declare a Content-Length
    above 256, [execHTTPcheck] returns [false] and [readBytes] is never
    called. *)
Theorem oversized_manifest_not_read fuel s h s1 :
  trace s = [] ->
  manifest_exchange C fuel s = Ok (Some h) s1 ->
  256 < contentLength h ->
  exists s2,
    execHTTPcheck C fuel s = Ok false s2 /\
    forall n d, ~ In (EvReadBytes n d) (trace s2).
Proof.
  intros Hs Hx Hlen.
  pose proof (wp_ok _ _ _ _ _ _ (manifest_exchange_events fuel s) Hx)
    as (Hself & new & Ht & Hnew).
  rewrite Hs, app_nil_r in Ht.
  unfold execHTTPcheck, bind at 1. rewrite Hx. unfold manifest_payload.
  destruct (Z.gtb_spec (contentLength h) 256) as [_ | Hsmall]; [| lia].
  unfold bind, exec, _blockingNetworkSemaphoreGive, bind, this, exec, ret.
  cbn [self world trace].
  destruct (_networkSemaphore (self s1)); eexists; (split; [reflexivity |]);
    cbn [trace]; rewrite Ht; intros n d Hin; in_cases Hin; not_made Hin.
Qed.

(** C10: when the headers declare a Content-Length [n] with [1 <= n <= 256]
    and the manifest content type, [execHTTPcheck] calls [readBytes] once,
    for exactly [n] bytes, which is at most the 256 cells of [JSONMessage];
    the array goes to the parser as it is, and when [n = 256] bytes arrive
    every cell holds a payload byte: none is left for a terminator. *)
Theorem manifest_read_fills_buffer fuel s h s1 :
  trace s = [] ->
  manifest_exchange C fuel s = Ok (Some h) s1 ->
  1 <= contentLength h <= 256 ->
  isValidContentType h = true ->
  let n := contentLength h in
  let data := fst (client_readBytes C n (world s1)) in
  let JSONMessage := store_bytes JSON_BUFFER_SIZE data in
  exists r s2,
    execHTTPcheck C fuel s = Ok r s2 /\
    reads (trace s2) = [(n, data)] /\
    n <= Z.of_nat JSON_BUFFER_SIZE /\
    In (EvDeserializeJson JSONMessage (deserializeJson C JSONMessage))
       (trace s2) /\
    (n = 256 -> List.length data = Z.to_nat n ->
     JSONMessage = map Some data).
Proof.
  intros Hs Hx Hlen Hvalid n data JSONMessage.
  pose proof (wp_ok _ _ _ _ _ _ (manifest_exchange_events fuel s) Hx)
    as (Hself & new & Ht & Hnew).
  rewrite Hs, app_nil_r in Ht.
  assert (Hn : to_uint n = n).
  { unfold to_uint. apply Z.mod_small. subst n. lia. }
  unfold execHTTPcheck, bind at 1. rewrite Hx. unfold manifest_payload.
  destruct (Z.gtb_spec (contentLength h) 256) as [Hbig | _]; [lia |].
  destruct (Z.eqb_spec (contentLength h) 0) as [Hzero | _]; [lia |].
  rewrite Hvalid. cbn [negb andb]. fold n. rewrite Hn.
  unfold bind at 1, call at 1. fold n.
  destruct (client_readBytes C n (world s1)) as [d w] eqn:Hread.
  cbn [fst] in data. subst data. fold JSONMessage.
  unfold bind, exec, pure_call, assign, _blockingNetworkSemaphoreGive,
    bind, this, exec, ret.
  cbn [self world trace].
  assert (Hfull : n = 256 -> List.length d = Z.to_nat n ->
                  JSONMessage = map Some d).
  { intros E L. apply store_bytes_full. rewrite L, E. reflexivity. }
  destruct (_networkSemaphore (self s1));
    destruct (deserializeJson C JSONMessage) eqn:Hdoc;
    cbn [self world trace];
    repeat match goal with
           | |- context [if ?b then _ else _] => destruct b
           end;
    do 2 eexists; (split; [reflexivity |]); cbn [trace];
    rewrite Ht; cbn [reads flat_map app]; rewrite ?Hdoc;
    (split; [fold (reads new); now rewrite reads_exchanging |]);
    (split; [unfold JSON_BUFFER_SIZE; subst n; lia |]);
    (split; [cbn; tauto | exact Hfull]).
Qed.

(** ** The download engine *)

Lemma chunk_iteration_chunking inner c s :
  wp (chunk_iteration C inner c)
     (fun _ s' => grown chunking s s') (grown chunking s) s.
Proof.
  unfold chunk_iteration. repeat wp_step; grown_now.
Qed.

Lemma chunk_loop_chunking inner fuel c s :
  wp (chunk_loop C inner fuel c)
     (fun _ s' => grown chunking s s') (grown chunking s) s.
Proof.
  revert c s. induction fuel as [| fuel IH]; intros c s; cbn [chunk_loop].
  - apply wp_out_of_fuel, grown_refl.
  - destruct (remainig_bytes c >? 0).
    + apply wp_bind.
      eapply wp_mono; [apply chunk_iteration_chunking | | auto].
      cbv beta. intros c' s' H1.
      eapply wp_mono; [apply IH | |]; cbv beta; intros;
        eauto using grown_trans.
    + apply wp_ret, grown_refl.
Qed.

Ltac wp_loop L :=
  cbn [self world trace];
  lazymatch goal with
  | |- wp (chunk_loop _ _ _ _) _ _ _ =>
      eapply wp_mono; [apply L | intros ? ? ? | intros ? ?]; absorb
  end.

Ltac wp_all := repeat first [wp_step | wp_loop chunk_loop_chunking].

Lemma execOTA_refusal fuel s :
  trace s = [] ->
  wp (execOTA C fuel)
     (fun o s' =>
        forall size, In (EvUpdateBegin size false) (trace s') ->
          o = Returned false /\
          (exists older,
              trace s' = EvFlush :: EvUpdateBegin size false :: older) /\
          (forall q, In (EvPrint q) (trace s') ->
                     req_method q = "HEAD"%string))
     (fun s' => forall size, ~ In (EvUpdateBegin size false) (trace s')) s.
Proof.
  intros Hs. unfold execOTA, probe, install, whole_file, finish.
  wp_all; rewrite Hs; intros size Hin; in_cases Hin; try not_made Hin.
  all: injection Hin as <-.
  all: split; [reflexivity | split; [eexists; reflexivity |]].
  all: intros q Hq; in_cases Hq; try not_made Hq.
  all: injection Hq as <-; reflexivity.
Qed.

(** C7: in every execution of [execOTA] in which [Update.begin] answers
    [false], the function returns [false], the only call after the refusal is
    [flush], and the only request ever printed is the HEAD probe: no GET for
    the firmware body. *)
Theorem refused_begin_no_body_request fuel s size :
  trace s = [] ->
  In (EvUpdateBegin size false) (trace (final (execOTA C fuel s))) ->
  result (execOTA C fuel s) = Some (Returned false) /\
  (exists older,
      trace (final (execOTA C fuel s))
      = EvFlush :: EvUpdateBegin size false :: older) /\
  (forall q, In (EvPrint q) (trace (final (execOTA C fuel s))) ->
             req_method q = "HEAD"%string).
Proof.
  intros Hs Hin. pose proof (execOTA_refusal fuel s Hs) as H.
  unfold wp in H. destruct (execOTA C fuel s) as [o s' | s']; cbn in *.
  - destruct (H size Hin) as (-> & ? & ?). auto.
  - destruct (H size Hin).
Qed.

Lemma execOTA_no_value fuel s :
  trace s = [] ->
  wp (execOTA C fuel)
     (fun o s' =>
        (o = NoReturnValue <->
         In (EvUpdateEnd false) (trace s') \/
         In (EvUpdateIsFinished false) (trace s')) /\
        (forall b, o = Returned b ->
           b = false /\ forall ok, ~ In (EvUpdateEnd ok) (trace s')))
     (fun _ => True) s.
Proof.
  intros Hs. unfold execOTA, probe, install, whole_file, finish.
  wp_all; try exact I; rewrite Hs.
  all: split;
    [ split;
      [ intros E;
        first [ discriminate E
              | left; solve [cbn [In]; repeat first [left; reflexivity | right]]
              | right;
                solve [cbn [In]; repeat first [left; reflexivity | right]] ]
      | intros [Hin | Hin]; in_cases Hin; try not_made Hin; reflexivity ]
    | intros b E;
      first [ discriminate E
            | injection E as <-;
              split; [reflexivity |];
              intros ok Hin; in_cases Hin; not_made Hin ] ].
Qed.

(** C4: [execOTA], declared [bool], returns no defined value on the paths
    the claim names.  Every [return] statement it has returns [false] and is
    taken before [Update.end] is called; a call that completes after
    [Update.end] answered [false], or after [Update.isFinished] answered
    [false], reaches the closing brace of the function and returns no value,
    and these are the only calls that do.  [forceUpdate], declared [void],
    runs [execOTA] on the target it is given and drops whatever that call
    gives. *)
Theorem execOTA_returns_no_value_after_end fuel s o s' :
  trace s = [] ->
  execOTA C fuel s = Ok o s' ->
  (o = NoReturnValue <->
   In (EvUpdateEnd false) (trace s') \/
   In (EvUpdateIsFinished false) (trace s')) /\
  (forall b, o = Returned b ->
     b = false /\ forall ok, ~ In (EvUpdateEnd ok) (trace s')) /\
  (forall h p b c,
     forceUpdate C h p b c fuel s
     = discard (execOTA C fuel (retarget h p b c s))).
Proof.
  intros Hs Hrun.
  destruct (wp_ok _ _ _ _ _ _ (execOTA_no_value fuel s Hs) Hrun) as [H1 H2].
  split; [exact H1 |]. split; [exact H2 |].
  intros. apply forceUpdate_runs_execOTA.
Qed.

(** ** The link guard *)

Lemma guard_polling x tr :
  Forall (fun e => polling e = true) x -> guard (x ++ tr) = guard tr.
Proof.
  induction 1 as [| e x He _ IH]; [reflexivity |].
  cbn [app guard]. rewrite IH.
  destruct (guard tr); [| reflexivity].
  destruct e; try discriminate; reflexivity.
Qed.

Ltac guard_now :=
  repeat first
    [ progress cbn [guard self world trace]
    | rewrite guard_polling by eassumption
    | match goal with H : guard _ = _ |- _ => rewrite H end ];
  first [reflexivity | discriminate].

Lemma chunk_iteration_guard inner c s :
  guard (trace s) = Some false ->
  wp (chunk_iteration C inner c)
     (fun _ s' => self s' = self s /\ guard (trace s') = Some false)
     (fun s' => guard (trace s') <> None) s.
Proof.
  intros Hg. unfold chunk_iteration.
  repeat wp_step; try (split; [reflexivity |]); guard_now.
Qed.

Lemma chunk_loop_guard inner fuel c s :
  guard (trace s) = Some false ->
  wp (chunk_loop C inner fuel c)
     (fun _ s' => self s' = self s /\ guard (trace s') = Some false)
     (fun s' => guard (trace s') <> None) s.
Proof.
  revert c s. induction fuel as [| fuel IH]; intros c s Hg; cbn [chunk_loop].
  - apply wp_out_of_fuel. rewrite Hg. discriminate.
  - destruct (remainig_bytes c >? 0).
    + apply wp_bind.
      eapply wp_mono; [apply chunk_iteration_guard, Hg | | auto].
      cbv beta. intros c' s' [Hself Hg'].
      eapply wp_mono; [apply IH, Hg' | | auto].
      cbv beta. intros ? ? [? ?]. split; congruence.
    + apply wp_ret. auto.
Qed.

Ltac wp_guard_loop :=
  cbn [self world trace];
  lazymatch goal with
  | |- wp (chunk_loop _ _ _ _) _ _ _ =>
      eapply wp_mono;
      [ apply chunk_loop_guard; guard_now
      | let s' := fresh "s" in
        let H := fresh in
        let o := fresh "o" in
        let w := fresh "w" in
        let tr := fresh "tr" in
        intros ? s' H; cbv beta in H; destruct s' as [o w tr];
        destruct H as [? ?]; cbn [self world trace] in *; subst
      | auto ]
  end.

Lemma execOTA_guard fuel s :
  guard (trace s) = Some false ->
  wp (execOTA C fuel)
     (fun _ s' => guard (trace s') = Some false)
     (fun s' => guard (trace s') <> None) s.
Proof.
  intros Hg. unfold execOTA, probe, install, whole_file, finish.
  repeat first [wp_step | wp_guard_loop]; guard_now.
Qed.

Lemma execHTTPcheck_guard fuel s :
  guard (trace s) = Some false ->
  wp (execHTTPcheck C fuel)
     (fun _ s' => guard (trace s') = Some false)
     (fun s' => guard (trace s') <> None) s.
Proof.
  intros Hg. unfold execHTTPcheck, manifest_exchange, manifest_payload.
  repeat wp_step; guard_now.
Qed.

(** C5: along every execution of [execOTA] and of [execHTTPcheck] that starts
    with the link guard free, the semaphore is never taken while it is held,
    and when the function ends, on whatever path, the guard is free again.  An
    execution cut off inside a loop has not taken it twice either. *)
Theorem guard_released_on_every_exit fuel s :
  guard (trace s) = Some false ->
  match execOTA C fuel s with
  | Ok _ s' => guard (trace s') = Some false
  | OutOfFuel s' => guard (trace s') <> None
  end /\
  match execHTTPcheck C fuel s with
  | Ok _ s' => guard (trace s') = Some false
  | OutOfFuel s' => guard (trace s') <> None
  end.
Proof.
  intros Hg. split.
  - apply (execOTA_guard fuel s Hg).
  - apply (execHTTPcheck_guard fuel s Hg).
Qed.

(** ** The counters of the chunk loop *)

Ltac uint_arith :=
  unfold to_uint, DOWNLOAD_CHUNK_SIZE in *;
  change (2 ^ 32) with 4294967296 in *;
  Z.div_mod_to_equations; lia.

Lemma first_chunk_ok contentLength :
  counters_ok (to_uint contentLength) (first_chunk contentLength).
Proof.
  unfold counters_ok, first_chunk, bytes_to_read; cbn.
  repeat split; try lia.
  - apply Z.mod_pos_bound. lia.
  - uint_arith.
Qed.

Lemma clip_chunk_ok size c :
  size < 2 ^ 32 -> counters_ok size c -> 0 < remainig_bytes c ->
  counters_ok size (clip_chunk c) /\
  1 <= bytes_to_read (clip_chunk c) <= remainig_bytes c /\
  chunk_first_byte (clip_chunk c) = chunk_first_byte c /\
  total_written_bytes (clip_chunk c) = total_written_bytes c.
Proof.
  destruct c as [f l r t lw cl].
  unfold counters_ok, clip_chunk, bytes_to_read, with_last_byte; cbn.
  intros Hsize (Hsum & Hf & Ht & Hr & Hspan) Hpos.
  destruct (Z.ltb_spec r DOWNLOAD_CHUNK_SIZE); cbn;
    match goal with
    | |- context [?a >? ?b] => destruct (Z.gtb_spec a b)
    end; cbn; repeat split; try lia; uint_arith.
Qed.

Lemma advance_ok size c close r w :
  size < 2 ^ 32 -> counters_ok size c -> 0 < remainig_bytes c ->
  0 <= r <= bytes_to_read (with_should_close close (clip_chunk c)) ->
  0 <= w <= r ->
  counters_ok size
    (advance w (shrink_to_read r (with_should_close close (clip_chunk c)))) /\
  total_written_bytes
    (advance w (shrink_to_read r (with_should_close close (clip_chunk c))))
  = total_written_bytes c + w /\
  chunk_first_byte
    (advance w (shrink_to_read r (with_should_close close (clip_chunk c))))
  = chunk_first_byte c + w.
Proof.
  intros Hsize Hok Hpos Hr Hw.
  destruct (clip_chunk_ok size c Hsize Hok Hpos)
    as ((Hsum & Hf & Ht & Hrem & Hspan) & Hread & Hf' & Ht').
  destruct Hok as (Hsum0 & Hf0 & Ht0 & Hrem0 & _).
  revert Hr Hsum Hf Ht Hrem Hspan Hread Hf' Ht'.
  generalize (clip_chunk c). intros [f l rm t lw cl].
  unfold counters_ok, advance, shrink_to_read, bytes_to_read,
    with_should_close, with_last_byte; cbn.
  intros. destruct (Z.eqb_spec r (to_uint (l - f + 1))); cbn;
    repeat split; try lia; uint_arith.
Qed.

Lemma acknowledged_polling x tr :
  Forall (fun e => polling e = true) x ->
  acknowledged (x ++ tr) = acknowledged tr.
Proof.
  induction 1 as [| e x He _ IH]; [reflexivity |].
  cbn [app acknowledged]. rewrite IH.
  destruct e; try discriminate; reflexivity.
Qed.

Lemma aligned_polling x tr :
  Forall (fun e => polling e = true) x -> aligned (x ++ tr) = aligned tr.
Proof.
  induction 1 as [| e x He _ IH]; [reflexivity |].
  cbn [app]. destruct e; try discriminate; cbn [aligned]; exact IH.
Qed.

Ltac trace_now :=
  repeat first
    [ progress cbn [acknowledged aligned self world trace req_range]
    | rewrite acknowledged_polling by eassumption
    | rewrite aligned_polling by eassumption ].

Section Contracts.

Hypothesis transport_ok : transport_contract C.
Hypothesis sink_ok : sink_contract C.

Lemma chunk_iteration_counters inner size c s :
  size < 2 ^ 32 -> counters_ok size c -> 0 < remainig_bytes c ->
  total_written_bytes c = acknowledged (trace s) -> aligned (trace s) ->
  wp (chunk_iteration C inner c)
     (fun c' s' =>
        counters_ok size c' /\
        total_written_bytes c' = acknowledged (trace s') /\
        aligned (trace s') /\
        total_written_bytes c <= total_written_bytes c' /\
        chunk_first_byte c' - chunk_first_byte c
        = acknowledged (trace s') - acknowledged (trace s))
     (fun _ => True) s.
Proof.
  intros Hsize Hok Hpos Hack Hal.
  destruct (clip_chunk_ok size c Hsize Hok Hpos) as (Hclip & Hspan & Hf & Ht).
  pose proof Hok as (_ & Hfirst & _).
  unfold chunk_iteration.
  repeat wp_step_eq; trivial; trace_now;
    try match goal with
        | R : client_readBytes C ?n ?w0 = (?d, _),
          U : Update_write C ?d ?w1 = (?a, _) |- _ =>
            let Br := fresh "Br" in
            let Bw := fresh "Bw" in
            pose proof (transport_ok n w0) as Br; rewrite R in Br;
            cbn [fst] in Br;
            pose proof (sink_ok d w1) as Bw; rewrite U in Bw;
            cbn [fst] in Bw;
            match goal with
            | |- context [with_should_close ?b (clip_chunk c)] =>
                change (bytes_to_read (with_should_close b (clip_chunk c)))
                  with (bytes_to_read (clip_chunk c)) in Br;
                destruct (advance_ok size c b (Z.of_nat (List.length d)) a
                            Hsize Hok Hpos) as (? & ? & ?);
                [ change (bytes_to_read (with_should_close b (clip_chunk c)))
                    with (bytes_to_read (clip_chunk c)); lia
                | lia | ]
            end
        end;
    (split; [assumption |]); repeat split; try assumption; lia.
Qed.

(** One more pass preserves what holds at a boundary. *)
Lemma boundary_counters inner contentLength s0 c s :
  acknowledged (trace s0) = 0 -> aligned (trace s0) ->
  boundary C inner (first_chunk contentLength) s0 c s ->
  counters_ok (to_uint contentLength) c /\
  total_written_bytes c = acknowledged (trace s) /\
  aligned (trace s).
Proof.
  intros Hack Hal. induction 1 as [| c s c' s' _ IH Hpos Hrun].
  - split; [apply first_chunk_ok | split; [symmetry; exact Hack | exact Hal]].
  - destruct IH as (Hok & Ht & Ha).
    assert (Hsize : to_uint contentLength < 2 ^ 32)
      by (apply Z.mod_pos_bound; lia).
    pose proof (wp_ok _ _ _ _ _ _
                  (chunk_iteration_counters inner _ c s Hsize Hok Hpos Ht Ha)
                  Hrun) as H.
    cbv beta in H. tauto.
Qed.

(** C2: at every iteration boundary of the chunk loop of a session,
    [total_written_bytes + remainig_bytes] is the content length (as the
    unsigned value the loop starts from), [chunk_first_byte] equals
    [total_written_bytes], which is the number of bytes the sink has
    acknowledged, never above the content length; every ranged request made
    so far started at the offset acknowledged when it was printed; and one
    more pass never decreases [total_written_bytes] and moves the cursor by
    exactly what the sink acknowledged in that pass. *)
Theorem chunk_counters_invariant inner contentLength s0 c s :
  acknowledged (trace s0) = 0 -> aligned (trace s0) ->
  boundary C inner (first_chunk contentLength) s0 c s ->
  total_written_bytes c + remainig_bytes c = to_uint contentLength /\
  chunk_first_byte c = total_written_bytes c /\
  0 <= total_written_bytes c <= to_uint contentLength /\
  total_written_bytes c = acknowledged (trace s) /\
  aligned (trace s) /\
  (forall c' s',
     0 < remainig_bytes c -> chunk_iteration C inner c s = Ok c' s' ->
     total_written_bytes c <= total_written_bytes c' /\
     chunk_first_byte c' - chunk_first_byte c
     = acknowledged (trace s') - acknowledged (trace s)).
Proof.
  intros Hack Hal Hb.
  destruct (boundary_counters inner contentLength s0 c s Hack Hal Hb)
    as (Hok & Ht & Ha).
  pose proof Hok as (Hsum & Hf & Hlo & Hrem & _).
  split; [assumption |]. split; [assumption |]. split; [lia |].
  split; [assumption |]. split; [assumption |].
  intros c' s' Hpos Hrun.
  assert (Hsize : to_uint contentLength < 2 ^ 32)
    by (apply Z.mod_pos_bound; lia).
  pose proof (wp_ok _ _ _ _ _ _
                (chunk_iteration_counters inner _ c s Hsize Hok Hpos Ht Ha)
                Hrun) as H.
  cbv beta in H. tauto.
Qed.

(** The chunk loop ends at an iteration boundary with nothing remaining. *)
Lemma chunk_loop_boundary inner fuel c0 s0 c s c' s' :
  boundary C inner c0 s0 c s ->
  chunk_loop C inner fuel c s = Ok c' s' ->
  boundary C inner c0 s0 c' s' /\ remainig_bytes c' <= 0.
Proof.
  revert c s. induction fuel as [| fuel IH]; intros c s Hb; cbn [chunk_loop].
  - discriminate.
  - destruct (Z.gtb_spec (remainig_bytes c) 0) as [Hpos | Hdone].
    + unfold bind. destruct (chunk_iteration C inner c s) as [c1 s1 |] eqn:E;
        [| discriminate].
      apply IH. eapply boundary_next; [exact Hb | lia | exact E].
    + intros [= <- <-]. auto.
Qed.


(** When the chunk loop returns, the sink has acknowledged exactly the
    content length. *)
Lemma chunk_loop_complete inner fuel contentLength s0 c s :
  acknowledged (trace s0) = 0 -> aligned (trace s0) ->
  chunk_loop C inner fuel (first_chunk contentLength) s0 = Ok c s ->
  remainig_bytes c = 0 /\
  total_written_bytes c = to_uint contentLength /\
  acknowledged (trace s) = to_uint contentLength.
Proof.
  intros Hack Hal Hrun.
  destruct (chunk_loop_boundary inner fuel _ s0 _ s0 c s
              (boundary_first _ _ _ _) Hrun) as [Hb Hdone].
  destruct (boundary_counters inner contentLength s0 c s Hack Hal Hb)
    as ((Hsum & _ & _ & Hrem & _) & Ht & _).
  lia.
Qed.

End Contracts.

(** ** More budget changes nothing once a run completes *)

Lemma mono_const {A} (m : M (W:=W) A) : fuel_monotone (fun _ => m).
Proof. intros n m' s a s' _ H. exact H. Qed.

Lemma mono_bind {A B} (f : nat -> M (W:=W) A) (k : nat -> A -> M B) :
  fuel_monotone f -> (forall a, fuel_monotone (fun n => k n a)) ->
  fuel_monotone (fun n => bind (f n) (k n)).
Proof.
  intros Hf Hk n m s b s' Hle. unfold bind.
  destruct (f n s) as [a s1 |] eqn:E; [| discriminate].
  rewrite (Hf _ _ _ _ _ Hle E). apply Hk, Hle.
Qed.

Lemma wait_available_mono timeout :
  fuel_monotone (fun n => wait_available C n timeout).
Proof.
  intros n. induction n as [| n IH]; intros m s a s' Hle; [discriminate |].
  destruct m as [| m]; [lia |]. cbn [wait_available]. unfold bind, call.
  destruct (client_available C (world s)) as [k w].
  destruct (k =? 0); [| auto].
  cbn [world]. destruct (millis C w) as [now w'].
  destruct (_ >? _); [auto |]. apply IH. lia.
Qed.

Lemma read_headers_mono {H} (on_line : string -> H -> LineResult H) h :
  fuel_monotone (fun n => read_headers C on_line n h).
Proof.
  intros n. revert h.
  induction n as [| n IH]; intros h m s a s' Hle; [discriminate |].
  destruct m as [| m]; [lia |]. cbn [read_headers]. unfold bind, call.
  destruct (client_available C (world s)) as [k w].
  destruct (k =? 0); [auto |].
  cbn [world]. destruct (client_readStringUntil C WString.LF w) as [raw w'].
  destruct (_ =? 0); [auto |].
  destruct (on_line _ h); [auto |]. apply IH. lia.
Qed.

Ltac mono :=
  repeat first
    [ apply mono_const
    | apply wait_available_mono
    | apply read_headers_mono
    | apply mono_bind; [| intros ?]
    | match goal with
      | |- fuel_monotone (fun _ => if ?b then _ else _) => destruct b
      | |- fuel_monotone (fun _ => match ?x with _ => _ end) => destruct x
      end ].

Lemma manifest_exchange_mono : fuel_monotone (manifest_exchange C).
Proof. unfold manifest_exchange. mono. Qed.

Lemma execHTTPcheck_mono : fuel_monotone (execHTTPcheck C).
Proof.
  unfold execHTTPcheck.
  apply mono_bind; [apply manifest_exchange_mono | intros r]. mono.
Qed.

Lemma probe_mono : fuel_monotone (probe C).
Proof. unfold probe. mono. Qed.

Lemma chunk_iteration_mono c : fuel_monotone (fun n => chunk_iteration C n c).
Proof. unfold chunk_iteration. mono. Qed.

Lemma chunk_loop_mono inner inner' fuel fuel' c s c' s' :
  (inner <= inner')%nat -> (fuel <= fuel')%nat ->
  chunk_loop C inner fuel c s = Ok c' s' ->
  chunk_loop C inner' fuel' c s = Ok c' s'.
Proof.
  intros Hi. revert fuel' c s.
  induction fuel as [| fuel IH]; intros fuel' c s Hle; [discriminate |].
  destruct fuel' as [| fuel']; [lia |]. cbn [chunk_loop].
  destruct (remainig_bytes c >? 0); [| auto].
  unfold bind.
  destruct (chunk_iteration C inner c s) as [c1 s1 |] eqn:E; [| discriminate].
  rewrite (chunk_iteration_mono c _ _ _ _ _ Hi E). apply IH. lia.
Qed.

Lemma whole_file_mono : fuel_monotone (whole_file C).
Proof. unfold whole_file. mono. Qed.

Lemma install_mono h : fuel_monotone (fun n => install C n h).
Proof.
  unfold install, whole_file. mono.
  intros n m s1 c1 s2 Hle. now apply chunk_loop_mono.
Qed.

Lemma execOTA_mono : fuel_monotone (execOTA C).
Proof.
  unfold execOTA.
  apply mono_bind; [apply probe_mono | intros r].
  destruct r; [apply install_mono | apply mono_const].
Qed.

(** A run that completes with some budget is the run with any larger one. *)
Lemma same_run {A} (f : nat -> M (W:=W) A) n m s a :
  fuel_monotone f -> (n <= m)%nat -> result (f n s) = Some a ->
  f m s = f n s.
Proof.
  intros Hf Hle Hr. destruct (f n s) as [a' s' |] eqn:E; [| discriminate].
  exact (Hf _ _ _ _ _ Hle E).
Qed.

(** ** The header loops as scans of the lines read *)

Lemma wait_available_lines fuel timeout s :
  lines_rev (trace (final (wait_available C fuel timeout s)))
  = lines_rev (trace s).
Proof.
  revert s. induction fuel as [| fuel IH]; intros s; cbn [wait_available].
  - reflexivity.
  - unfold bind, call. destruct (client_available C (world s)) as [n w].
    destruct (n =? 0); [| reflexivity].
    cbn [world]. destruct (millis C w) as [now w'].
    destruct (_ >? _); [reflexivity |]. rewrite IH. reflexivity.
Qed.

Lemma read_headers_scans {H} (on_line : string -> H -> LineResult H)
  fuel h s h' s' :
  read_headers C on_line fuel h s = Ok h' s' ->
  exists ls,
    lines_read (trace s') = (lines_read (trace s) ++ ls)%list /\
    scan on_line h ls = (h', []).
Proof.
  unfold lines_read. revert h s.
  induction fuel as [| fuel IH]; intros h s; cbn [read_headers];
    [discriminate |].
  unfold bind, call. destruct (client_available C (world s)) as [n w].
  destruct (n =? 0).
  { intros [= <- <-]. exists []. cbn. now rewrite app_nil_r. }
  cbn [world]. destruct (client_readStringUntil C WString.LF w) as [raw w'].
  destruct (WString.len (WString.trim raw) =? 0) eqn:Hblank.
  { intros [= <- <-]. exists [raw]. cbn. now rewrite Hblank. }
  destruct (on_line (WString.trim raw) h) as [| h1] eqn:Hline.
  { unfold exec, ret. intros [= <- <-]. exists [raw]. cbn.
    now rewrite Hblank, Hline. }
  intros Hrun. destruct (IH _ _ Hrun) as (ls & Hls & Hscan).
  exists (raw :: ls). cbn [trace lines_rev] in Hls. cbn [rev] in Hls.
  split.
  - rewrite Hls. now rewrite <- app_assoc.
  - cbn. now rewrite Hblank, Hline.
Qed.

Ltac line_effect_now :=
  let line := fresh "line" in
  let h := fresh "h" in
  let h' := fresh "h'" in
  intros line h h'; unfold accepted_status, header_named;
  destruct (WString.startsWith line "HTTP/1.1") eqn:Hstart;
  destruct (WString.indexOf line "200" <? 0) eqn:Hcode;
  cbn [andb]; try discriminate;
  try (apply Z.ltb_ge in Hcode; apply Z.leb_le in Hcode; rewrite Hcode);
  destruct h as [cl valid ranges got];
  cbn [with_status gotHTTPStatus negb];
  try destruct got; cbn [negb];
  destruct (splitHeader line) as [header headerValue];
  repeat match goal with
         | |- context [WString.equalsIgnoreCase ?a ?b] =>
             destruct (WString.equalsIgnoreCase a b) eqn:?
         | |- context [String.eqb ?a ?b] =>
             destruct (String.eqb_spec a b)
         end;
  intros [= <-]; cbn; subst;
  repeat split; intros; try discriminate; eauto.

Lemma probe_line_effect : line_effect "application/octet-stream" probe_line.
Proof. unfold probe_line. line_effect_now. Qed.

Lemma manifest_line_effect : line_effect "application/json" manifest_line.
Proof. unfold manifest_line. line_effect_now. Qed.

Lemma provenance_more ctype seen more h :
  provenance ctype seen h -> provenance ctype (seen ++ more) h.
Proof.
  intros (H0 & H1 & H2 & H3 & H4).
  split; [assumption |]. split; [| split; [| split]].
  - intros G. destruct (H1 G) as (l & ? & ?). exists l.
    rewrite in_app_iff. auto.
  - intros G. destruct (H2 G) as (l & v & ? & ?). exists l, v.
    rewrite in_app_iff. auto.
  - intros G. destruct (H3 G) as (l & ? & ?). exists l.
    rewrite in_app_iff. auto.
  - intros G. destruct (H4 G) as (l & ? & ?). exists l.
    rewrite in_app_iff. auto.
Qed.

Lemma scan_provenance ctype on_line :
  line_effect ctype on_line ->
  forall ls seen h h' rest,
    provenance ctype seen h ->
    scan on_line h ls = (h', rest) ->
    provenance ctype (seen ++ ls) h'.
Proof.
  intros Heff. induction ls as [| raw ls IH]; intros seen h h' rest Hp;
    cbn [scan].
  - intros [= <- <-]. now rewrite app_nil_r.
  - pose proof (provenance_more _ _ (raw :: ls) _ Hp) as Hstop.
    destruct (_ =? 0); [intros [= <- <-]; exact Hstop |].
    destruct (on_line (WString.trim raw) h) as [| h1] eqn:Hline;
      [intros [= <- <-]; exact Hstop |].
    intros Hscan.
    replace (seen ++ raw :: ls)%list with ((seen ++ [raw]) ++ ls)%list
      by (now rewrite <- app_assoc).
    apply (IH _ h1 h' rest); [| exact Hscan].
    destruct (Heff _ _ _ Hline) as (E1 & E0 & E2 & E3 & E4).
    pose proof (provenance_more _ _ [raw] _ Hp) as (H0 & H1 & H2 & H3 & H4).
    assert (Hraw : In raw (seen ++ [raw])%list)
      by (rewrite in_app_iff; right; left; reflexivity).
    split; [| split; [| split; [| split]]].
    + intros G. pose proof (E0 G) as Eh. subst h1. auto.
    + intros G. destruct (E1 G) as [G' | G']; [auto | eauto].
    + intros G. destruct E2 as [E2 | (v & ? & ?)].
      * rewrite E2 in *. auto.
      * exists raw, v. auto.
    + intros G. destruct (E3 G) as [G' | G']; [auto | eauto].
    + intros G. destruct (E4 G) as [G' | G']; [auto | eauto].
Qed.

Lemma scanned_provenance ctype on_line ls h rest :
  line_effect ctype on_line ->
  scan on_line no_headers ls = (h, rest) -> provenance ctype ls h.
Proof.
  intros Heff Hscan.
  assert (Hp : provenance ctype [] no_headers).
  { split; [auto |]. split; [discriminate |].
    split; [intros G; now destruct G |]. split; discriminate. }
  exact (scan_provenance _ _ Heff _ _ _ _ _ Hp Hscan).
Qed.

Lemma scanned_declares ctype on_line ls h rest :
  line_effect ctype on_line ->
  scan on_line no_headers ls = (h, rest) ->
  contentLength h <> 0 -> isValidContentType h = true ->
  declares ctype (contentLength h) ls.
Proof.
  intros Heff Hscan Hcl Hvalid.
  pose proof (scanned_provenance _ _ _ _ _ Heff Hscan)
    as (H0 & H1 & H2 & H3 & _).
  split; [| split]; auto.
  apply H1. destruct (gotHTTPStatus h); [reflexivity |].
  destruct H0 as [? _]; [reflexivity | contradiction].
Qed.

(** *** The order of the status line and the range header *)

Lemma substring_from_start s r :
  WString.substring s 0 r = EmptyString \/
  exists c t u, s = String c t /\ WString.substring s 0 r = String c u.
Proof.
  unfold WString.substring. change (to_uint 0) with 0.
  assert (Hr : 0 <= to_uint r) by (apply Z.mod_pos_bound; lia).
  rewrite Z.min_l, Z.max_r by lia.
  destruct (WString.len s <=? 0); [now left |].
  rewrite Z.sub_0_r. cbn [Z.to_nat].
  generalize (Z.to_nat (Z.min (to_uint r) (WString.len s))). intros n.
  destruct s as [| c t]; [left; now destruct n |].
  destruct n as [| n]; [now left |].
  right. exists c, t. eexists. split; reflexivity.
Qed.

Lemma status_line_names_no_header line :
  WString.startsWith line "HTTP/1.1" = true ->
  header_named "Accept-Ranges" line = None.
Proof.
  intros Hstart. unfold header_named, splitHeader.
  destruct (substring_from_start line (WString.indexOf_char line ":"))
    as [-> | (c & t & u & -> & ->)]; [reflexivity |].
  unfold WString.startsWith in Hstart.
  change (String.prefix "HTTP/1.1" (String c t))
    with (if ascii_dec "H" c then String.prefix "TTP/1.1" t else false)
    in Hstart.
  revert Hstart.
  destruct (ascii_dec "H" c) as [<- | _]; [reflexivity | discriminate].
Qed.

Lemma accepted_status_starts line :
  accepted_status line = true -> WString.startsWith line "HTTP/1.1" = true.
Proof. unfold accepted_status. intros H. now apply andb_prop in H. Qed.

Lemma advertises_more seen more :
  advertises_ranges seen -> advertises_ranges (seen ++ more).
Proof.
  intros (before & status & after & l & -> & Hst & Hl & Hnamed).
  exists before, status, (after ++ more)%list, l.
  rewrite <- app_assoc, in_app_iff. cbn [app]. auto.
Qed.

Lemma ordered_more seen more h : ordered seen h -> ordered (seen ++ more) h.
Proof.
  intros [Hgot Hranges]. split.
  - intros G. destruct (Hgot G) as (before & status & after & -> & Hst).
    exists before, status, (after ++ more)%list.
    rewrite <- app_assoc. cbn [app]. auto.
  - intros G. apply advertises_more. auto.
Qed.

Lemma scan_ordered ls :
  forall seen h h' rest,
    ordered seen h ->
    scan probe_line h ls = (h', rest) ->
    ordered (seen ++ ls) h'.
Proof.
  induction ls as [| raw ls IH]; intros seen h h' rest Ho; cbn [scan].
  - intros [= <- <-]. now rewrite app_nil_r.
  - pose proof (ordered_more _ (raw :: ls) _ Ho) as Hstop.
    destruct (_ =? 0); [intros [= <- <-]; exact Hstop |].
    destruct (probe_line (WString.trim raw) h) as [| h1] eqn:Hline;
      [intros [= <- <-]; exact Hstop |].
    intros Hscan.
    replace (seen ++ raw :: ls)%list with ((seen ++ [raw]) ++ ls)%list
      by (now rewrite <- app_assoc).
    apply (IH _ h1 h' rest); [| exact Hscan].
    destruct (probe_line_effect _ _ _ Hline) as (E1 & E0 & _ & _ & E4).
    destruct Ho as [Hgot Hranges].
    assert (Hgot1 : gotHTTPStatus h1 = true ->
              exists before status after,
                (seen ++ [raw])%list = (before ++ status :: after)%list /\
                accepted_status (WString.trim status) = true).
    { intros G. destruct (E1 G) as [G' | G'].
      - destruct (Hgot G') as (before & status & after & -> & Hst).
        exists before, status, (after ++ [raw])%list.
        rewrite <- app_assoc. cbn [app]. auto.
      - exists seen, raw, []. auto. }
    split; [exact Hgot1 |].
    intros G. destruct (E4 G) as [G' | Hnamed].
    + apply advertises_more. auto.
    + destruct (gotHTTPStatus h1) eqn:G1.
      2: { rewrite (E0 eq_refl) in G. rewrite (E0 eq_refl) in G1.
           apply advertises_more. auto. }
      destruct (E1 eq_refl) as [G' | Hacc].
      * destruct (Hgot G') as (before & status & after & -> & Hst).
        exists before, status, (after ++ [raw])%list, raw.
        rewrite <- app_assoc, in_app_iff. cbn [app In]. tauto.
      * apply accepted_status_starts in Hacc.
        rewrite (status_line_names_no_header _ Hacc) in Hnamed.
        discriminate Hnamed.
Qed.

Lemma scanned_advertises ls h rest :
  scan probe_line no_headers ls = (h, rest) ->
  Accept_Ranges_bytes h = true -> advertises_ranges ls.
Proof.
  intros Hscan.
  assert (Ho : ordered [] no_headers) by (split; discriminate).
  exact (proj2 (scan_ordered _ _ _ _ _ Ho Hscan)).
Qed.

Lemma lines_rev_app a b :
  lines_rev (a ++ b) = (lines_rev a ++ lines_rev b)%list.
Proof.
  induction a as [| e a IH]; [reflexivity |].
  destruct e; cbn; now rewrite ?IH.
Qed.

Lemma lines_read_extends p (s s' : St (W:=W)) l :
  extends p s s' ->
  In l (lines_read (trace s)) -> In l (lines_read (trace s')).
Proof.
  intros (new & -> & _). unfold lines_read.
  rewrite lines_rev_app, rev_app_distr, in_app_iff. auto.
Qed.

Lemma declares_more ctype length ls ls' :
  (forall l, In l ls -> In l ls') ->
  declares ctype length ls -> declares ctype length ls'.
Proof.
  intros Hin ((l1 & ? & ?) & (l2 & v & ? & ? & ?) & (l3 & ? & ?)).
  split; [| split]; eauto 7.
Qed.

Lemma wait_available_scanning fuel timeout s :
  wp (wait_available C fuel timeout)
     (fun _ s' => grown polling s s' /\
                  lines_rev (trace s') = lines_rev (trace s))
     (grown polling s) s.
Proof.
  pose proof (wait_available_polling fuel timeout s) as Hp.
  pose proof (wait_available_lines fuel timeout s) as Hl.
  unfold wp in *. destruct (wait_available C fuel timeout s); auto.
Qed.

Lemma read_headers_scanning {H} (on_line : string -> H -> LineResult H)
  fuel h s :
  wp (read_headers C on_line fuel h)
     (fun h' s' => grown polling s s' /\
                   exists ls,
                     lines_read (trace s')
                     = (lines_read (trace s) ++ ls)%list /\
                     scan on_line h ls = (h', []))
     (grown polling s) s.
Proof.
  pose proof (read_headers_polling on_line fuel h s) as Hp.
  pose proof (read_headers_scans on_line fuel h s) as Hl.
  unfold wp in *. destruct (read_headers C on_line fuel h s); eauto.
Qed.

(** X1: A header loop that returns has read lines up to and including the
    first one that is blank after trimming or carries a rejected status, and
    no line after it; what it returns is what its body makes of those lines in
    order, and it never writes a member of the object. *)
Theorem header_loop_scans_lines {H} (on_line : string -> H -> LineResult H)
  fuel h s h' s' :
  read_headers C on_line fuel h s = Ok h' s' ->
  self s' = self s /\
  exists ls,
    lines_read (trace s') = (lines_read (trace s) ++ ls)%list /\
    scan on_line h ls = (h', []).
Proof.
  intros Hrun.
  pose proof (wp_ok _ _ _ _ _ _ (read_headers_scanning on_line fuel h s)
                Hrun) as [[Hself _] Hscan].
  auto.
Qed.

Ltac wp_lines_step :=
  cbn [self world trace];
  lazymatch goal with
  | |- wp (wait_available _ _ _) _ _ _ =>
      eapply wp_mono;
      [apply wait_available_scanning | intros ? ? [? ?] | intros ? ?]; absorb
  | |- wp (read_headers _ _ _ _) _ _ _ =>
      eapply wp_mono;
      [ apply read_headers_scanning
      | intros ? ? [? (? & ? & ?)]
      | intros ? ? ]; absorb
  end.

Ltac lines_now :=
  let h := fresh in
  let E := fresh in
  intros h E; first [discriminate E | injection E as <-];
  unfold lines_read in *; cbn [lines_rev] in *;
  repeat match goal with
         | H : rev (lines_rev _) = _ |- _ => rewrite H in *; clear H
         | H : lines_rev _ = _ |- _ => rewrite H in *; clear H
         end;
  eauto.

(** The headers the probe returns are the scan of the lines it read. *)
Lemma probe_scans fuel s :
  wp (probe C fuel)
     (fun r s1 => forall h, r = Some h ->
        exists ls,
          lines_read (trace s1) = (lines_read (trace s) ++ ls)%list /\
          scan probe_line no_headers ls = (h, []))
     (fun _ => True) s.
Proof.
  unfold probe. repeat first [wp_lines_step | wp_step]; try exact I;
    lines_now.
Qed.

Lemma manifest_exchange_scans fuel s :
  wp (manifest_exchange C fuel)
     (fun r s1 => forall h, r = Some h ->
        exists ls,
          lines_read (trace s1) = (lines_read (trace s) ++ ls)%list /\
          scan manifest_line no_headers ls = (h, []))
     (fun _ => True) s.
Proof.
  unfold manifest_exchange.
  repeat first [wp_lines_step | wp_step]; try exact I; lines_now.
Qed.

Lemma probe_exchanging fuel s :
  wp (probe C fuel)
     (fun _ s' => grown exchanging s s') (grown exchanging s) s.
Proof. unfold probe. repeat wp_step; grown_now. Qed.

Lemma install_extends fuel h s :
  wp (install C fuel h)
     (fun _ s' => extends (fun _ => true) s s')
     (extends (fun _ => true) s) s.
Proof. unfold install, whole_file, finish. wp_all; extends_now. Qed.

(** X3: [execHTTPcheck] reads a manifest body only when the answer had an
    accepted status line, a [Content-Length] header and a [Content-type]
    header with the value [application/json]; the [Content-Length] value
    converts to a number that is not zero and not above 256, and the number of
    bytes asked for is that number as an unsigned 32-bit integer. *)
Theorem manifest_read_only_when_declared fuel s n data :
  trace s = [] ->
  In (EvReadBytes n data) (trace (final (execHTTPcheck C fuel s))) ->
  exists length,
    declares "application/json" length
      (lines_read (trace (final (execHTTPcheck C fuel s)))) /\
    length <> 0 /\ length <= 256 /\ n = to_uint length.
Proof.
  intros Hs. unfold execHTTPcheck, bind.
  pose proof (manifest_exchange_events fuel s) as Hp. unfold wp in Hp.
  destruct (manifest_exchange C fuel s) as [[h |] s1 | s1] eqn:Hex.
  - destruct Hp as (_ & new & Hnew & Hall). rewrite Hs, app_nil_r in Hnew.
    assert (Hno : forall a b, ~ In (EvReadBytes a b) (trace s1)).
    { intros a b Hin. rewrite Hnew in Hin.
      pose proof (allowed_in _ _ _ Hall Hin) as X. discriminate X. }
    destruct (wp_ok _ _ _ _ _ _ (manifest_exchange_scans fuel s) Hex
                _ eq_refl) as (ls & Hls & Hscan).
    rewrite Hs in Hls. cbn in Hls.
    assert (Hwp : wp (manifest_payload C h)
              (fun _ s' =>
                 (forall l, In l (lines_read (trace s1)) ->
                            In l (lines_read (trace s'))) /\
                 (In (EvReadBytes n data) (trace s') ->
                  contentLength h <> 0 /\ contentLength h <= 256 /\
                  isValidContentType h = true /\
                  n = to_uint (contentLength h)))
              (fun _ => False) s1).
    { unfold manifest_payload.
      destruct (contentLength h >? 256) eqn:Hbig;
        [| destruct (contentLength h =? 0) eqn:Hcl; cbn [negb andb];
           [| destruct (isValidContentType h) eqn:Hvalid]].
      all: repeat wp_step.
      all: split;
        [ intros l; apply (lines_read_extends (fun _ => true) s1);
          extends_now |].
      all: intros Hin; in_cases Hin; try discriminate;
        try (destruct (Hno _ _ Hin)).
      all: injection Hin as <- _.
      all: apply Z.eqb_neq in Hcl.
      all: repeat split; try assumption; lia. }
    unfold wp in Hwp.
    destruct (manifest_payload C h s1) as [r s2 | s2]; [| destruct Hwp].
    cbn [final]. destruct Hwp as [Hlines Hread]. intros Hin.
    destruct (Hread Hin) as (Hcl & Hle & Hvalid & ->).
    exists (contentLength h). split; [| auto].
    apply declares_more with (ls := lines_read (trace s1));
      [assumption |].
    rewrite Hls.
    eapply scanned_declares;
      [apply manifest_line_effect | eassumption | assumption | assumption].
  - cbn [final ret]. destruct Hp as (_ & new & Hnew & Hall).
    rewrite Hs, app_nil_r in Hnew. intros Hin. rewrite Hnew in Hin.
    pose proof (allowed_in _ _ _ Hall Hin) as X. discriminate X.
  - cbn [final]. destruct Hp as (_ & new & Hnew & Hall).
    rewrite Hs, app_nil_r in Hnew. intros Hin. rewrite Hnew in Hin.
    pose proof (allowed_in _ _ _ Hall Hin) as X. discriminate X.
Qed.

(** ** The firmware sink *)

Lemma sink_calls_polling x :
  Forall (fun e => polling e = true) x -> filter is_sink x = [].
Proof.
  induction 1 as [| e x He _ IH]; [reflexivity |].
  cbn [filter]. rewrite IH.
  destruct e; try discriminate; reflexivity.
Qed.

Lemma sink_calls_chunking x :
  Forall (fun e => chunking e = true) x ->
  Forall (fun e => is_write e = true) (filter is_sink x).
Proof.
  induction 1 as [| e x He _ IH]; [constructor |].
  cbn [filter].
  destruct e; try discriminate; cbn [is_sink]; auto.
Qed.

Lemma written_in_chunks_more o ws calls :
  Forall (fun e => is_write e = true) ws ->
  written_in_chunks o (ws ++ calls) = written_in_chunks o calls.
Proof.
  induction 1 as [| e ws He _ IH]; [reflexivity |].
  destruct e; try discriminate. exact IH.
Qed.

Lemma configured_downloading o calls :
  configured o calls = true ->
  written_in_chunks o calls = true /\ downloading o calls = true /\
  sink_protocol o calls = true.
Proof.
  intros Hc. destruct calls as [| e calls]; [discriminate Hc |].
  destruct e; try discriminate Hc.
  destruct calls as [| e calls]; [discriminate Hc |].
  destruct e; try discriminate Hc; auto.
Qed.

Lemma downloading_more o ws calls :
  Forall (fun e => is_write e = true) ws ->
  configured o calls = true -> downloading o (ws ++ calls) = true.
Proof.
  intros Hws Hc.
  destruct (configured_downloading o calls Hc) as (Hw & Hd & _).
  destruct Hws as [| e ws He Hws]; [exact Hd |].
  destruct e; try discriminate He.
  cbn [app downloading written_in_chunks].
  now rewrite written_in_chunks_more.
Qed.

Lemma sink_protocol_more o ws calls :
  Forall (fun e => is_write e = true) ws ->
  configured o calls = true -> sink_protocol o (ws ++ calls) = true.
Proof.
  intros Hws Hc.
  destruct (configured_downloading o calls Hc) as (Hw & _ & Hp).
  destruct Hws as [| e ws He Hws]; [exact Hp |].
  destruct e; try discriminate He.
  cbn [app sink_protocol downloading written_in_chunks].
  now rewrite written_in_chunks_more.
Qed.

Ltac configured_now :=
  cbn [configured negb andb];
  repeat match goal with
         | H : (0 <? _) = _ |- _ => rewrite H
         end;
  rewrite ?String.eqb_refl; reflexivity.

Ltac sink_now :=
  unfold sink_calls;
  repeat first
    [ progress cbn [filter is_sink app self world trace]
    | rewrite filter_app
    | match goal with
      | H : Forall (fun e => polling e = true) ?x
        |- context [filter is_sink ?x] =>
          rewrite (sink_calls_polling x H)
      end ];
  repeat match goal with
         | H : Forall (fun e => chunking e = true) ?x |- _ =>
             apply sink_calls_chunking in H
         end;
  first
    [ reflexivity
    | cbn [sink_protocol downloading written_in_chunks]; configured_now
    | apply sink_protocol_more; [eassumption | configured_now]
    | cbn [sink_protocol]; apply downloading_more;
      [eassumption | configured_now] ].

Lemma execOTA_sink_protocol fuel s :
  trace s = [] ->
  wp (execOTA C fuel)
     (fun _ s' => sink_protocol (self s) (sink_calls (trace s')) = true)
     (fun s' => sink_protocol (self s) (sink_calls (trace s')) = true) s.
Proof.
  intros Hs. unfold execOTA, probe, install, whole_file, finish.
  wp_all; rewrite Hs; sink_now.
Qed.

(** X4: Whatever the server and the sink answer, the calls [execOTA] makes
    on [Update] come in one order: [begin] first; if it is refused, nothing
    more; otherwise [setMD5] exactly when the stored checksum is not empty,
    and with that checksum, then [onProgress], then either any number of
    [write]s or one [writeStream], then at most one [end], and [isFinished]
    only after an [end] that answered [true]. *)
Theorem sink_driven_in_order fuel s :
  trace s = [] ->
  sink_protocol (self s) (sink_calls (trace (final (execOTA C fuel s))))
  = true.
Proof.
  intros Hs. pose proof (execOTA_sink_protocol fuel s Hs) as H.
  unfold wp in H. destruct (execOTA C fuel s); exact H.
Qed.

Lemma execOTA_restart fuel s :
  trace s = [] ->
  wp (execOTA C fuel)
     (fun o s' =>
        (In EvRestart (trace s') ->
         exists older,
           trace s'
           = EvRestart :: EvUpdateIsFinished true :: EvUpdateEnd true
               :: older) /\
        (o = Restarted <-> In EvRestart (trace s')))
     (fun s' => ~ In EvRestart (trace s')) s.
Proof.
  intros Hs. unfold execOTA, probe, install, whole_file, finish.
  wp_all; rewrite Hs.
  all: try (intros Hin; in_cases Hin; not_made Hin).
  all: split;
    [ intros Hin; in_cases Hin; try not_made Hin; eexists; reflexivity
    | split;
      [ intros [=]; left; reflexivity
      | intros Hin; in_cases Hin; try not_made Hin; reflexivity ] ].
Qed.

(** X5: [execOTA] restarts the device exactly when it ends with the outcome
    [Restarted], and then [ESP.restart] is its last call and the two calls
    before it are [Update.end] and [Update.isFinished], both answering [true];
    a run that is cut off has not restarted the device. *)
Theorem restart_only_after_finished_update fuel s :
  trace s = [] ->
  (In EvRestart (trace (final (execOTA C fuel s))) <->
   result (execOTA C fuel s) = Some Restarted) /\
  (In EvRestart (trace (final (execOTA C fuel s))) ->
   exists older,
     trace (final (execOTA C fuel s))
     = EvRestart :: EvUpdateIsFinished true :: EvUpdateEnd true :: older).
Proof.
  intros Hs. pose proof (execOTA_restart fuel s Hs) as H.
  unfold wp in H. destruct (execOTA C fuel s) as [o s' | s'];
    cbn [final result].
  - destruct H as [Hshape [H1 H2]]. split; [| assumption].
    split; [intros Hin; now rewrite (H2 Hin) | intros [= ->]; auto].
  - split; [| intros Hin; destruct (H Hin)].
    split; [intros Hin; destruct (H Hin) | discriminate].
Qed.

(** ** The targets of the calls *)

Ltac targets_now :=
  split; [reflexivity |];
  repeat first
    [ apply extends_refl
    | apply extends_base
    | apply extends_cons;
      [ cbn [targets req_path req_host];
        rewrite ?String.eqb_refl, ?Z.eqb_refl; reflexivity |]
    | eapply extends_app;
      [ eassumption
      | let e := fresh "e" in
        intros e; destruct e; cbn; intros;
        first [reflexivity | assumption | discriminate]
      | ] ].

Lemma chunk_iteration_targets inner c s :
  wp (chunk_iteration C inner c)
     (fun _ s' => grown (targets (self s)) s s')
     (grown (targets (self s)) s) s.
Proof. unfold chunk_iteration. repeat wp_step; targets_now. Qed.

Lemma chunk_loop_targets inner fuel c s :
  wp (chunk_loop C inner fuel c)
     (fun _ s' => grown (targets (self s)) s s')
     (grown (targets (self s)) s) s.
Proof.
  revert c s. induction fuel as [| fuel IH]; intros c s; cbn [chunk_loop].
  - apply wp_out_of_fuel, grown_refl.
  - destruct (remainig_bytes c >? 0).
    + apply wp_bind.
      eapply wp_mono; [apply chunk_iteration_targets | | auto].
      cbv beta. intros c' s' H1. pose proof H1 as [E1 _].
      pose proof (IH c' s') as H2. rewrite E1 in H2.
      eapply wp_mono; [exact H2 | |]; cbv beta; intros;
        eauto using grown_trans.
    + apply wp_ret, grown_refl.
Qed.

Lemma execOTA_targets fuel s :
  wp (execOTA C fuel)
     (fun _ s' => grown (targets (self s)) s s')
     (grown (targets (self s)) s) s.
Proof.
  unfold execOTA, probe, install, whole_file, finish.
  repeat first [wp_step | wp_loop chunk_loop_targets]; targets_now.
Qed.

Lemma connections_in h p tr :
  In (h, p) (connections tr) -> exists ok, In (EvConnect h p ok) tr.
Proof.
  unfold connections. rewrite <- in_rev.
  induction tr as [| e tr IH]; [intros [] |].
  destruct e; cbn [connections_rev In];
    try (intros H; destruct (IH H) as [answer ?]; exists answer; now right).
  intros [[= -> ->] | H]; [eexists; left; reflexivity |].
  destruct (IH H) as [answer ?]. exists answer. now right.
Qed.

Lemma requests_in r tr : In r (requests tr) -> In (EvPrint r) tr.
Proof.
  unfold requests. rewrite <- in_rev.
  induction tr as [| e tr IH]; [intros [] |].
  destruct e; cbn [requests_rev In]; try (intros H; right; now apply IH).
  intros [-> | H]; [now left | right; now apply IH].
Qed.

Lemma targets_aimed o (tr : list Event) :
  Forall (fun e => targets o e = true) tr ->
  (forall h p, In (h, p) (connections tr) ->
               h = _host o /\ p = to_uint16 (_port o)) /\
  (forall r, In r (requests tr) ->
             req_path r = _bin o /\ req_host r = _host o) /\
  (forall c, In (EvUpdateSetMD5 c) tr -> c = _checksum o).
Proof.
  intros Hall. rewrite Forall_forall in Hall. split; [| split].
  - intros h p Hin. destruct (connections_in _ _ _ Hin) as [ok Hev].
    specialize (Hall _ Hev). cbn in Hall.
    apply andb_prop in Hall. destruct Hall as [Hh Hp].
    apply String.eqb_eq in Hh. apply Z.eqb_eq in Hp. auto.
  - intros r Hin. specialize (Hall _ (requests_in _ _ Hin)). cbn in Hall.
    apply andb_prop in Hall. destruct Hall as [Hb Hh].
    apply String.eqb_eq in Hb. apply String.eqb_eq in Hh. auto.
  - intros c Hin. specialize (Hall _ Hin). cbn in Hall.
    now apply String.eqb_eq in Hall.
Qed.

(** X6: [execOTA] never writes a member of the object, and whatever the
    server answers, every connection it opens goes to the stored host and
    to the stored port as [connect] receives it, cut to 16 bits; every
    request it prints asks for the stored path on the stored host, and the
    only checksum it hands to the sink is the stored one. *)
Theorem execOTA_keeps_to_its_target fuel s :
  trace s = [] ->
  let s' := final (execOTA C fuel s) in
  self s' = self s /\
  (forall h p, In (h, p) (connections (trace s')) ->
               h = _host (self s) /\ p = to_uint16 (_port (self s))) /\
  (forall r, In r (requests (trace s')) ->
             req_path r = _bin (self s) /\ req_host r = _host (self s)) /\
  (forall c, In (EvUpdateSetMD5 c) (trace s') -> c = _checksum (self s)).
Proof.
  intros Hs. cbv zeta. pose proof (execOTA_targets fuel s) as H.
  unfold wp in H.
  assert (G : grown (targets (self s)) s (final (execOTA C fuel s)))
    by (destruct (execOTA C fuel s); exact H).
  destruct G as (Hself & new & Hnew & Hall). rewrite Hs, app_nil_r in Hnew.
  split; [assumption |]. rewrite Hnew. now apply targets_aimed.
Qed.

(** X7: [forceUpdate] aims the whole installation at its arguments: every
    connection goes to the host given and to the port given as [connect]
    receives it, cut to 16 bits; every request asks for the path given on
    that host, and the only checksum handed to the sink is the one given,
    whatever target was stored before the call. *)
Theorem forceUpdate_aims_at_its_arguments host port path checksum fuel s :
  trace s = [] ->
  let s' := final (forceUpdate C host port path checksum fuel s) in
  self s' = set_target host port path checksum (self s) /\
  (forall h p, In (h, p) (connections (trace s')) ->
               h = host /\ p = to_uint16 port) /\
  (forall r, In r (requests (trace s')) ->
             req_path r = path /\ req_host r = host) /\
  (forall c, In (EvUpdateSetMD5 c) (trace s') -> c = checksum).
Proof.
  intros Hs. cbv zeta. rewrite forceUpdate_runs_execOTA.
  pose proof (execOTA_targets fuel (retarget host port path checksum s)) as H.
  unfold wp in H.
  assert (G : grown (targets (set_target host port path checksum (self s)))
                (retarget host port path checksum s)
                (final (discard (execOTA C fuel
                                   (retarget host port path checksum s)))))
    by (destruct (execOTA C fuel _); exact H).
  destruct G as (Hself & new & Hnew & Hall).
  cbn [retarget trace self] in *. rewrite Hs, app_nil_r in Hnew.
  split; [assumption |]. rewrite Hnew.
  exact (targets_aimed _ _ Hall).
Qed.

Lemma connections_rev_polling x tr :
  Forall (fun e => polling e = true) x ->
  connections_rev (x ++ tr) = connections_rev tr.
Proof.
  induction 1 as [| e x He _ IH]; [reflexivity |].
  cbn [app]. destruct e; try discriminate; cbn [connections_rev]; exact IH.
Qed.

Lemma requests_rev_polling x tr :
  Forall (fun e => polling e = true) x ->
  requests_rev (x ++ tr) = requests_rev tr.
Proof.
  induction 1 as [| e x He _ IH]; [reflexivity |].
  cbn [app]. destruct e; try discriminate; cbn [requests_rev]; exact IH.
Qed.

Ltac endpoint_now :=
  unfold connections, requests, same_identity, manifest_request;
  repeat first
    [ progress cbn [connections_rev requests_rev self world trace rev app
                    set_port set_host set_bin set_checksum _firwmareType
                    _firwmareVersion checkHOST checkPORT checkRESOURCE
                    useDeviceID _networkSemaphore _connectionCheckFunction]
    | rewrite connections_rev_polling by eassumption
    | rewrite requests_rev_polling by eassumption ].

Lemma execHTTPcheck_endpoint fuel s :
  trace s = [] ->
  wp (execHTTPcheck C fuel)
     (fun _ s' =>
        connections (trace s')
        = [(checkHOST (self s), to_uint16 (checkPORT (self s)))] /\
        (requests (trace s') = [] \/
         requests (trace s') = [manifest_request (self s)]) /\
        same_identity (self s) (self s'))
     (fun s' =>
        connections (trace s')
        = [(checkHOST (self s), to_uint16 (checkPORT (self s)))] /\
        requests (trace s') = [manifest_request (self s)] /\
        same_identity (self s) (self s')) s.
Proof.
  intros Hs. unfold execHTTPcheck, manifest_exchange, manifest_payload.
  repeat wp_step; rewrite Hs; endpoint_now;
    (split; [reflexivity |]); (split; [auto |]); repeat split.
Qed.

(** X8: Whatever the server answers, [execHTTPcheck] opens exactly one
    connection, to [checkHOST] and to [checkPORT] as [connect] receives it,
    cut to 16 bits, and prints at most one request, a GET for
    [checkRESOURCE] on [checkHOST]: neither the stored firmware target nor
    [useDeviceID] has any effect on what is asked.  The call changes no
    member of the object besides the firmware target. *)
Theorem check_asks_the_manifest_endpoint fuel s :
  trace s = [] ->
  let s' := final (execHTTPcheck C fuel s) in
  connections (trace s')
  = [(checkHOST (self s), to_uint16 (checkPORT (self s)))] /\
  (requests (trace s') = [] \/
   requests (trace s') = [manifest_request (self s)]) /\
  same_identity (self s) (self s').
Proof.
  intros Hs. cbv zeta. pose proof (execHTTPcheck_endpoint fuel s Hs) as H.
  unfold wp in H. destruct (execHTTPcheck C fuel s); cbn [final]; tauto.
Qed.

(** ** What the probe's answer decides *)

Lemma probe_requests fuel s :
  trace s = [] ->
  wp (probe C fuel)
     (fun r s1 => forall h, r = Some h ->
        requests (trace s1) = [probe_request (self s)])
     (fun _ => True) s.
Proof.
  intros Hs. unfold probe.
  repeat wp_step; try exact I; rewrite Hs; intros h0 E;
    first [discriminate E | endpoint_now; reflexivity].
Qed.

Lemma probe_unranged fuel s :
  trace s = [] ->
  wp (probe C fuel)
     (fun _ s' => forall q, In (EvPrint q) (trace s') -> req_range q = None)
     (fun s' => forall q, In (EvPrint q) (trace s') -> req_range q = None) s.
Proof.
  intros Hs. unfold probe.
  repeat wp_step; rewrite Hs; intros q Hq; in_cases Hq; try not_made Hq;
    injection Hq as <-; reflexivity.
Qed.

Lemma install_unranged fuel h s :
  Accept_Ranges_bytes h = false ->
  (forall q, In (EvPrint q) (trace s) -> req_range q = None) ->
  wp (install C fuel h)
     (fun _ s' => forall q, In (EvPrint q) (trace s') -> req_range q = None)
     (fun s' => forall q, In (EvPrint q) (trace s') -> req_range q = None) s.
Proof.
  intros Hranges Hold. unfold install, whole_file, finish.
  wp_all; intros q Hq; in_cases Hq; try not_made Hq;
    try (injection Hq as <-; reflexivity); auto.
Qed.

(** The calls of the installation: a [flush] alone, or [Update.begin] for
    the declared length and what follows it, which holds no second
    [begin]. *)
Lemma install_splits fuel h s :
  let P := fun s' : St (W:=W) =>
    trace s' = EvFlush :: trace s \/
    (contentLength h <> 0 /\ isValidContentType h = true /\
     exists post ok,
       trace s'
       = (post ++ EvUpdateBegin (to_uint (contentLength h)) ok
            :: trace s)%list /\
       Forall (fun e => negb (is_begin e) = true) post /\
       (ok = false -> post = [EvFlush])) in
  wp (install C fuel h) (fun _ s' => P s') P s.
Proof.
  intros P. subst P. unfold install.
  destruct (contentLength h =? 0) eqn:Hcl; cbn [negb andb];
    [apply wp_bind, wp_exec, wp_ret; left; reflexivity |].
  destruct (isValidContentType h) eqn:Hvalid;
    [| apply wp_bind, wp_exec, wp_ret; left; reflexivity].
  apply Z.eqb_neq in Hcl.
  apply wp_bind, wp_call. intros ok w _. destruct ok; cbv beta iota.
  - match goal with
    | |- wp ?m _ _ ?sb =>
        assert (Hrest : wp m
                  (fun _ s' => extends (fun e => negb (is_begin e)) sb s')
                  (extends (fun e => negb (is_begin e)) sb) sb)
          by (unfold whole_file, finish; wp_all; extends_now)
    end.
    eapply wp_mono; [exact Hrest | |]; cbv beta.
    + intros _ s' (post & Hpost & Hall). right.
      split; [assumption |]. split; [reflexivity |].
      exists post, true. cbn [trace] in Hpost.
      split; [exact Hpost |]. split; [exact Hall | discriminate].
    + intros s' (post & Hpost & Hall). right.
      split; [assumption |]. split; [reflexivity |].
      exists post, true. cbn [trace] in Hpost.
      split; [exact Hpost |]. split; [exact Hall | discriminate].
  - apply wp_bind, wp_exec, wp_ret. right.
    split; [assumption |]. split; [reflexivity |].
    exists [EvFlush], false. cbn [self world trace app].
    split; [reflexivity |]. split; [| reflexivity].
    constructor; [reflexivity | constructor].
Qed.

(** The run of [execOTA] around its [Update.begin]: the calls before it are
    those of the probe, whose headers are the scan of the lines read. *)
Lemma execOTA_splits fuel s size ok :
  trace s = [] ->
  In (EvUpdateBegin size ok) (trace (final (execOTA C fuel s))) ->
  exists h post pre,
    trace (final (execOTA C fuel s))
    = (post ++ EvUpdateBegin size ok :: pre)%list /\
    (ok = false -> post = [EvFlush]) /\
    requests pre = [probe_request (self s)] /\
    (forall q, In (EvPrint q) pre -> req_range q = None) /\
    scan probe_line no_headers (lines_read pre) = (h, []) /\
    contentLength h <> 0 /\ isValidContentType h = true /\
    size = to_uint (contentLength h) /\
    (Accept_Ranges_bytes h = false ->
     forall q, In (EvPrint q) (trace (final (execOTA C fuel s))) ->
               req_range q = None).
Proof.
  intros Hs. unfold execOTA, bind.
  pose proof (probe_exchanging fuel s) as Hp. unfold wp in Hp.
  pose proof (probe_unranged fuel s Hs) as Hu. unfold wp in Hu.
  destruct (probe C fuel s) as [[h |] s1 | s1] eqn:Hprobe.
  - destruct Hp as (_ & new & Hnew & Hall). rewrite Hs, app_nil_r in Hnew.
    assert (Hno : forall a b, ~ In (EvUpdateBegin a b) (trace s1)).
    { intros a b Hin. rewrite Hnew in Hin.
      pose proof (allowed_in _ _ _ Hall Hin) as X. discriminate X. }
    destruct (wp_ok _ _ _ _ _ _ (probe_scans fuel s) Hprobe _ eq_refl)
      as (ls & Hls & Hscan).
    rewrite Hs in Hls. cbn in Hls.
    pose proof (wp_ok _ _ _ _ _ _ (probe_requests fuel s Hs) Hprobe _ eq_refl)
      as Hreq.
    pose proof (install_splits fuel h s1) as Hi. cbv zeta in Hi.
    pose proof (fun Hr => install_unranged fuel h s1 Hr Hu) as Hr.
    unfold wp in Hi, Hr. intros Hin.
    assert (Hsplit :
              trace (final (install C fuel h s1)) = EvFlush :: trace s1 \/
              contentLength h <> 0 /\ isValidContentType h = true /\
              exists post ok',
                trace (final (install C fuel h s1))
                = (post ++ EvUpdateBegin (to_uint (contentLength h)) ok'
                     :: trace s1)%list /\
                Forall (fun e => negb (is_begin e) = true) post /\
                (ok' = false -> post = [EvFlush]))
      by (destruct (install C fuel h s1); exact Hi).
    assert (Hrange :
              Accept_Ranges_bytes h = false ->
              forall q, In (EvPrint q) (trace (final (install C fuel h s1))) ->
                        req_range q = None)
      by (intros Hf; specialize (Hr Hf);
          destruct (install C fuel h s1); exact Hr).
    destruct Hsplit
      as [Hflush | (Hcl & Hvalid & post & ok' & Hpost & Hnb & Hk)].
    + rewrite Hflush in Hin. destruct Hin as [Hin | Hin];
        [discriminate Hin | destruct (Hno _ _ Hin)].
    + rewrite Hpost in Hin. apply in_app_or in Hin.
      destruct Hin as [Hin | [Hin | Hin]].
      * pose proof (allowed_in _ _ _ Hnb Hin) as X. discriminate X.
      * injection Hin as <- <-.
        exists h, post, (trace s1). rewrite <- Hls in Hscan. auto 10.
      * destruct (Hno _ _ Hin).
  - cbn [final ret]. destruct Hp as (_ & new & Hnew & Hall).
    rewrite Hs, app_nil_r in Hnew. intros Hin. rewrite Hnew in Hin.
    pose proof (allowed_in _ _ _ Hall Hin) as X. discriminate X.
  - cbn [final]. destruct Hp as (_ & new & Hnew & Hall).
    rewrite Hs, app_nil_r in Hnew. intros Hin. rewrite Hnew in Hin.
    pose proof (allowed_in _ _ _ Hall Hin) as X. discriminate X.
Qed.

(** X2: [execOTA] calls [Update.begin] only after its HEAD probe, the one
    request made by then, was answered with an accepted status line, a
    [Content-Length] header and a [Content-type] header with the value
    [application/octet-stream]: these are among the lines read before the
    call, all of them lines of that answer.  The size it passes is the
    non-zero number that the [Content-Length] value converts to, as an
    unsigned 32-bit integer. *)
Theorem begin_only_for_declared_image fuel s size ok :
  trace s = [] ->
  In (EvUpdateBegin size ok) (trace (final (execOTA C fuel s))) ->
  exists post pre length,
    trace (final (execOTA C fuel s))
    = (post ++ EvUpdateBegin size ok :: pre)%list /\
    requests pre = [probe_request (self s)] /\
    declares "application/octet-stream" length (lines_read pre) /\
    length <> 0 /\ size = to_uint length.
Proof.
  intros Hs Hin.
  destruct (execOTA_splits fuel s size ok Hs Hin)
    as (h & post & pre & Htrace & _ & Hreq & _ & Hscan & Hcl & Hvalid & Hsize
        & _).
  exists post, pre, (contentLength h).
  split; [exact Htrace |]. split; [exact Hreq |].
  split; [| auto].
  eapply scanned_declares;
    [apply probe_line_effect | eassumption | assumption | assumption].
Qed.

Ltac find_behind :=
  repeat first [left; reflexivity | right | apply in_or_app; right].

Lemma execOTA_ranged_begun fuel s :
  trace s = [] ->
  let P := fun s' : St (W:=W) =>
    forall q, In (EvPrint q) (trace s') -> req_range q <> None ->
      exists size ok, In (EvUpdateBegin size ok) (trace s') in
  wp (execOTA C fuel) (fun _ s' => P s') P s.
Proof.
  intros Hs P. subst P.
  unfold execOTA, probe, install, whole_file, finish.
  wp_all; rewrite Hs; intros q Hq Hr; in_cases Hq; try not_made Hq;
    try (injection Hq as <-; destruct (Hr eq_refl));
    eexists _, _; find_behind.
Qed.

(** X9: [execOTA] asks for a byte range only after [Update.begin] has
    accepted the image and only when the answer to its HEAD probe, the one
    request made before [Update.begin], had an accepted status line and,
    after it, an [Accept-Ranges] header with the value [bytes]: nothing
    else selects the download in chunks. *)
Theorem ranged_download_only_when_advertised fuel s r :
  trace s = [] ->
  In r (requests (trace (final (execOTA C fuel s)))) ->
  req_range r <> None ->
  exists post size pre,
    trace (final (execOTA C fuel s))
    = (post ++ EvUpdateBegin size true :: pre)%list /\
    In (EvPrint r) post /\
    requests pre = [probe_request (self s)] /\
    advertises_ranges (lines_read pre).
Proof.
  intros Hs Hin Hr. apply requests_in in Hin.
  assert (Hb : exists size ok,
             In (EvUpdateBegin size ok) (trace (final (execOTA C fuel s)))).
  { pose proof (execOTA_ranged_begun fuel s Hs) as H.
    cbv zeta in H. unfold wp in H.
    destruct (execOTA C fuel s); cbn [final] in *; exact (H r Hin Hr). }
  destruct Hb as (size & ok & Hbegin).
  destruct (execOTA_splits fuel s size ok Hs Hbegin)
    as (h & post & pre & Htrace & Hrefused & Hreq & Hpre & Hscan & _ & _ & _
        & Hmode).
  destruct (Accept_Ranges_bytes h) eqn:Hranges;
    [| destruct (Hr (Hmode eq_refl _ Hin))].
  rewrite Htrace in Hin. apply in_app_or in Hin.
  destruct Hin as [Hin | [Hin | Hin]];
    [| discriminate Hin | destruct (Hr (Hpre _ Hin))].
  destruct ok.
  - exists post, size, pre. split; [exact Htrace |]. split; [exact Hin |].
    split; [exact Hreq |]. exact (scanned_advertises _ _ _ Hscan Hranges).
  - rewrite (Hrefused eq_refl) in Hin. destruct Hin as [Hin | []].
    discriminate Hin.
Qed.

Ltac find_in := cbn [In]; repeat first [left; reflexivity | right].

Lemma execOTA_streamed fuel s :
  trace s = [] ->
  wp (execOTA C fuel)
     (fun o s' =>
        forall total, In (EvUpdateWriteStream total) (trace s') ->
          (o = Restarted \/ o = NoReturnValue) /\
          exists ok, In (EvUpdateEnd ok) (trace s'))
     (fun _ => True) s.
Proof.
  intros Hs. unfold execOTA, probe, install, whole_file, finish.
  wp_all; try exact I; rewrite Hs; intros total Hin; in_cases Hin;
    try not_made Hin.
  all: split; [auto |]; eexists; find_in.
Qed.

(** X10: In the download in one go nothing compares the number of bytes that
    [writeStream] reports with the declared length: whenever [writeStream] was
    called and [execOTA] ends, it has called [Update.end], whatever that
    number is, and its outcome is never an explicit [false]. *)
Theorem stream_is_finalized_whatever_was_written fuel s o s' total :
  trace s = [] ->
  execOTA C fuel s = Ok o s' ->
  In (EvUpdateWriteStream total) (trace s') ->
  (exists ok, In (EvUpdateEnd ok) (trace s')) /\
  (o = Restarted \/ o = NoReturnValue).
Proof.
  intros Hs Hrun Hin.
  destruct (wp_ok _ _ _ _ _ _ (execOTA_streamed fuel s Hs) Hrun total Hin)
    as (Ho & Hend).
  split; assumption.
Qed.

(** ** The transport is used under the link guard *)

Lemma guarded_polling x tr :
  Forall (fun e => polling e = true) x ->
  guard tr = Some true -> guarded (x ++ tr) = guarded tr.
Proof.
  intros Hx Hg. induction Hx as [| e x He Hx IH]; [reflexivity |].
  cbn [app guarded]. rewrite IH, guard_polling, Hg by assumption.
  now rewrite orb_true_r.
Qed.

Ltac guarded_now :=
  repeat first
    [ progress cbn [guarded guard is_io negb orb andb self world trace]
    | rewrite guard_polling by eassumption
    | rewrite guarded_polling by (first [eassumption | guard_now])
    | match goal with H : guard _ = _ |- _ => rewrite H end
    | match goal with H : guarded _ = _ |- _ => rewrite H end ];
  try reflexivity.

Lemma chunk_iteration_guarded inner c s :
  _networkSemaphore (self s) = true ->
  guard (trace s) = Some false -> guarded (trace s) = true ->
  wp (chunk_iteration C inner c)
     (fun _ s' => self s' = self s /\ guard (trace s') = Some false /\
                  guarded (trace s') = true)
     (fun s' => guarded (trace s') = true) s.
Proof.
  intros Hsem Hg Hgd. unfold chunk_iteration.
  repeat wp_step; try (split; [reflexivity | split]); guarded_now.
Qed.

Lemma chunk_loop_guarded inner fuel c s :
  _networkSemaphore (self s) = true ->
  guard (trace s) = Some false -> guarded (trace s) = true ->
  wp (chunk_loop C inner fuel c)
     (fun _ s' => self s' = self s /\ guard (trace s') = Some false /\
                  guarded (trace s') = true)
     (fun s' => guarded (trace s') = true) s.
Proof.
  revert c s. induction fuel as [| fuel IH]; intros c s Hsem Hg Hgd;
    cbn [chunk_loop].
  - apply wp_out_of_fuel. exact Hgd.
  - destruct (remainig_bytes c >? 0).
    + apply wp_bind.
      eapply wp_mono;
        [apply chunk_iteration_guarded; assumption | | auto].
      cbv beta. intros c' s' (Hself & Hg' & Hgd').
      eapply wp_mono; [apply IH; congruence | | auto].
      cbv beta. intros ? ? (? & ? & ?). repeat split; congruence.
    + apply wp_ret. auto.
Qed.

Ltac wp_guarded_loop :=
  cbn [self world trace];
  lazymatch goal with
  | |- wp (chunk_loop _ _ _ _) _ _ _ =>
      eapply wp_mono;
      [ apply chunk_loop_guarded; [assumption | guarded_now | guarded_now]
      | let s' := fresh "s" in
        let H := fresh in
        let o := fresh "o" in
        let w := fresh "w" in
        let tr := fresh "tr" in
        intros ? s' H; cbv beta in H; destruct s' as [o w tr];
        destruct H as (? & ? & ?); cbn [self world trace] in *; subst
      | auto ]
  end.

Lemma execOTA_guarded fuel s :
  _networkSemaphore (self s) = true -> trace s = [] ->
  wp (execOTA C fuel)
     (fun _ s' => guarded (trace s') = true)
     (fun s' => guarded (trace s') = true) s.
Proof.
  intros Hsem Hs. unfold execOTA, probe, install, whole_file, finish.
  repeat first [wp_step | wp_guarded_loop]; rewrite ?Hs; guarded_now.
Qed.

Lemma execHTTPcheck_guarded fuel s :
  _networkSemaphore (self s) = true -> trace s = [] ->
  wp (execHTTPcheck C fuel)
     (fun _ s' => guarded (trace s') = true)
     (fun s' => guarded (trace s') = true) s.
Proof.
  intros Hsem Hs. unfold execHTTPcheck, manifest_exchange, manifest_payload.
  repeat wp_step; rewrite ?Hs; guarded_now.
Qed.

(** X11: With a network semaphore set, every [connect], [print], [available],
    [readStringUntil], [readBytes], [connected], [stop] and [writeStream] that
    [execOTA] and [execHTTPcheck] make is made while the semaphore is held, on
    every path and also in a run that is cut off. ([setTimeout] and [flush]
    are the calls on the client that are not covered.) *)
Theorem transport_used_under_guard fuel s :
  _networkSemaphore (self s) = true -> trace s = [] ->
  guarded (trace (final (execOTA C fuel s))) = true /\
  guarded (trace (final (execHTTPcheck C fuel s))) = true.
Proof.
  intros Hsem Hs. split.
  - pose proof (execOTA_guarded fuel s Hsem Hs) as H. unfold wp in H.
    destruct (execOTA C fuel s); exact H.
  - pose proof (execHTTPcheck_guarded fuel s Hsem Hs) as H. unfold wp in H.
    destruct (execHTTPcheck C fuel s); exact H.
Qed.

Lemma execOTA_flush_unguarded fuel s :
  trace s = [] ->
  wp (execOTA C fuel)
     (fun _ s' =>
        forall size, In (EvUpdateBegin size false) (trace s') ->
          exists older,
            trace s' = EvFlush :: older /\ guard older = Some false)
     (fun s' => forall size, ~ In (EvUpdateBegin size false) (trace s')) s.
Proof.
  intros Hs. unfold execOTA, probe, install, whole_file, finish.
  wp_all; rewrite Hs; intros size Hin; in_cases Hin; try not_made Hin.
  all: eexists; split; [reflexivity | guard_now].
Qed.

(** X12: When [Update.begin] refuses the image, the [flush] that [execOTA]
    then calls on the client, its last call, is made after the network
    semaphore was given back: this use of the shared client is not protected. *)
Theorem flush_after_refusal_is_unguarded fuel s size :
  trace s = [] ->
  In (EvUpdateBegin size false) (trace (final (execOTA C fuel s))) ->
  exists older,
    trace (final (execOTA C fuel s)) = EvFlush :: older /\
    guard older = Some false.
Proof.
  intros Hs Hin. pose proof (execOTA_flush_unguarded fuel s Hs) as H.
  unfold wp in H. destruct (execOTA C fuel s) as [o s' | s']; cbn in *.
  - exact (H size Hin).
  - destruct (H size Hin).
Qed.

(** ** The spans asked for *)

Lemma wp_conj {A} (m : M A) Q1 Q2 F1 F2 (s : St (W:=W)) :
  wp m Q1 F1 s -> wp m Q2 F2 s ->
  wp m (fun a s' => Q1 a s' /\ Q2 a s') (fun s' => F1 s' /\ F2 s') s.
Proof. unfold wp. destruct (m s); auto. Qed.

Lemma clip_chunk_span size c :
  size < 2 ^ 32 -> counters_ok size c -> 0 < remainig_bytes c -> last_ok c ->
  last_ok (clip_chunk c) /\
  chunk_last_byte (clip_chunk c)
  = chunk_first_byte c + bytes_to_read (clip_chunk c) - 1.
Proof.
  destruct c as [f l r t lw cl].
  unfold counters_ok, last_ok, clip_chunk, bytes_to_read, with_last_byte; cbn.
  intros Hsize (Hsum & Hf & Ht & Hr & Hspan) Hpos Hl.
  destruct (Z.ltb_spec r DOWNLOAD_CHUNK_SIZE); cbn;
    match goal with
    | |- context [?a >? ?b] => destruct (Z.gtb_spec a b)
    end; cbn; split; uint_arith.
Qed.

Lemma last_ok_advance w c : last_ok (advance w c).
Proof. unfold last_ok, advance; cbn. apply Z.mod_pos_bound. lia. Qed.

Lemma within_polling size x tr :
  Forall (fun e => polling e = true) x ->
  within size (x ++ tr) = within size tr.
Proof.
  induction 1 as [| e x He _ IH]; [reflexivity |].
  cbn [app]. destruct e; try discriminate; cbn [within]; exact IH.
Qed.

Ltac within_now :=
  repeat first
    [ progress cbn [within self world trace req_range]
    | rewrite within_polling by eassumption ].

Lemma chunk_iteration_within inner size c s :
  size < 2 ^ 32 -> counters_ok size c -> 0 < remainig_bytes c ->
  last_ok c -> within size (trace s) ->
  wp (chunk_iteration C inner c)
     (fun c' s' => last_ok c' /\ within size (trace s'))
     (fun s' => within size (trace s')) s.
Proof.
  intros Hsize Hok Hpos Hl Hin.
  destruct (clip_chunk_ok size c Hsize Hok Hpos) as (Hclip & Hspan & Hf & Ht).
  destruct (clip_chunk_span size c Hsize Hok Hpos Hl) as (Hl' & Hlast).
  destruct Hclip as (_ & _ & _ & _ & Hmax).
  destruct Hok as (Hsum & Hfirst & Hlo & _ & _).
  unfold chunk_iteration.
  repeat wp_step; within_now;
    try (split; [first [assumption | apply last_ok_advance] |]);
    try assumption.
  all: try change (bytes_to_read (with_should_close ?b (clip_chunk c)))
         with (bytes_to_read (clip_chunk c)).
  all: repeat split; try assumption; lia.
Qed.

Section Spans.

Hypothesis transport_ok : transport_contract C.
Hypothesis sink_ok : sink_contract C.

Lemma chunk_loop_spans_from inner fuel size c s :
  size < 2 ^ 32 -> counters_ok size c ->
  total_written_bytes c = acknowledged (trace s) -> aligned (trace s) ->
  last_ok c -> within size (trace s) ->
  wp (chunk_loop C inner fuel c)
     (fun _ s' => within size (trace s') /\ acknowledged (trace s') = size)
     (fun s' => within size (trace s')) s.
Proof.
  intros Hsize. revert c s.
  induction fuel as [| fuel IH]; intros c s Hok Hack Hal Hl Hin;
    cbn [chunk_loop].
  - apply wp_out_of_fuel. exact Hin.
  - destruct (Z.gtb_spec (remainig_bytes c) 0) as [Hpos | Hdone].
    + apply wp_bind.
      eapply wp_mono;
        [ apply wp_conj;
          [ apply (chunk_iteration_counters transport_ok sink_ok inner size
                     c s Hsize Hok Hpos Hack Hal)
          | apply (chunk_iteration_within inner size c s Hsize Hok Hpos Hl
                     Hin) ]
        | | ].
      * cbv beta. intros c' s' ((Hok' & Hack' & Hal' & _) & Hl' & Hin').
        now apply IH.
      * cbv beta. tauto.
    + apply wp_ret. split; [exact Hin |].
      destruct Hok as (Hsum & _ & _ & Hrem & _). lia.
Qed.

Lemma chunk_loop_spans inner fuel contentLength s :
  acknowledged (trace s) = 0 -> aligned (trace s) ->
  within (to_uint contentLength) (trace s) ->
  wp (chunk_loop C inner fuel (first_chunk contentLength))
     (fun _ s' => within (to_uint contentLength) (trace s') /\
                  acknowledged (trace s') = to_uint contentLength)
     (fun s' => within (to_uint contentLength) (trace s')) s.
Proof.
  intros Hack Hal Hin. apply chunk_loop_spans_from; try assumption.
  - apply Z.mod_pos_bound. lia.
  - apply first_chunk_ok.
  - now rewrite Hack.
  - unfold last_ok, first_chunk, DOWNLOAD_CHUNK_SIZE; cbn. lia.
Qed.

Ltac wp_spans_loop Hs :=
  cbn [self world trace];
  lazymatch goal with
  | |- wp (chunk_loop _ _ _ (first_chunk ?cl)) _ _ _ =>
      eapply wp_mono;
      [ apply wp_conj;
        [ apply chunk_loop_chunking
        | apply (chunk_loop_spans _ _ cl);
          rewrite ?Hs; trace_now; within_now;
          first [reflexivity | tauto] ]
      | intros ? ? [? [? ?]]; absorb
      | intros ? [? ?]; absorb ]
  end.

Lemma execOTA_spans fuel s :
  trace s = [] ->
  let P := fun s' : St (W:=W) =>
    forall size ok, In (EvUpdateBegin size ok) (trace s') ->
      within size (trace s') /\
      (forall ok', In (EvUpdateEnd ok') (trace s') ->
         (forall n, ~ In (EvUpdateWriteStream n) (trace s')) ->
         acknowledged (trace s') = size) in
  wp (execOTA C fuel) (fun _ s' => P s') P s.
Proof.
  intros Hs P. subst P.
  unfold execOTA, probe, install, whole_file, finish.
  repeat first [wp_step | wp_spans_loop Hs].
  all: rewrite ?Hs in *; intros size ok Hin; in_cases Hin;
    try not_made Hin; try (injection Hin as <- <-).
  all: split;
    [ within_now; first [assumption | tauto]
    | intros ok' Hend Hno; in_cases Hend; try not_made Hend;
      first [ trace_now; assumption
            | exfalso; eapply Hno; find_in ] ].
Qed.

(** X13: With a transport that stores at most the bytes asked for and a sink
    that acknowledges at most the bytes handed to it, every ranged request of
    [execOTA] asks for a non-empty span of at most [DOWNLOAD_CHUNK_SIZE] bytes
    that lies inside the image size given to [Update.begin], and every
    [readBytes] of the installation asks for between one and
    [DOWNLOAD_CHUNK_SIZE] bytes, which fit the chunk buffer. *)
Theorem spans_fit_image_and_buffer fuel s size ok :
  trace s = [] ->
  In (EvUpdateBegin size ok) (trace (final (execOTA C fuel s))) ->
  within size (trace (final (execOTA C fuel s))).
Proof.
  intros Hs Hin. pose proof (execOTA_spans fuel s Hs) as H.
  cbv zeta in H. unfold wp in H.
  destruct (execOTA C fuel s); cbn [final] in *; now apply (H size ok).
Qed.

(** X14: Under the same two assumptions, when [execOTA] downloads in chunks it
    calls [Update.end] only after the sink has acknowledged exactly the image
    size given to [Update.begin]. *)
Theorem chunked_update_ends_complete fuel s size ok ok' :
  trace s = [] ->
  In (EvUpdateBegin size ok) (trace (final (execOTA C fuel s))) ->
  In (EvUpdateEnd ok') (trace (final (execOTA C fuel s))) ->
  (forall n, ~ In (EvUpdateWriteStream n)
                  (trace (final (execOTA C fuel s)))) ->
  acknowledged (trace (final (execOTA C fuel s))) = size.
Proof.
  intros Hs Hin Hend Hno. pose proof (execOTA_spans fuel s Hs) as H.
  cbv zeta in H. unfold wp in H.
  destruct (execOTA C fuel s); cbn [final] in *;
    destruct (H size ok Hin) as [_ H']; eauto.
Qed.

End Spans.

(** ** What one pass does to the counters *)




(** ** The plan when every chunk is delivered in full *)

Lemma delivered_next size k c close :
  0 <= k -> (k + 1) * DOWNLOAD_CHUNK_SIZE < size < 2 ^ 32 ->
  planned size k c -> planned size (k + 1) (delivered c close).
Proof.
  destruct c as [f l r t lw cl].
  unfold planned, delivered, pass, advance, shrink_to_read, bytes_to_read,
    with_should_close, clip_chunk, with_last_byte; cbn.
  intros Hk Hsize (-> & -> & -> & ->).
  destruct (Z.ltb_spec (size - k * DOWNLOAD_CHUNK_SIZE) DOWNLOAD_CHUNK_SIZE);
    [unfold DOWNLOAD_CHUNK_SIZE in *; lia |].
  cbn.
  match goal with
  | |- context [?a >? ?b] => destruct (Z.gtb_spec a b)
  end; [exfalso; uint_arith |].
  cbn. rewrite Z.eqb_refl. cbn. repeat split; uint_arith.
Qed.

Lemma delivered_last size k c close :
  0 <= k ->
  k * DOWNLOAD_CHUNK_SIZE < size <= (k + 1) * DOWNLOAD_CHUNK_SIZE ->
  size < 2 ^ 32 -> planned size k c ->
  remainig_bytes (delivered c close) = 0 /\
  total_written_bytes (delivered c close) = size.
Proof.
  destruct c as [f l r t lw cl].
  unfold planned, delivered, pass, advance, shrink_to_read, bytes_to_read,
    with_should_close, clip_chunk, with_last_byte; cbn.
  intros Hk Hsize Hmax (-> & -> & -> & ->).
  destruct (Z.ltb_spec (size - k * DOWNLOAD_CHUNK_SIZE) DOWNLOAD_CHUNK_SIZE);
    cbn;
    match goal with
    | |- context [?a >? ?b] => destruct (Z.gtb_spec a b)
    end; cbn; rewrite ?Z.eqb_refl; cbn; try (exfalso; uint_arith);
    split; uint_arith.
Qed.

Lemma planned_request size k c :
  0 <= k -> k * DOWNLOAD_CHUNK_SIZE < size < 2 ^ 32 -> planned size k c ->
  chunk_first_byte (clip_chunk c) = k * DOWNLOAD_CHUNK_SIZE /\
  chunk_last_byte (clip_chunk c)
  = Z.min ((k + 1) * DOWNLOAD_CHUNK_SIZE) size - 1 /\
  bytes_to_read (clip_chunk c)
  = Z.min DOWNLOAD_CHUNK_SIZE (size - k * DOWNLOAD_CHUNK_SIZE).
Proof.
  destruct c as [f l r t lw cl].
  unfold planned, bytes_to_read, clip_chunk, with_last_byte; cbn.
  intros Hk Hsize (-> & -> & -> & ->).
  destruct (Z.ltb_spec (size - k * DOWNLOAD_CHUNK_SIZE) DOWNLOAD_CHUNK_SIZE);
    cbn;
    match goal with
    | |- context [?a >? ?b] => destruct (Z.gtb_spec a b)
    end; cbn; try (exfalso; uint_arith); repeat split; uint_arith.
Qed.

Lemma planned_after size closes :
  Z.of_nat (List.length closes) * DOWNLOAD_CHUNK_SIZE < size < 2 ^ 32 ->
  planned size (Z.of_nat (List.length closes))
    (fold_left delivered closes (first_chunk size)).
Proof.
  induction closes as [| close closes IH] using rev_ind.
  - cbn. intros Hsize. unfold planned, first_chunk; cbn.
    repeat split; try lia. uint_arith.
  - rewrite length_app, fold_left_app. cbn [List.length fold_left].
    rewrite Nat2Z.inj_add. change (Z.of_nat 1) with 1. intros Hsize.
    apply delivered_next; [lia | assumption |].
    apply IH. unfold DOWNLOAD_CHUNK_SIZE in *. lia.
Qed.

(** X16: The plan of the chunk loop for an image of any size below 2^32, when
    every pass is delivered in full: the request of pass [k] (from 0) asks for
    the bytes from [k * DOWNLOAD_CHUNK_SIZE] to [min ((k + 1) *
    DOWNLOAD_CHUNK_SIZE, size) - 1], the read after it asks for as many bytes,
    and after the pass that reaches the size nothing remains, so the loop ends
    after ceil (size / DOWNLOAD_CHUNK_SIZE) passes. *)
Theorem plan_of_full_delivery size closes :
  0 < size < 2 ^ 32 ->
  let k := Z.of_nat (List.length closes) in
  let c := fold_left delivered closes (first_chunk size) in
  (k * DOWNLOAD_CHUNK_SIZE < size ->
   chunk_first_byte (clip_chunk c) = k * DOWNLOAD_CHUNK_SIZE /\
   chunk_last_byte (clip_chunk c)
   = Z.min ((k + 1) * DOWNLOAD_CHUNK_SIZE) size - 1 /\
   bytes_to_read (clip_chunk c)
   = Z.min DOWNLOAD_CHUNK_SIZE (size - k * DOWNLOAD_CHUNK_SIZE) /\
   0 < remainig_bytes c) /\
  ((k - 1) * DOWNLOAD_CHUNK_SIZE < size <= k * DOWNLOAD_CHUNK_SIZE ->
   remainig_bytes c = 0 /\ total_written_bytes c = size).
Proof.
  intros Hsize. cbv zeta. split.
  - intros Hk.
    pose proof (planned_after size closes (conj Hk (proj2 Hsize))) as Hp.
    destruct (planned_request size _ _ (Nat2Z.is_nonneg _)
                (conj Hk (proj2 Hsize)) Hp) as (? & ? & ?).
    destruct Hp as (_ & _ & Hrem & _). repeat split; try assumption. lia.
  - destruct closes as [| close closes _] using rev_ind.
    + cbn. unfold DOWNLOAD_CHUNK_SIZE. lia.
    + rewrite length_app, fold_left_app. cbn [List.length fold_left].
      rewrite Nat2Z.inj_add. change (Z.of_nat 1) with 1.
      replace (Z.of_nat (List.length closes) + 1 - 1)
        with (Z.of_nat (List.length closes)) by lia.
      intros Hk.
      apply (delivered_last size (Z.of_nat (List.length closes)));
        [lia | lia | lia |].
      apply planned_after. lia.
Qed.

(** ** A negative Content-Length *)

(** X17: The length guard of [execHTTPcheck] compares the signed
    [contentLength] with 256, so a manifest response that declares a negative
    length and the manifest content type passes it: [readBytes] is then asked
    to store [contentLength + 2^32] bytes, at least 2^31, into the 256 bytes
    of [JSONMessage]. *)
Theorem negative_length_passes_the_guard fuel s h s1 :
  trace s = [] ->
  manifest_exchange C fuel s = Ok (Some h) s1 ->
  LONG_MIN <= contentLength h < 0 ->
  isValidContentType h = true ->
  let n := contentLength h + 2 ^ 32 in
  let data := fst (client_readBytes C n (world s1)) in
  exists r s2,
    execHTTPcheck C fuel s = Ok r s2 /\
    reads (trace s2) = [(n, data)] /\
    2 ^ 31 <= n /\ Z.of_nat JSON_BUFFER_SIZE < n.
Proof.
  intros Hs Hx Hlen Hvalid n data.
  pose proof (wp_ok _ _ _ _ _ _ (manifest_exchange_events fuel s) Hx)
    as (Hself & new & Ht & Hnew).
  rewrite Hs, app_nil_r in Ht.
  assert (Hn : to_uint (contentLength h) = n).
  { unfold LONG_MIN in Hlen. subst n. uint_arith. }
  unfold execHTTPcheck, bind at 1. rewrite Hx. unfold manifest_payload.
  destruct (Z.gtb_spec (contentLength h) 256) as [Hbig | _]; [lia |].
  destruct (Z.eqb_spec (contentLength h) 0) as [Hzero | _]; [lia |].
  rewrite Hvalid. cbn [negb andb]. rewrite Hn.
  unfold bind at 1, call at 1.
  destruct (client_readBytes C n (world s1)) as [d w] eqn:Hread.
  cbn [fst] in data. subst data.
  unfold bind, exec, pure_call, assign, _blockingNetworkSemaphoreGive,
    bind, this, exec, ret.
  cbn [self world trace].
  destruct (_networkSemaphore (self s1));
    destruct (deserializeJson C (store_bytes JSON_BUFFER_SIZE d)) eqn:Hdoc;
    cbn [self world trace];
    repeat match goal with
           | |- context [if ?b then _ else _] => destruct b
           end;
    do 2 eexists; (split; [reflexivity |]); cbn [trace];
    rewrite Ht; cbn [reads flat_map app]; rewrite ?Hdoc;
    (split; [fold (reads new); now rewrite reads_exchanging |]);
    unfold JSON_BUFFER_SIZE, LONG_MIN in *; subst n; cbn; lia.
Qed.

(** ** The timeout across the wrap of the clock *)

(** X18: The wait for an answer measures the time from [timeout] modulo 2^32:
    when nothing is available and [millis] answers the value the 32-bit clock
    shows [d] milliseconds after [timeout], the loop gives up exactly when [d]
    exceeds [CLIENT_TIMEOUT_MS], also when the clock wrapped around in
    between, and polls again otherwise. *)
Theorem wait_times_out_across_wrap fuel timeout d s w w' :
  0 <= d < 2 ^ 32 ->
  client_available C (world s) = (0, w) ->
  millis C w = (to_uint (timeout + d), w') ->
  let s' := {| self := self s; world := w';
               trace := EvMillis (to_uint (timeout + d))
                          :: EvAvailable 0 :: trace s |} in
  wait_available C (S fuel) timeout s
  = if d >? CLIENT_TIMEOUT_MS then Ok false s'
    else wait_available C fuel timeout s'.
Proof.
  intros Hd Hav Hnow. cbv zeta. cbn [wait_available].
  unfold bind at 1, call at 1. rewrite Hav. cbn [Z.eqb].
  unfold bind at 1, call at 1. cbn [world]. rewrite Hnow.
  replace (to_uint (to_uint (timeout + d) - timeout)) with d
    by uint_arith.
  cbn [self world trace]. destruct (d >? CLIENT_TIMEOUT_MS); reflexivity.
Qed.

(** ** The body is fetched only for an accepted image *)

Lemma begun_more x tr : begun tr = true -> begun (x ++ tr) = true.
Proof.
  intros H. unfold begun in *. rewrite existsb_app, H. apply orb_true_r.
Qed.

Lemma body_after_begin_begun x tr :
  begun tr = true -> body_after_begin (x ++ tr) = body_after_begin tr.
Proof.
  intros H. induction x as [| e x IH]; [reflexivity |].
  cbn [app body_after_begin]. rewrite IH, (begun_more x tr H).
  now rewrite orb_true_r.
Qed.

Lemma body_after_begin_polling x tr :
  Forall (fun e => polling e = true) x ->
  body_after_begin (x ++ tr) = body_after_begin tr.
Proof.
  induction 1 as [| e x He _ IH]; [reflexivity |].
  cbn [app body_after_begin]. rewrite IH.
  destruct e; try discriminate; reflexivity.
Qed.

Ltac body_now :=
  repeat first
    [ progress cbn [body_after_begin begun existsb orb andb negb app
                    req_method self world trace]
    | rewrite body_after_begin_polling by eassumption
    | rewrite body_after_begin_begun
        by (cbn [begun existsb orb]; reflexivity)
    | progress change (String.eqb "HEAD" "GET") with false
    | progress change (String.eqb "GET" "GET") with true ];
  try reflexivity.

Lemma execOTA_body_after_begin fuel s :
  trace s = [] ->
  wp (execOTA C fuel)
     (fun _ s' => body_after_begin (trace s') = true)
     (fun s' => body_after_begin (trace s') = true) s.
Proof.
  intros Hs. unfold execOTA, probe, install, whole_file, finish.
  wp_all; rewrite Hs; body_now.
Qed.

(** X23: On every path of [execOTA], also in a run that is cut off, each
    GET request and each [readBytes] is made after [Update.begin] has
    answered [true]: before the sink has accepted the image size, the only
    request is the HEAD probe and no payload is read. *)
Theorem body_fetched_only_after_begin fuel s :
  trace s = [] ->
  body_after_begin (trace (final (execOTA C fuel s))) = true.
Proof.
  intros Hs. pose proof (execOTA_body_after_begin fuel s Hs) as H.
  unfold wp in H. destruct (execOTA C fuel s); exact H.
Qed.

End Logic.

(** ** The fake honours the collaborators' contracts *)

Lemma fake_transport_ok cfg : transport_contract (Fake.collab cfg).
Proof.
  intros n w Hn. cbn. rewrite length_firstn. lia.
Qed.

Lemma fake_sink_ok cfg : sink_contract (Fake.collab cfg).
Proof.
  intros data w. cbn. lia.
Qed.

Lemma same_bytes_eq a b : Fake.same_bytes a b = true -> a = b.
Proof.
  revert b. induction a as [| x a IH]; intros [| y b]; cbn;
    try discriminate; [reflexivity |].
  intros H. apply andb_true_iff in H. destruct H as [Hx Hab].
  apply Byte.byte_dec_bl in Hx. subst y. f_equal. auto.
Qed.

(** ** The claims on concrete sessions *)

(** C1: against the fake server with a 40,000-byte image, range support and
    full chunks, whether or not it keeps the connection alive, and with any
    loop budget of at least 16, [execOTA] prints the HEAD probe and then
    exactly three ranged GETs, for the bytes 0-16379, 16380-32759 and
    32760-39999; 40,000 bytes are handed to the sink, which acknowledges them
    all and ends up holding the image. *)
Theorem three_ranged_requests (keep : bool) (fuel : nat) :
  (16 <= fuel)%nat ->
  let cfg := Sessions.chunked keep in
  let run := execOTA (Fake.collab cfg) fuel (Fake.start cfg) in
  result run = Some Restarted /\
  requests (trace (final run))
  = [Sessions.head_request;
     Sessions.ranged_request 0 16379;
     Sessions.ranged_request 16380 32759;
     Sessions.ranged_request 32760 39999] /\
  handed (trace (final run)) = 40000 /\
  acknowledged (trace (final run)) = 40000 /\
  Fake.sink (world (final run)) = Fake.generated 40000.
Proof.
  intros Hfuel. cbv zeta.
  rewrite (same_run (execOTA (Fake.collab (Sessions.chunked keep))) 16 fuel
             _ Restarted (execOTA_mono _) Hfuel)
    by (destruct keep; vm_compute; reflexivity).
  destruct keep;
    (split; [vm_compute; reflexivity |]);
    (split; [vm_compute; reflexivity |]);
    (split; [vm_compute; reflexivity |]);
    (split; [vm_compute; reflexivity |]);
    apply same_bytes_eq; vm_compute; reflexivity.
Qed.

Lemma three_ranged_requests_witness :
  let cfg := Sessions.chunked true in
  let run := execOTA (Fake.collab cfg) 20 (Fake.start cfg) in
  (16 <= 20)%nat /\
  result run = Some Restarted /\
  requests (trace (final run))
  = [Sessions.head_request;
     Sessions.ranged_request 0 16379;
     Sessions.ranged_request 16380 32759;
     Sessions.ranged_request 32760 39999] /\
  handed (trace (final run)) = 40000 /\
  acknowledged (trace (final run)) = 40000 /\
  Fake.sink (world (final run)) = Fake.generated 40000.
Proof.
  cbv zeta.
  assert (Hfuel : (16 <= 20)%nat) by lia.
  split; [exact Hfuel | exact (three_ranged_requests true 20 Hfuel)].
Defined.

(** C3, evaluated where the code departs from it: when the server answers
    the first ranged GET with 404, [execOTA], with any loop budget of at
    least 16, does not end the session; it reconnects, asks for the same
    bytes again and goes on to install the image. *)
Theorem non_206_status_is_retried (fuel : nat) :
  (16 <= fuel)%nat ->
  let cfg := Sessions.rejecting in
  let run := execOTA (Fake.collab cfg) fuel (Fake.start cfg) in
  result run = Some Restarted /\
  status_lines (trace (final run))
  = ["HTTP/1.1 200 OK"; "HTTP/1.1 404 Not Found";
     "HTTP/1.1 206 Partial Content"; "HTTP/1.1 206 Partial Content";
     "HTTP/1.1 206 Partial Content"]%string /\
  requests (trace (final run))
  = [Sessions.head_request;
     Sessions.ranged_request 0 16379;
     Sessions.ranged_request 0 16379;
     Sessions.ranged_request 16380 32759;
     Sessions.ranged_request 32760 39999].
Proof.
  intros Hfuel. cbv zeta.
  rewrite (same_run (execOTA (Fake.collab Sessions.rejecting)) 16 fuel
             _ Restarted (execOTA_mono _) Hfuel)
    by (vm_compute; reflexivity).
  vm_compute. repeat split; reflexivity.
Qed.

Lemma non_206_status_is_retried_witness :
  let cfg := Sessions.rejecting in
  let run := execOTA (Fake.collab cfg) 20 (Fake.start cfg) in
  (16 <= 20)%nat /\
  result run = Some Restarted /\
  status_lines (trace (final run))
  = ["HTTP/1.1 200 OK"; "HTTP/1.1 404 Not Found";
     "HTTP/1.1 206 Partial Content"; "HTTP/1.1 206 Partial Content";
     "HTTP/1.1 206 Partial Content"]%string /\
  requests (trace (final run))
  = [Sessions.head_request;
     Sessions.ranged_request 0 16379;
     Sessions.ranged_request 0 16379;
     Sessions.ranged_request 16380 32759;
     Sessions.ranged_request 32760 39999].
Proof.
  cbv zeta.
  assert (Hfuel : (16 <= 20)%nat) by lia.
  split; [exact Hfuel | exact (non_206_status_is_retried 20 Hfuel)].
Defined.

Lemma result_final {W A} (r : Res (W:=W) A) a :
  result r = Some a -> r = Ok a (final r).
Proof.
  destruct r as [a' s | s]; cbn; intros E; [| discriminate E].
  injection E as ->. reflexivity.
Qed.

Lemma execOTA_returns_no_value_after_end_witness :
  let C := Fake.collab Sessions.corrupt in
  let s := Fake.start Sessions.corrupt in
  let s' := final (execOTA C 16 s) in
  trace s = [] /\
  execOTA C 16 s = Ok NoReturnValue s' /\
  (NoReturnValue = NoReturnValue <->
   In (EvUpdateEnd false) (trace s') \/
   In (EvUpdateIsFinished false) (trace s')) /\
  (forall b, NoReturnValue = Returned b ->
     b = false /\ forall ok, ~ In (EvUpdateEnd ok) (trace s')) /\
  (forall h p b c,
     forceUpdate C h p b c 16 s
     = discard (execOTA C 16 (retarget h p b c s))).
Proof.
  cbv zeta.
  assert (R : result (execOTA (Fake.collab Sessions.corrupt) 16
                        (Fake.start Sessions.corrupt))
              = Some NoReturnValue) by (vm_compute; reflexivity).
  pose proof (result_final _ _ R) as E.
  split; [reflexivity | split; [exact E |]].
  exact (execOTA_returns_no_value_after_end (Fake.collab Sessions.corrupt) 16
           (Fake.start Sessions.corrupt) _ _ eq_refl E).
Defined.

Lemma chunk_counters_invariant_witness :
  let C := Fake.collab Sessions.tiny in
  let s0 := Fake.start Sessions.tiny in
  match chunk_loop C 8 8 (first_chunk 10) s0 with
  | Ok c s =>
      boundary C 8 (first_chunk 10) s0 c s /\
      total_written_bytes c + remainig_bytes c = to_uint 10 /\
      chunk_first_byte c = total_written_bytes c /\
      0 <= total_written_bytes c <= to_uint 10 /\
      total_written_bytes c = acknowledged (trace s) /\
      aligned (trace s) /\
      (forall c' s',
         0 < remainig_bytes c -> chunk_iteration C 8 c s = Ok c' s' ->
         total_written_bytes c <= total_written_bytes c' /\
         chunk_first_byte c' - chunk_first_byte c
         = acknowledged (trace s') - acknowledged (trace s))
  | OutOfFuel _ => False
  end.
Proof.
  cbv zeta.
  destruct (chunk_loop (Fake.collab Sessions.tiny) 8 8 (first_chunk 10)
              (Fake.start Sessions.tiny)) as [c s | s] eqn:E.
  - assert (B : boundary (Fake.collab Sessions.tiny) 8 (first_chunk 10)
                  (Fake.start Sessions.tiny) c s).
    { eapply chunk_loop_boundary; [apply boundary_first | exact E]. }
    split; [exact B |].
    apply (chunk_counters_invariant (Fake.collab Sessions.tiny)
             (fake_transport_ok _) (fake_sink_ok _) 8 10
             (Fake.start Sessions.tiny) c s);
      [reflexivity | exact I | exact B].
  - vm_compute in E. discriminate E.
Defined.

Lemma guard_released_on_every_exit_witness :
  let C := Fake.collab (Sessions.chunked true) in
  let s := Fake.start (Sessions.chunked true) in
  guard (trace s) = Some false /\
  match execOTA C 16 s with
  | Ok _ s' => guard (trace s') = Some false
  | OutOfFuel s' => guard (trace s') <> None
  end /\
  match execHTTPcheck C 16 s with
  | Ok _ s' => guard (trace s') = Some false
  | OutOfFuel s' => guard (trace s') <> None
  end.
Proof.
  cbv zeta. split; [reflexivity |].
  apply (guard_released_on_every_exit (Fake.collab (Sessions.chunked true)) 16
           (Fake.start (Sessions.chunked true))).
  reflexivity.
Defined.

Lemma check_compares_type_and_version_witness :
  let C := Fake.collab Sessions.older_manifest in
  let s := Fake.start Sessions.older_manifest in
  let s' := final (Sessions.checked Sessions.older_manifest) in
  execHTTPcheck C 16 s = Ok false s' /\
  (forall doc, parsed s' = Some doc ->
     (false = true <->
      WString.of_cstr (j_type doc) = _firwmareType (self s) /\
      _firwmareVersion (self s) < j_version doc)) /\
  (parsed s' = None -> false = false) /\
  (forall h p b c fuel',
     forceUpdate C h p b c fuel' s
     = discard (execOTA C fuel' (retarget h p b c s))).
Proof.
  cbv zeta.
  assert (E : execHTTPcheck (Fake.collab Sessions.older_manifest) 16
                (Fake.start Sessions.older_manifest)
              = Ok false (final (Sessions.checked Sessions.older_manifest)))
    by (vm_compute; reflexivity).
  split; [exact E |].
  exact (check_compares_type_and_version _ _ _ _ _ E).
Defined.

Lemma refused_begin_no_body_request_witness :
  let C := Fake.collab Sessions.no_space in
  let s := Fake.start Sessions.no_space in
  trace s = [] /\
  In (EvUpdateBegin 64 false) (trace (final (execOTA C 16 s))) /\
  result (execOTA C 16 s) = Some (Returned false) /\
  (exists older,
      trace (final (execOTA C 16 s))
      = EvFlush :: EvUpdateBegin 64 false :: older) /\
  (forall q, In (EvPrint q) (trace (final (execOTA C 16 s))) ->
             req_method q = "HEAD"%string).
Proof.
  cbv zeta.
  assert (Hin : In (EvUpdateBegin 64 false)
                  (trace (final (execOTA (Fake.collab Sessions.no_space) 16
                                   (Fake.start Sessions.no_space)))))
    by (vm_compute; right; left; reflexivity).
  split; [reflexivity | split; [exact Hin |]].
  exact (refused_begin_no_body_request (Fake.collab Sessions.no_space) 16
           (Fake.start Sessions.no_space) 64 eq_refl Hin).
Defined.

Lemma oversized_manifest_not_read_witness :
  let C := Fake.collab Sessions.oversized_manifest in
  let s := Fake.start Sessions.oversized_manifest in
  let h :=
    Sessions.headers_of (Sessions.exchanged Sessions.oversized_manifest) in
  let s1 := final (Sessions.exchanged Sessions.oversized_manifest) in
  trace s = [] /\
  manifest_exchange C 16 s = Ok (Some h) s1 /\
  256 < contentLength h /\
  exists s2,
    execHTTPcheck C 16 s = Ok false s2 /\
    forall n d, ~ In (EvReadBytes n d) (trace s2).
Proof.
  cbv zeta.
  assert (E : manifest_exchange (Fake.collab Sessions.oversized_manifest) 16
                (Fake.start Sessions.oversized_manifest)
              = Ok (Some (Sessions.headers_of
                            (Sessions.exchanged Sessions.oversized_manifest)))
                  (final (Sessions.exchanged Sessions.oversized_manifest)))
    by (vm_compute; reflexivity).
  assert (L : 256 < contentLength
                      (Sessions.headers_of
                         (Sessions.exchanged Sessions.oversized_manifest)))
    by (vm_compute; reflexivity).
  split; [reflexivity | split; [exact E | split; [exact L |]]].
  exact (oversized_manifest_not_read
           (Fake.collab Sessions.oversized_manifest) 16
           (Fake.start Sessions.oversized_manifest) _ _ eq_refl E L).
Defined.

Lemma check_overwrites_target_witness :
  let C := Fake.collab Sessions.older_manifest in
  let s := Fake.start Sessions.older_manifest in
  let s' := final (Sessions.checked Sessions.older_manifest) in
  execHTTPcheck C 16 s = Ok false s' /\
  (exists buf,
     In (EvDeserializeJson buf (Some Sessions.older_doc)) (trace s')) /\
  (forall h s1, manifest_exchange C 16 s = Ok h s1 ->
                _port (self s1) = 80) /\
  ((forall buf doc,
      In (EvDeserializeJson buf (Some doc)) (trace s') ->
      _host (self s') = WString.of_cstr (j_host doc) /\
      _bin (self s') = WString.of_cstr (j_bin doc) /\
      _port (self s') = j_port doc /\
      _checksum (self s') = WString.of_cstr (j_checksum doc)) /\
   ((forall buf doc,
       ~ In (EvDeserializeJson buf (Some doc)) (trace s')) ->
    false = false /\
    _port (self s') = 80 /\
    _host (self s') = _host (self s) /\
    _bin (self s') = _bin (self s) /\
    _checksum (self s') = _checksum (self s))) /\
  match parsed s' with
  | Some doc =>
      _host (self s') = WString.of_cstr (j_host doc) /\
      _bin (self s') = WString.of_cstr (j_bin doc) /\
      _port (self s') = j_port doc /\
      _checksum (self s') = WString.of_cstr (j_checksum doc)
  | None =>
      false = false /\
      _port (self s') = 80 /\
      _host (self s') = _host (self s) /\
      _bin (self s') = _bin (self s) /\
      _checksum (self s') = _checksum (self s)
  end.
Proof.
  cbv zeta.
  assert (E : execHTTPcheck (Fake.collab Sessions.older_manifest) 16
                (Fake.start Sessions.older_manifest)
              = Ok false (final (Sessions.checked Sessions.older_manifest)))
    by (vm_compute; reflexivity).
  split; [exact E |].
  split; [eexists; vm_compute; left; reflexivity |].
  destruct (check_overwrites_target _ _ _ _ _ E) as [Hport [Hstore Hnewest]].
  split; [exact Hport |].
  split; [exact (Hstore eq_refl) | exact Hnewest].
Defined.

(** A rejected check and the download after it: the check of a manifest for an
    older version returns [false], yet the [execOTA] that follows connects to
    the host and port of that manifest and asks for its path. *)
Example rejected_check_retargets :
  let C := Fake.collab Sessions.older_manifest in
  let s' := final (Sessions.checked Sessions.older_manifest) in
  result (Sessions.checked Sessions.older_manifest) = Some false /\
  connections (trace (final (execOTA C 16 s')))
  = [("fw.example.org", 80); ("mirror.example.net", 8080)]%string /\
  requests (trace (final (execOTA C 16 s')))
  = [ {| req_method := "GET"; req_path := "/manifest.json";
         req_host := "fw.example.org"; req_range := None;
         req_connection := "close" |};
      {| req_method := "HEAD"; req_path := "/old.bin";
         req_host := "mirror.example.net"; req_range := None;
         req_connection := "close" |} ].
Proof.
  vm_compute. repeat split; reflexivity.
Qed.

Lemma manifest_read_fills_buffer_witness :
  let C := Fake.collab Sessions.full_manifest in
  let s := Fake.start Sessions.full_manifest in
  let h := Sessions.headers_of (Sessions.exchanged Sessions.full_manifest) in
  let s1 := final (Sessions.exchanged Sessions.full_manifest) in
  let n := contentLength h in
  let data := fst (client_readBytes C n (world s1)) in
  let JSONMessage := store_bytes JSON_BUFFER_SIZE data in
  trace s = [] /\
  manifest_exchange C 16 s = Ok (Some h) s1 /\
  1 <= contentLength h <= 256 /\
  isValidContentType h = true /\
  exists r s2,
    execHTTPcheck C 16 s = Ok r s2 /\
    reads (trace s2) = [(n, data)] /\
    n <= Z.of_nat JSON_BUFFER_SIZE /\
    In (EvDeserializeJson JSONMessage (deserializeJson C JSONMessage))
       (trace s2) /\
    (n = 256 -> List.length data = Z.to_nat n ->
     JSONMessage = map Some data).
Proof.
  cbv zeta.
  assert (E : manifest_exchange (Fake.collab Sessions.full_manifest) 16
                (Fake.start Sessions.full_manifest)
              = Ok (Some (Sessions.headers_of
                            (Sessions.exchanged Sessions.full_manifest)))
                  (final (Sessions.exchanged Sessions.full_manifest)))
    by (vm_compute; reflexivity).
  assert (L : 1 <= contentLength
                     (Sessions.headers_of
                        (Sessions.exchanged Sessions.full_manifest)) <= 256)
    by (vm_compute; split; discriminate).
  assert (V : isValidContentType
                (Sessions.headers_of
                   (Sessions.exchanged Sessions.full_manifest)) = true)
    by (vm_compute; reflexivity).
  split; [reflexivity |]. split; [exact E |]. split; [exact L |].
  split; [exact V |].
  exact (manifest_read_fills_buffer (Fake.collab Sessions.full_manifest) 16
           (Fake.start Sessions.full_manifest) _ _ eq_refl E L V).
Defined.

(** * Further properties of the parser *)

(** ** Splitting a header line *)

Lemma len_append a b :
  WString.len (a ++ b)%string = WString.len a + WString.len b.
Proof.
  unfold WString.len.
  induction a as [| c a IH]; cbn [String.append String.length].
  - lia.
  - rewrite !Nat2Z.inj_succ. lia.
Qed.

Lemma len_nonneg s : 0 <= WString.len s.
Proof. unfold WString.len. lia. Qed.

Lemma prefix_empty s : String.prefix EmptyString s = true.
Proof. destruct s; reflexivity. Qed.

Lemma find_char_first c name rest i :
  0 <= i ->
  WString.find_from (String c EmptyString) name i = -1 ->
  WString.find_from (String c EmptyString) (name ++ String c rest)%string i
  = i + WString.len name.
Proof.
  revert i. induction name as [| a name IH]; intros i Hi; cbn.
  - destruct (ascii_dec c c); [intros _ | congruence].
    rewrite prefix_empty. unfold WString.len. cbn. lia.
  - destruct (ascii_dec c a); [rewrite prefix_empty; intros; lia |].
    intros H. rewrite (IH (i + 1)) by (auto; lia).
    unfold WString.len. cbn [String.length]. lia.
Qed.

Lemma indexOf_char_first c name rest :
  WString.indexOf_char name c = -1 ->
  WString.indexOf_char (name ++ String c rest)%string c = WString.len name.
Proof.
  unfold WString.indexOf_char, WString.indexOf. intros H.
  rewrite len_append.
  destruct (Z.eqb_spec (WString.len name + WString.len (String c rest)) 0)
    as [E | _].
  - pose proof (len_nonneg name). unfold WString.len in E. cbn in E. lia.
  - rewrite find_char_first; [lia | lia |].
    destruct (WString.len name =? 0) eqn:E0.
    + apply Z.eqb_eq in E0. destruct name; [reflexivity |].
      unfold WString.len in E0. cbn in E0. lia.
    + exact H.
Qed.

Lemma substring_prefix a b :
  String.substring 0 (String.length a) (a ++ b)%string = a.
Proof.
  induction a as [| c a IH]; cbn.
  - destruct b; reflexivity.
  - now rewrite IH.
Qed.

Lemma substring_all s : String.substring 0 (String.length s) s = s.
Proof.
  induction s as [| c s IH]; cbn; [reflexivity | now rewrite IH].
Qed.

Lemma substring_suffix a b :
  String.substring (String.length a) (String.length b) (a ++ b)%string = b.
Proof.
  induction a as [| c a IH]; cbn.
  - apply substring_all.
  - exact IH.
Qed.

Lemma to_uint_small z : 0 <= z < 2 ^ 32 -> to_uint z = z.
Proof. intros H. unfold to_uint. now apply Z.mod_small. Qed.

Lemma append_assoc a b c : ((a ++ b) ++ c = a ++ (b ++ c))%string.
Proof. induction a as [| x a IH]; cbn; [reflexivity | now rewrite IH]. Qed.

Lemma splitHeader_colon name rest :
  WString.len (name ++ ":" ++ rest)%string < 2 ^ 32 ->
  WString.indexOf_char name ":"%char = -1 ->
  splitHeader (name ++ ":" ++ rest)%string = (name, WString.trim rest).
Proof.
  intros Hlen Hname. unfold splitHeader.
  change (":" ++ rest)%string with (String ":"%char rest) in *.
  rewrite (indexOf_char_first ":"%char name rest Hname).
  pose proof (len_nonneg name) as Hn. pose proof (len_nonneg rest) as Hr.
  assert (Hsrc : WString.len (name ++ String ":"%char rest)%string
                 = WString.len name + 1 + WString.len rest).
  { rewrite len_append. unfold WString.len. cbn [String.length]. lia. }
  f_equal.
  - unfold WString.substring.
    rewrite !to_uint_small by lia.
    rewrite Z.min_l, Z.max_r by lia.
    destruct (Z.leb_spec (WString.len (name ++ String ":"%char rest)%string) 0);
      [lia |].
    rewrite Z.min_l by lia. rewrite Z.sub_0_r. cbn [Z.to_nat].
    unfold WString.len. rewrite Nat2Z.id. apply substring_prefix.
  - f_equal. unfold WString.substring.
    rewrite !to_uint_small by lia.
    rewrite Z.min_l, Z.max_r by lia.
    destruct (Z.leb_spec (WString.len (name ++ String ":"%char rest)%string)
                (WString.len name + 1)) as [Hle | Hlt].
    + destruct rest; [reflexivity |].
      unfold WString.len in Hsrc, Hle. cbn [String.length] in *. lia.
    + rewrite Z.min_r by lia. rewrite Hsrc.
      replace (WString.len name + 1 + WString.len rest
               - (WString.len name + 1))
        with (WString.len rest) by lia.
      unfold WString.len. rewrite Nat2Z.id.
      replace (Z.to_nat (Z.of_nat (String.length name) + 1))
        with (String.length (name ++ ":")%string).
      * change (String ":"%char rest) with (":" ++ rest)%string.
        rewrite <- append_assoc. apply substring_suffix.
      * clear. induction name; cbn [String.append String.length]; lia.
Qed.

Lemma splitHeader_plain src :
  WString.len src < 2 ^ 32 ->
  WString.indexOf_char src ":"%char = -1 ->
  splitHeader src = (src, WString.trim src).
Proof.
  intros Hlen Hnone. unfold splitHeader. rewrite Hnone.
  pose proof (len_nonneg src) as Hn.
  assert (Hall : WString.substring src 0 (WString.len src) = src).
  { unfold WString.substring. rewrite !to_uint_small by lia.
    rewrite Z.min_l, Z.max_r by lia.
    destruct (Z.leb_spec (WString.len src) 0).
    - destruct src; [reflexivity |]. unfold WString.len in *. cbn in *. lia.
    - rewrite Z.min_l by lia. rewrite Z.sub_0_r. cbn [Z.to_nat].
      unfold WString.len. rewrite Nat2Z.id. apply substring_all. }
  f_equal.
  - unfold WString.substring.
    rewrite (to_uint_small 0) by lia.
    change (to_uint (-1)) with (2 ^ 32 - 1).
    rewrite Z.min_l, Z.max_r by lia.
    destruct (Z.leb_spec (WString.len src) 0).
    + destruct src; [reflexivity |]. unfold WString.len in *. cbn in *. lia.
    + rewrite Z.min_r by lia. rewrite Z.sub_0_r. cbn [Z.to_nat].
      unfold WString.len. rewrite Nat2Z.id. apply substring_all.
  - change (-1 + 1) with 0. now rewrite Hall.
Qed.

(** ** Decimal numbers *)

Lemma digits_value_digit c r acc :
  WString.is_digit c = true ->
  WString.digits_value (String c r) acc
  = WString.digits_value r (acc * 10 + (Z.of_nat (nat_of_ascii c) - 48)).
Proof. intros H. cbn [WString.digits_value]. now rewrite H. Qed.

Ltac digit_step IH :=
  rewrite digits_value_digit by reflexivity;
  match goal with
  | |- WString.digits_value _ ?a = Z.pos (Pos.of_uint_acc _ ?q) =>
      replace a with (Z.pos q);
      [ apply IH
      | match goal with
        | |- context [Z.of_nat (nat_of_ascii ?c)] =>
            let v := eval vm_compute in (Z.of_nat (nat_of_ascii c)) in
            change (Z.of_nat (nat_of_ascii c)) with v
        end; lia ]
  end.

Lemma digits_value_acc d p :
  WString.digits_value (NilEmpty.string_of_uint d) (Z.pos p)
  = Z.pos (Pos.of_uint_acc d p).
Proof.
  revert p.
  induction d; intros p; cbn [NilEmpty.string_of_uint Pos.of_uint_acc];
    [reflexivity | digit_step IHd ..].
Qed.

Lemma digits_value_of_uint d :
  WString.digits_value (NilEmpty.string_of_uint d) 0
  = Z.of_N (N.of_uint d).
Proof.
  unfold N.of_uint.
  induction d; cbn [NilEmpty.string_of_uint Pos.of_uint]; [reflexivity | ..];
    rewrite digits_value_digit by reflexivity;
    first [exact IHd | apply digits_value_acc].
Qed.

Lemma string_of_to_uint n :
  NilZero.string_of_uint (N.to_uint n) = NilEmpty.string_of_uint (N.to_uint n).
Proof.
  destruct (N.to_uint n) eqn:E; try reflexivity.
  pose proof (DecimalN.Unsigned.to_of (N.to_uint n)) as H.
  rewrite DecimalN.Unsigned.of_to, E in H. discriminate H.
Qed.

Lemma digits_value_decimal n :
  0 <= n -> WString.digits_value (WString.of_uint n) 0 = n.
Proof.
  intros Hn. unfold WString.of_uint.
  rewrite string_of_to_uint, digits_value_of_uint, DecimalN.Unsigned.of_to. lia.
Qed.

Lemma toInt_decimal n :
  0 <= n -> WString.toInt (WString.of_uint n) = Z.min n LONG_MAX.
Proof.
  intros Hn. pose proof (digits_value_decimal n Hn) as Hv. revert Hv.
  unfold WString.of_uint. rewrite string_of_to_uint.
  destruct (N.to_uint (Z.to_N n)); cbn [NilEmpty.string_of_uint].
  1: intros <-; reflexivity.
  all: unfold WString.toInt; cbn [WString.ltrim WString.isspace];
    cbv beta iota zeta;
    match goal with
    | |- context [WString.isspace ?c] =>
        change (WString.isspace c) with false; cbv iota
    end;
    intros ->; unfold WString.clamp_long, LONG_MIN, LONG_MAX; lia.
Qed.

Lemma rtrim_decimal d :
  WString.rtrim (NilEmpty.string_of_uint d) = NilEmpty.string_of_uint d.
Proof.
  induction d; cbn [NilEmpty.string_of_uint WString.rtrim];
    [reflexivity | ..];
    rewrite IHd; destruct (NilEmpty.string_of_uint d); reflexivity.
Qed.

Lemma trim_blank_decimal n :
  WString.trim (" " ++ WString.of_uint n) = WString.of_uint n.
Proof.
  unfold WString.of_uint, WString.trim. rewrite string_of_to_uint.
  change (" " ++ ?s)%string with (String " "%char s).
  cbn [WString.ltrim]. change (WString.isspace " ") with true. cbv iota.
  rewrite <- (rtrim_decimal (N.to_uint (Z.to_N n))) at 2. f_equal.
  destruct (N.to_uint (Z.to_N n)); reflexivity.
Qed.

Lemma length_decimal d :
  String.length (NilEmpty.string_of_uint d) = Decimal.nb_digits d.
Proof.
  induction d; cbn [NilEmpty.string_of_uint String.length Decimal.nb_digits];
    congruence.
Qed.

Lemma of_uint_acc_lower d p :
  Z.pos p * 10 ^ Z.of_nat (Decimal.nb_digits d)
  <= Z.pos (Pos.of_uint_acc d p).
Proof.
  revert p.
  induction d; intros p; cbn [Decimal.nb_digits Pos.of_uint_acc];
    [cbn; lia | ..];
    rewrite Nat2Z.inj_succ, Z.pow_succ_r by lia;
    match goal with
    | |- _ <= Z.pos (Pos.of_uint_acc _ ?q) => specialize (IHd q)
    end;
    assert (0 < 10 ^ Z.of_nat (Decimal.nb_digits d))
      by (apply Z.pow_pos_nonneg; lia);
    nia.
Qed.

Lemma decimal_lower n :
  0 < n ->
  10 ^ (Z.of_nat (Decimal.nb_digits (N.to_uint (Z.to_N n))) - 1) <= n.
Proof.
  intros Hn.
  pose proof (DecimalN.Unsigned.of_to (Z.to_N n)) as Hof.
  pose proof (DecimalN.Unsigned.to_of (N.to_uint (Z.to_N n))) as Hto.
  rewrite Hof in Hto. unfold Decimal.unorm in Hto.
  pose proof (DecimalFacts.nb_digits_nzhead (N.to_uint (Z.to_N n))) as Hnz.
  assert (Hval : Z.of_N (N.of_uint (N.to_uint (Z.to_N n))) = n)
    by (rewrite Hof; lia).
  revert Hto Hnz Hval. generalize (N.to_uint (Z.to_N n)). intros d.
  unfold N.of_uint.
  destruct d; cbn [Decimal.nzhead Decimal.nb_digits Pos.of_uint].
  1: cbn; lia.
  1: { intros Hto _ Hval. pose proof (DecimalFacts.nb_digits_nzhead d) as Hnz.
       destruct (Decimal.nzhead d) eqn:E; try discriminate Hto.
       - injection Hto as Hd. subst d. cbn in Hval. lia.
       - injection Hto as Hd. subst d. cbn [Decimal.nb_digits] in Hnz.
         lia. }
  all: intros _ _ <-;
    replace (Z.of_nat (S (Decimal.nb_digits d)) - 1)
      with (Z.of_nat (Decimal.nb_digits d)) by lia;
    match goal with
    | |- _ <= Z.of_N (N.pos (Pos.of_uint_acc _ ?q)) =>
        pose proof (of_uint_acc_lower d q) as Hl
    end;
    assert (0 < 10 ^ Z.of_nat (Decimal.nb_digits d))
      by (apply Z.pow_pos_nonneg; lia);
    cbn [Z.of_N]; nia.
Qed.

Lemma len_decimal n k :
  1 <= k -> 0 <= n < 10 ^ k -> WString.len (WString.of_uint n) <= k.
Proof.
  intros Hk Hn. unfold WString.len, WString.of_uint.
  rewrite string_of_to_uint, length_decimal.
  destruct (Z.eq_dec n 0) as [-> | Hpos]; [cbn; lia |].
  pose proof (decimal_lower n ltac:(lia)) as Hlow.
  destruct (Z_le_gt_dec
              (Z.of_nat (Decimal.nb_digits (N.to_uint (Z.to_N n)))) k)
    as [Hle | Hgt]; [exact Hle | exfalso].
  assert (10 ^ k <= 10 ^ (Z.of_nat (Decimal.nb_digits
                                      (N.to_uint (Z.to_N n))) - 1))
    by (apply Z.pow_le_mono_r; lia).
  lia.
Qed.

(** ** The parser on well-formed input *)

(** X19: A line with a colon is split at its first colon: the header is the
    text before it and the value is the rest of the line, trimmed, whatever
    colons the rest contains. *)
Theorem splitHeader_at_first_colon name rest :
  WString.len (name ++ ":" ++ rest)%string < 2 ^ 32 ->
  WString.indexOf_char name ":"%char = -1 ->
  splitHeader (name ++ ":" ++ rest)%string = (name, WString.trim rest).
Proof. exact (splitHeader_colon name rest). Qed.

(** X20: A line without a colon is not rejected: [indexOf] answers -1, the
    header is the whole line, and the value is the whole line as well,
    trimmed. *)
Theorem splitHeader_line_without_colon src :
  WString.len src < 2 ^ 32 ->
  WString.indexOf_char src ":"%char = -1 ->
  splitHeader src = (src, WString.trim src).
Proof. exact (splitHeader_plain src). Qed.

(** X21: After an accepted status line, the header [Content-Length: n] sets
    [contentLength] to [n] in both header loops, for every [n] that fits a
    signed 32-bit [long]; a larger [n] (below 2^64) is taken for [LONG_MAX]. *)
Theorem content_length_header_parsed n h :
  gotHTTPStatus h = true -> 0 <= n < 2 ^ 64 ->
  probe_line ("Content-Length: " ++ WString.of_uint n) h
  = Next (with_contentLength (Z.min n LONG_MAX) h) /\
  manifest_line ("Content-Length: " ++ WString.of_uint n) h
  = Next (with_contentLength (Z.min n LONG_MAX) h).
Proof.
  intros Hgot Hn.
  assert (Hlen : WString.len (WString.of_uint n) <= 20)
    by (apply len_decimal; lia).
  assert (Hsplit : splitHeader ("Content-Length: " ++ WString.of_uint n)
                   = ("Content-Length"%string, WString.of_uint n)).
  { change ("Content-Length: " ++ WString.of_uint n)%string
      with ("Content-Length" ++ ":" ++ (" " ++ WString.of_uint n))%string.
    rewrite splitHeader_colon; [| | reflexivity].
    - now rewrite trim_blank_decimal.
    - rewrite !len_append. change (WString.len "Content-Length") with 14.
      change (WString.len ":") with 1. change (WString.len " ") with 1.
      lia. }
  unfold probe_line, manifest_line.
  change (WString.startsWith ("Content-Length: " ++ WString.of_uint n)
            "HTTP/1.1") with false.
  cbn [andb]. rewrite Hgot. cbn [negb]. rewrite Hsplit.
  change (WString.equalsIgnoreCase "Content-Length" "Content-Length")
    with true.
  cbv iota. rewrite toInt_decimal by lia. split; reflexivity.
Qed.

(** X22: The text [_getDeviceID] makes of a 64-bit chip identifier has at most
    20 characters, so with its terminator it fits the 21 bytes of [deviceid],
    and different chip identifiers give different texts. *)
Theorem device_id_fits_and_identifies chipid other :
  0 <= chipid < 2 ^ 64 -> 0 <= other < 2 ^ 64 ->
  WString.len (_getDeviceID chipid) <= 20 /\
  (_getDeviceID other = _getDeviceID chipid -> other = chipid).
Proof.
  intros Hc Ho. unfold _getDeviceID. split.
  - apply len_decimal; lia.
  - intros E. rewrite <- (digits_value_decimal other) by lia.
    rewrite E. apply digits_value_decimal. lia.
Qed.

(** * Concrete runs of the further properties *)

Lemma no_stream_call tr :
  existsb (fun e => match e with
                    | EvUpdateWriteStream _ => true
                    | _ => false
                    end) tr = false ->
  forall n, ~ In (EvUpdateWriteStream n) tr.
Proof.
  intros H n Hin. apply not_true_iff_false in H. apply H.
  apply existsb_exists. exists (EvUpdateWriteStream n). auto.
Qed.

(** Find an event of a computed trace by its position. *)
Ltac at_position k :=
  first [ apply (nth_error_In _ k); vm_compute; reflexivity
        | lazymatch k with
          | 200%nat => fail
          | _ => at_position (S k)
          end ].

Lemma header_loop_scans_lines_witness :
  let C := Fake.collab Sessions.tiny in
  let s := {| self := Fake.device;
              world := Fake.serve (render Sessions.head_request)
                         (Fake.boot Sessions.tiny);
              trace := [] |} in
  let h' := {| contentLength := 10; isValidContentType := true;
               Accept_Ranges_bytes := true; gotHTTPStatus := true |} in
  let s' := final (read_headers C probe_line 16 no_headers s) in
  read_headers C probe_line 16 no_headers s = Ok h' s' /\
  self s' = self s /\
  exists ls,
    lines_read (trace s') = (lines_read (trace s) ++ ls)%list /\
    scan probe_line no_headers ls = (h', []).
Proof.
  cbv zeta.
  match goal with
  | |- ?run = ?res /\ _ =>
      assert (E : run = res) by (vm_compute; reflexivity)
  end.
  split; [exact E |].
  exact (header_loop_scans_lines _ _ _ _ _ _ _ E).
Defined.

Lemma begin_only_for_declared_image_witness :
  let C := Fake.collab Sessions.no_space in
  let s := Fake.start Sessions.no_space in
  trace s = [] /\
  In (EvUpdateBegin 64 false) (trace (final (execOTA C 16 s))) /\
  exists post pre length,
    trace (final (execOTA C 16 s))
    = (post ++ EvUpdateBegin 64 false :: pre)%list /\
    requests pre = [probe_request (self s)] /\
    declares "application/octet-stream" length (lines_read pre) /\
    length <> 0 /\ 64 = to_uint length.
Proof.
  cbv zeta.
  assert (Hin : In (EvUpdateBegin 64 false)
                  (trace (final (execOTA (Fake.collab Sessions.no_space) 16
                                   (Fake.start Sessions.no_space)))))
    by (vm_compute; right; left; reflexivity).
  split; [reflexivity | split; [exact Hin |]].
  exact (begin_only_for_declared_image (Fake.collab Sessions.no_space) 16
           (Fake.start Sessions.no_space) 64 false eq_refl Hin).
Defined.

Lemma manifest_read_only_when_declared_witness :
  let C := Fake.collab Sessions.older_manifest in
  let s := Fake.start Sessions.older_manifest in
  let n := Z.of_nat (List.length Sessions.older_text) in
  trace s = [] /\
  In (EvReadBytes n Sessions.older_text)
     (trace (final (execHTTPcheck C 16 s))) /\
  exists length,
    declares "application/json" length
      (lines_read (trace (final (execHTTPcheck C 16 s)))) /\
    length <> 0 /\ length <= 256 /\ n = to_uint length.
Proof.
  cbv zeta.
  assert (Hin : In (EvReadBytes (Z.of_nat (List.length Sessions.older_text))
                      Sessions.older_text)
                  (trace (final (execHTTPcheck
                                   (Fake.collab Sessions.older_manifest) 16
                                   (Fake.start Sessions.older_manifest)))))
    by (at_position 0%nat).
  split; [reflexivity | split; [exact Hin |]].
  exact (manifest_read_only_when_declared
           (Fake.collab Sessions.older_manifest) 16
           (Fake.start Sessions.older_manifest) _ _ eq_refl Hin).
Defined.

Lemma sink_driven_in_order_witness :
  let C := Fake.collab Sessions.tiny in
  let s := Fake.start Sessions.tiny in
  trace s = [] /\
  sink_protocol (self s) (sink_calls (trace (final (execOTA C 16 s))))
  = true.
Proof.
  cbv zeta. split; [reflexivity |].
  exact (sink_driven_in_order (Fake.collab Sessions.tiny) 16
           (Fake.start Sessions.tiny) eq_refl).
Defined.

Lemma restart_only_after_finished_update_witness :
  let C := Fake.collab Sessions.tiny in
  let s := Fake.start Sessions.tiny in
  trace s = [] /\
  (In EvRestart (trace (final (execOTA C 16 s))) <->
   result (execOTA C 16 s) = Some Restarted) /\
  (In EvRestart (trace (final (execOTA C 16 s))) ->
   exists older,
     trace (final (execOTA C 16 s))
     = EvRestart :: EvUpdateIsFinished true :: EvUpdateEnd true :: older).
Proof.
  cbv zeta. split; [reflexivity |].
  exact (restart_only_after_finished_update (Fake.collab Sessions.tiny) 16
           (Fake.start Sessions.tiny) eq_refl).
Defined.

Lemma execOTA_keeps_to_its_target_witness :
  let C := Fake.collab Sessions.tiny in
  let s := retarget "mirror.example.net" 70000 "/new.bin" ""
             (Fake.start Sessions.tiny) in
  let s' := final (execOTA C 16 s) in
  trace s = [] /\
  self s' = self s /\
  (forall h p, In (h, p) (connections (trace s')) ->
               h = _host (self s) /\ p = to_uint16 (_port (self s))) /\
  (forall r, In r (requests (trace s')) ->
             req_path r = _bin (self s) /\ req_host r = _host (self s)) /\
  (forall c, In (EvUpdateSetMD5 c) (trace s') -> c = _checksum (self s)).
Proof.
  cbv zeta. split; [reflexivity |].
  exact (execOTA_keeps_to_its_target (Fake.collab Sessions.tiny) 16
           (retarget "mirror.example.net" 70000 "/new.bin" ""
              (Fake.start Sessions.tiny)) eq_refl).
Defined.

Lemma forceUpdate_aims_at_its_arguments_witness :
  let C := Fake.collab Sessions.tiny in
  let s := Fake.start Sessions.tiny in
  let s' := final (forceUpdate C "mirror.example.net" 70000 "/new.bin"
                     "d41d8cd98f00b204e9800998ecf8427e" 16 s) in
  trace s = [] /\
  self s' = set_target "mirror.example.net" 70000 "/new.bin"
              "d41d8cd98f00b204e9800998ecf8427e" (self s) /\
  (forall h p, In (h, p) (connections (trace s')) ->
               h = "mirror.example.net"%string /\ p = to_uint16 70000) /\
  (forall r, In r (requests (trace s')) ->
             req_path r = "/new.bin"%string /\
             req_host r = "mirror.example.net"%string) /\
  (forall c, In (EvUpdateSetMD5 c) (trace s') ->
             c = "d41d8cd98f00b204e9800998ecf8427e"%string).
Proof.
  cbv zeta. split; [reflexivity |].
  exact (forceUpdate_aims_at_its_arguments (Fake.collab Sessions.tiny)
           "mirror.example.net" 70000 "/new.bin"
           "d41d8cd98f00b204e9800998ecf8427e" 16
           (Fake.start Sessions.tiny) eq_refl).
Defined.

Lemma check_asks_the_manifest_endpoint_witness :
  let C := Fake.collab Sessions.older_manifest in
  let s := Fake.start Sessions.older_manifest in
  let s' := final (execHTTPcheck C 16 s) in
  trace s = [] /\
  connections (trace s')
  = [(checkHOST (self s), to_uint16 (checkPORT (self s)))] /\
  (requests (trace s') = [] \/
   requests (trace s') = [manifest_request (self s)]) /\
  same_identity (self s) (self s').
Proof.
  cbv zeta. split; [reflexivity |].
  exact (check_asks_the_manifest_endpoint
           (Fake.collab Sessions.older_manifest) 16
           (Fake.start Sessions.older_manifest) eq_refl).
Defined.

Lemma transport_used_under_guard_witness :
  let C := Fake.collab Sessions.tiny in
  let s := Fake.start Sessions.tiny in
  _networkSemaphore (self s) = true /\ trace s = [] /\
  guarded (trace (final (execOTA C 16 s))) = true /\
  guarded (trace (final (execHTTPcheck C 16 s))) = true.
Proof.
  cbv zeta. split; [reflexivity | split; [reflexivity |]].
  exact (transport_used_under_guard (Fake.collab Sessions.tiny) 16
           (Fake.start Sessions.tiny) eq_refl eq_refl).
Defined.

Lemma flush_after_refusal_is_unguarded_witness :
  let C := Fake.collab Sessions.no_space in
  let s := Fake.start Sessions.no_space in
  trace s = [] /\
  In (EvUpdateBegin 64 false) (trace (final (execOTA C 16 s))) /\
  exists older,
    trace (final (execOTA C 16 s)) = EvFlush :: older /\
    guard older = Some false.
Proof.
  cbv zeta.
  assert (Hin : In (EvUpdateBegin 64 false)
                  (trace (final (execOTA (Fake.collab Sessions.no_space) 16
                                   (Fake.start Sessions.no_space)))))
    by (vm_compute; right; left; reflexivity).
  split; [reflexivity | split; [exact Hin |]].
  exact (flush_after_refusal_is_unguarded (Fake.collab Sessions.no_space) 16
           (Fake.start Sessions.no_space) 64 eq_refl Hin).
Defined.

Lemma spans_fit_image_and_buffer_witness :
  let C := Fake.collab Sessions.tiny in
  let s := Fake.start Sessions.tiny in
  transport_contract C /\ sink_contract C /\ trace s = [] /\
  In (EvUpdateBegin 10 true) (trace (final (execOTA C 16 s))) /\
  within 10 (trace (final (execOTA C 16 s))).
Proof.
  cbv zeta.
  assert (Hin : In (EvUpdateBegin 10 true)
                  (trace (final (execOTA (Fake.collab Sessions.tiny) 16
                                   (Fake.start Sessions.tiny)))))
    by (at_position 0%nat).
  split; [apply fake_transport_ok |]. split; [apply fake_sink_ok |].
  split; [reflexivity | split; [exact Hin |]].
  exact (spans_fit_image_and_buffer (Fake.collab Sessions.tiny)
           (fake_transport_ok _) (fake_sink_ok _) 16
           (Fake.start Sessions.tiny) 10 true eq_refl Hin).
Defined.

Lemma chunked_update_ends_complete_witness :
  let C := Fake.collab Sessions.tiny in
  let s := Fake.start Sessions.tiny in
  transport_contract C /\ sink_contract C /\ trace s = [] /\
  In (EvUpdateBegin 10 true) (trace (final (execOTA C 16 s))) /\
  In (EvUpdateEnd true) (trace (final (execOTA C 16 s))) /\
  (forall n, ~ In (EvUpdateWriteStream n)
                  (trace (final (execOTA C 16 s)))) /\
  acknowledged (trace (final (execOTA C 16 s))) = 10.
Proof.
  cbv zeta.
  assert (Hin : In (EvUpdateBegin 10 true)
                  (trace (final (execOTA (Fake.collab Sessions.tiny) 16
                                   (Fake.start Sessions.tiny)))))
    by (at_position 0%nat).
  assert (Hend : In (EvUpdateEnd true)
                   (trace (final (execOTA (Fake.collab Sessions.tiny) 16
                                    (Fake.start Sessions.tiny)))))
    by (at_position 0%nat).
  assert (Hno : forall n,
             ~ In (EvUpdateWriteStream n)
                  (trace (final (execOTA (Fake.collab Sessions.tiny) 16
                                   (Fake.start Sessions.tiny))))).
  { apply no_stream_call. vm_compute. reflexivity. }
  split; [apply fake_transport_ok |]. split; [apply fake_sink_ok |].
  split; [reflexivity |]. split; [exact Hin |]. split; [exact Hend |].
  split; [exact Hno |].
  exact (chunked_update_ends_complete (Fake.collab Sessions.tiny)
           (fake_transport_ok _) (fake_sink_ok _) 16
           (Fake.start Sessions.tiny) 10 true true eq_refl Hin Hend Hno).
Defined.


Lemma plan_of_full_delivery_witness :
  let k := Z.of_nat (List.length [false; false]) in
  let c := fold_left delivered [false; false] (first_chunk 40000) in
  0 < 40000 < 2 ^ 32 /\
  (k * DOWNLOAD_CHUNK_SIZE < 40000 ->
   chunk_first_byte (clip_chunk c) = k * DOWNLOAD_CHUNK_SIZE /\
   chunk_last_byte (clip_chunk c)
   = Z.min ((k + 1) * DOWNLOAD_CHUNK_SIZE) 40000 - 1 /\
   bytes_to_read (clip_chunk c)
   = Z.min DOWNLOAD_CHUNK_SIZE (40000 - k * DOWNLOAD_CHUNK_SIZE) /\
   0 < remainig_bytes c) /\
  ((k - 1) * DOWNLOAD_CHUNK_SIZE < 40000 <= k * DOWNLOAD_CHUNK_SIZE ->
   remainig_bytes c = 0 /\ total_written_bytes c = 40000).
Proof.
  cbv zeta.
  assert (H : 0 < 40000 < 2 ^ 32) by (split; reflexivity).
  split; [exact H |].
  exact (plan_of_full_delivery 40000 [false; false] H).
Defined.

Lemma negative_length_passes_the_guard_witness :
  let C := Script.server Script.negative_manifest in
  let s := Script.fresh in
  let h := {| contentLength := -1; isValidContentType := true;
              Accept_Ranges_bytes := false; gotHTTPStatus := true |} in
  let s1 := final (manifest_exchange C 16 s) in
  let n := contentLength h + 2 ^ 32 in
  let data := fst (client_readBytes C n (world s1)) in
  trace s = [] /\
  manifest_exchange C 16 s = Ok (Some h) s1 /\
  LONG_MIN <= contentLength h < 0 /\
  isValidContentType h = true /\
  exists r s2,
    execHTTPcheck C 16 s = Ok r s2 /\
    reads (trace s2) = [(n, data)] /\
    2 ^ 31 <= n /\ Z.of_nat JSON_BUFFER_SIZE < n.
Proof.
  cbv zeta.
  match goal with
  | |- _ /\ ?run = ?res /\ _ =>
      assert (E : run = res) by (vm_compute; reflexivity)
  end.
  assert (L : LONG_MIN <= -1 < 0) by (split; [discriminate | reflexivity]).
  split; [reflexivity |]. split; [exact E |]. split; [exact L |].
  split; [reflexivity |].
  exact (negative_length_passes_the_guard
           (Script.server Script.negative_manifest) 16 Script.fresh _ _
           eq_refl E L eq_refl).
Defined.

Lemma wait_times_out_across_wrap_witness :
  let C := Fake.collab Sessions.tiny in
  let s := Fake.start Sessions.tiny in
  let timeout := 2 ^ 32 - 5 in
  let w := Fake.boot Sessions.tiny in
  let w' := Fake.with_clock 1 w in
  let s' := {| self := self s; world := w';
               trace := EvMillis (to_uint (timeout + 5))
                          :: EvAvailable 0 :: trace s |} in
  0 <= 5 < 2 ^ 32 /\
  client_available C (world s) = (0, w) /\
  millis C w = (to_uint (timeout + 5), w') /\
  wait_available C 1 timeout s
  = if 5 >? CLIENT_TIMEOUT_MS then Ok false s'
    else wait_available C 0 timeout s'.
Proof.
  cbv zeta.
  assert (H : 0 <= 5 < 2 ^ 32) by (split; [discriminate | reflexivity]).
  split; [exact H |]. split; [reflexivity |]. split; [reflexivity |].
  exact (wait_times_out_across_wrap (Fake.collab Sessions.tiny) 0
           (2 ^ 32 - 5) 5 (Fake.start Sessions.tiny) _ _ H eq_refl eq_refl).
Defined.

Lemma splitHeader_at_first_colon_witness :
  WString.len ("Host" ++ ":" ++ " example.org:8080")%string < 2 ^ 32 /\
  WString.indexOf_char "Host" ":"%char = -1 /\
  splitHeader ("Host" ++ ":" ++ " example.org:8080")%string
  = ("Host"%string, WString.trim " example.org:8080").
Proof.
  split; [reflexivity | split; [reflexivity |]].
  exact (splitHeader_at_first_colon "Host" " example.org:8080"
           eq_refl eq_refl).
Defined.

Lemma splitHeader_line_without_colon_witness :
  WString.len "HTTP/1.1 200 OK" < 2 ^ 32 /\
  WString.indexOf_char "HTTP/1.1 200 OK" ":"%char = -1 /\
  splitHeader "HTTP/1.1 200 OK"
  = ("HTTP/1.1 200 OK"%string, WString.trim "HTTP/1.1 200 OK").
Proof.
  split; [reflexivity | split; [reflexivity |]].
  exact (splitHeader_line_without_colon "HTTP/1.1 200 OK" eq_refl eq_refl).
Defined.

Lemma content_length_header_parsed_witness :
  let h := with_status no_headers in
  gotHTTPStatus h = true /\ 0 <= 3000000000 < 2 ^ 64 /\
  probe_line ("Content-Length: " ++ WString.of_uint 3000000000) h
  = Next (with_contentLength (Z.min 3000000000 LONG_MAX) h) /\
  manifest_line ("Content-Length: " ++ WString.of_uint 3000000000) h
  = Next (with_contentLength (Z.min 3000000000 LONG_MAX) h).
Proof.
  cbv zeta.
  assert (H : 0 <= 3000000000 < 2 ^ 64)
    by (split; [discriminate | reflexivity]).
  split; [reflexivity | split; [exact H |]].
  exact (content_length_header_parsed 3000000000 (with_status no_headers)
           eq_refl H).
Defined.

Lemma device_id_fits_and_identifies_witness :
  0 <= 2 ^ 64 - 1 < 2 ^ 64 /\ 0 <= 0 < 2 ^ 64 /\
  WString.len (_getDeviceID (2 ^ 64 - 1)) <= 20 /\
  (_getDeviceID 0 = _getDeviceID (2 ^ 64 - 1) -> 0 = 2 ^ 64 - 1).
Proof.
  assert (H1 : 0 <= 2 ^ 64 - 1 < 2 ^ 64)
    by (split; [discriminate | reflexivity]).
  assert (H2 : 0 <= 0 < 2 ^ 64) by (split; [discriminate | reflexivity]).
  split; [exact H1 | split; [exact H2 |]].
  exact (device_id_fits_and_identifies (2 ^ 64 - 1) 0 H1 H2).
Defined.

Lemma ranged_download_only_when_advertised_witness :
  let C := Fake.collab Sessions.tiny in
  let s := Fake.start Sessions.tiny in
  let r := Sessions.ranged_request 0 9 in
  trace s = [] /\
  In r (requests (trace (final (execOTA C 16 s)))) /\
  req_range r <> None /\
  exists post size pre,
    trace (final (execOTA C 16 s))
    = (post ++ EvUpdateBegin size true :: pre)%list /\
    In (EvPrint r) post /\
    requests pre = [probe_request (self s)] /\
    advertises_ranges (lines_read pre).
Proof.
  cbv zeta.
  assert (Hin : In (Sessions.ranged_request 0 9)
                  (requests
                     (trace (final (execOTA (Fake.collab Sessions.tiny) 16
                                      (Fake.start Sessions.tiny))))))
    by (at_position 0%nat).
  assert (Hr : req_range (Sessions.ranged_request 0 9) <> None)
    by discriminate.
  split; [reflexivity | split; [exact Hin | split; [exact Hr |]]].
  exact (ranged_download_only_when_advertised (Fake.collab Sessions.tiny) 16
           (Fake.start Sessions.tiny) _ eq_refl Hin Hr).
Defined.

Lemma stream_is_finalized_whatever_was_written_witness :
  let C := Fake.collab unranged in
  let s := Fake.start unranged in
  let s' := final (execOTA C 16 s) in
  trace s = [] /\
  execOTA C 16 s = Ok Restarted s' /\
  In (EvUpdateWriteStream 10) (trace s') /\
  (exists ok, In (EvUpdateEnd ok) (trace s')) /\
  (Restarted = Restarted \/ Restarted = NoReturnValue).
Proof.
  cbv zeta.
  assert (E : execOTA (Fake.collab unranged) 16 (Fake.start unranged)
              = Ok Restarted
                  (final (execOTA (Fake.collab unranged) 16
                            (Fake.start unranged))))
    by (vm_compute; reflexivity).
  assert (Hin : In (EvUpdateWriteStream 10)
                  (trace (final (execOTA (Fake.collab unranged) 16
                                   (Fake.start unranged)))))
    by (at_position 0%nat).
  split; [reflexivity | split; [exact E | split; [exact Hin |]]].
  exact (stream_is_finalized_whatever_was_written (Fake.collab unranged) 16
           (Fake.start unranged) _ _ 10 eq_refl E Hin).
Defined.

Lemma body_fetched_only_after_begin_witness :
  let C := Fake.collab Sessions.tiny in
  let s := Fake.start Sessions.tiny in
  trace s = [] /\
  body_after_begin (trace (final (execOTA C 16 s))) = true.
Proof.
  cbv zeta. split; [reflexivity |].
  exact (body_fetched_only_after_begin (Fake.collab Sessions.tiny) 16
           (Fake.start Sessions.tiny) eq_refl).
Defined.
